(** * VibeVoice serverless handler: a shallow embedding of [handler.optimized.py]

    The development follows the source file: Python values and the string
    primitives the handler relies on, the [InputValidator] class, the module
    globals and the operating-system effects, [initialize_model],
    [generate_audio] and [handler].  What does not depend on the Python
    runtime (strings, exceptions, the file system, the effect monad) comes
    first. *)

From Stdlib Require Import String Ascii NArith ZArith Lia Bool DecimalString List.
Import ListNotations.
Local Open Scope list_scope.
Set Warnings "-register-all,-abstract-large-number".

(** ** Python strings

    A [str] is a sequence of Unicode code points; [len] counts code points. *)

Definition pystr := list N.

Definition lit (s : string) : pystr :=
  map N_of_ascii (list_ascii_of_string s).

(** The empty string. *)
Definition empty_str : pystr := [].

Fixpoint str_eqb (a b : pystr) : bool :=
  match a, b with
  | [], [] => true
  | x :: a', y :: b' => N.eqb x y && str_eqb a' b'
  | _, _ => false
  end.

(** The characters [str.strip()] removes: those for which CPython's
    [Py_UNICODE_ISSPACE] holds. *)
Definition is_space (c : N) : bool :=
  (((9 <=? c) && (c <=? 13)) || ((28 <=? c) && (c <=? 32))
   || (c =? 133) || (c =? 160) || (c =? 5760)
   || ((8192 <=? c) && (c <=? 8202))
   || (c =? 8232) || (c =? 8233) || (c =? 8239) || (c =? 8287) || (c =? 12288))%N.

Fixpoint lstrip (s : pystr) : pystr :=
  match s with
  | c :: s' => if is_space c then lstrip s' else s
  | [] => []
  end.

Definition rstrip (s : pystr) : pystr := rev (lstrip (rev s)).

Definition strip (s : pystr) : pystr := rstrip (lstrip s).

(** [s[:n]] for a non-negative [n]. *)
Definition slice_to (n : nat) (s : pystr) : pystr := firstn n s.

Definition is_ascii (s : pystr) : bool := forallb (fun c => (c <? 128)%N) s.

Definition ascii_lower_char (c : N) : N :=
  if ((65 <=? c) && (c <=? 90))%N then (c + 32)%N else c.

Fixpoint starts_with (p s : pystr) : bool :=
  match p, s with
  | [], _ => true
  | x :: p', y :: s' => N.eqb x y && starts_with p' s'
  | _ :: _, [] => false
  end.

Definition ends_with (p s : pystr) : bool := starts_with (rev p) (rev s).

(** [sub in s] on strings. *)
Fixpoint contains (sub s : pystr) : bool :=
  starts_with sub s ||
  match s with
  | [] => false
  | _ :: s' => contains sub s'
  end.

Fixpoint join (sep : pystr) (l : list pystr) : pystr :=
  match l with
  | [] => []
  | [x] => x
  | x :: l' => x ++ sep ++ join sep l'
  end.

(** [str(n)] for an [int]. *)
Definition int_str (z : Z) : pystr := lit (NilZero.string_of_int (Z.to_int z)).

(** ** Exceptions

    Only subclasses of [Exception] are modelled.  [UnicodeError] is kept apart
    because it is a subclass of [ValueError]. *)

Inductive exn_class :=
| ValueError | UnicodeError | AttributeError | TypeError
| TimeoutExpired | OSError | RuntimeError.

Record exn := mkExn { exn_cls : exn_class; exn_msg : pystr }.

(** [isinstance(e, ValueError)] *)
Definition is_ValueError (e : exn) : bool :=
  match exn_cls e with ValueError | UnicodeError => true | _ => false end.

Definition is_TimeoutExpired (e : exn) : bool :=
  match exn_cls e with TimeoutExpired => true | _ => false end.

Inductive res (A : Type) :=
| Ok (a : A)
| Raise (e : exn).
Arguments Ok {A} a.
Arguments Raise {A} e.

(** ** The file system

    Only regular files are stored; a directory exists when some file lies
    below it.  Paths are absolute, normalised strings.  The order of the
    entries is the order in which a directory listing yields them.  A file's
    [f_mtime] is the value [os.path.getmtime] returns for it. *)

Definition path := pystr.

Record file := mkFile { f_data : list N; f_mtime : Z }.

Definition filesystem := list (path * file).

Fixpoint fs_lookup (p : path) (fs : filesystem) : option file :=
  match fs with
  | [] => None
  | (q, f) :: fs' => if str_eqb p q then Some f else fs_lookup p fs'
  end.

Definition fs_remove (p : path) (fs : filesystem) : filesystem :=
  filter (fun e => negb (str_eqb p (fst e))) fs.

Definition as_dir (p : path) : path :=
  if ends_with (lit "/") p then p else p ++ lit "/".

(** [os.path.exists(p)] *)
Definition fs_exists (p : path) (fs : filesystem) : bool :=
  match p with
  | [] => false
  | _ => existsb (fun e => str_eqb p (fst e) || starts_with (as_dir p) (fst e)) fs
  end.

(** [os.path.join(a, b)] for a relative [b]. *)
Definition os_path_join (a b : path) : path :=
  match a with
  | [] => b
  | _ => as_dir a ++ b
  end.

(** The two glob patterns the handler uses: ["*config*"] (direct children
    whose name contains [config]) and [f"**/*.{ext}"] (every file below the
    directory whose name ends in [.ext]; as [ext] holds no [/], the name ends
    in [.ext] exactly when the whole path does). *)
Inductive pattern :=
| PatConfig
| PatAudio (ext : pystr).

Definition glob_match (dir : path) (pat : pattern) (q : path) : bool :=
  starts_with (as_dir dir) q &&
  match pat with
  | PatConfig =>
      let name := skipn (length (as_dir dir)) q in
      negb (contains (lit "/") name) && contains (lit "config") name
  | PatAudio ext => ends_with (lit "." ++ ext) q
  end.

Definition fs_glob (dir : path) (pat : pattern) (fs : filesystem) : list path :=
  map fst (filter (fun e => glob_match dir pat (fst e)) fs).

(** ** Module globals, the world and what is outside the program *)

Record world := mkWorld {
  model_initialized : bool;
  model_path : option pystr;
  device : option pystr;
  fs : filesystem;
  ticks : nat
}.

Definition set_model_initialized (b : bool) (w : world) : world :=
  mkWorld b (model_path w) (device w) (fs w) (ticks w).
Definition set_model_path (p : pystr) (w : world) : world :=
  mkWorld (model_initialized w) (Some p) (device w) (fs w) (ticks w).
Definition set_device (d : pystr) (w : world) : world :=
  mkWorld (model_initialized w) (model_path w) (Some d) (fs w) (ticks w).
Definition set_fs (fs' : filesystem) (w : world) : world :=
  mkWorld (model_initialized w) (model_path w) (device w) fs' (ticks w).
Definition tick (w : world) : world :=
  mkWorld (model_initialized w) (model_path w) (device w) (fs w) (S (ticks w)).

(** What [subprocess.run(cmd, ..., timeout=...)] can come to.  On expiry of
    the deadline [subprocess.run] kills the child, waits for it and raises
    [TimeoutExpired]; a child that cannot be started is an [OSError]. *)
Inductive child_result :=
| ChildExit (returncode : Z) (stdout stderr : pystr) (fs' : filesystem)
| ChildTimeout (fs' : filesystem)
| ChildSpawnError (msg : pystr).

(** What a run does to the outside, in order. *)
Inductive event :=
| EvCudaQuery
| EvExists (p : path) (b : bool)
| EvGlob (dir : path) (pat : pattern) (found : list path)
| EvCreate (p : path)
| EvMakedirs (p : path)
| EvSpawn (cmd : list pystr)
| EvKill
| EvExit (returncode : Z) (stdout stderr : pystr)
| EvRead (p : path)
| EvUnlink (p : path).

(** ** State, exceptions and a log of effects *)

Record outcome (A : Type) := mkOutcome {
  value : res A;
  final : world;
  events : list event
}.
Arguments mkOutcome {A} value final events.
Arguments value {A} o.
Arguments final {A} o.
Arguments events {A} o.

Definition M (A : Type) := world -> outcome A.

Definition ret {A} (a : A) : M A := fun w => mkOutcome (Ok a) w [].

Definition raise {A} (e : exn) : M A := fun w => mkOutcome (Raise e) w [].

(** [o], after [evs] has already happened. *)
Definition prepend {A} (evs : list event) (o : outcome A) : outcome A :=
  mkOutcome (value o) (final o) (evs ++ events o).

Definition bind {A B} (m : M A) (k : A -> M B) : M B :=
  fun w =>
    match m w with
    | mkOutcome (Ok a) w' evs => prepend evs (k a w')
    | mkOutcome (Raise e) w' evs => mkOutcome (Raise e) w' evs
    end.

Notation "x <- m ;; k" := (bind m (fun x => k))
  (at level 61, m at next level, right associativity).
Notation "m ;;; k" := (bind m (fun _ => k))
  (at level 61, right associativity).

Definition lift {A} (r : res A) : M A :=
  match r with
  | Ok a => ret a
  | Raise e => raise e
  end.

(** [try: m  except Exception as e: h e] *)
Definition try_except {A} (m : M A) (h : exn -> M A) : M A :=
  fun w =>
    match m w with
    | mkOutcome (Ok a) w' evs => mkOutcome (Ok a) w' evs
    | mkOutcome (Raise e) w' evs => prepend evs (h e w')
    end.

(** [try: m  finally: f]: [f] runs in either case; when it raises, its
    exception replaces what [m] came to. *)
Definition try_finally {A} (m : M A) (f : M unit) : M A :=
  fun w =>
    match m w with
    | mkOutcome v w' evs =>
        match f w' with
        | mkOutcome (Ok _) w'' evs' => mkOutcome v w'' (evs ++ evs')
        | mkOutcome (Raise e) w'' evs' => mkOutcome (Raise e) w'' (evs ++ evs')
        end
    end.

Definition gets {A} (f : world -> A) : M A := fun w => mkOutcome (Ok (f w)) w [].

Definition modify (f : world -> world) : M unit := fun w => mkOutcome (Ok tt) (f w) [].

Definition emit (e : event) : M unit := fun w => mkOutcome (Ok tt) w [e].

(** ** The parts of the Python runtime that are taken as given

    Floating point, the quoting done by [repr] on strings, full Unicode case
    mapping and base64 are library code; the handler only passes values
    through them. *)

Class PyRuntime := {
  pyfloat : Type;
  float_of_int : Z -> pyfloat;
  float_bool : pyfloat -> bool;
  float_repr : pyfloat -> pystr;
  float_sub : pyfloat -> pyfloat -> pyfloat;
  float_truediv : pyfloat -> pyfloat -> pyfloat;
  float_round2 : pyfloat -> pyfloat;
  str_repr : pystr -> pystr;
  unicode_lower : pystr -> pystr;
  b64encode : list N -> pystr
}.

Section Handler.

Context {R : PyRuntime}.

(** ** Python values (what a decoded JSON job can contain) *)

Inductive pyval :=
| PNone
| PBool (b : bool)
| PInt (z : Z)
| PFloat (f : pyfloat)
| PStr (s : pystr)
| PList (l : list pyval)
| PDict (d : list (pystr * pyval)).

Definition pydict := list (pystr * pyval).

Definition type_name (v : pyval) : pystr :=
  match v with
  | PNone => lit "NoneType"
  | PBool _ => lit "bool"
  | PInt _ => lit "int"
  | PFloat _ => lit "float"
  | PStr _ => lit "str"
  | PList _ => lit "list"
  | PDict _ => lit "dict"
  end.

(** [bool(v)] *)
Definition truthy (v : pyval) : bool :=
  match v with
  | PNone => false
  | PBool b => b
  | PInt z => negb (Z.eqb z 0)
  | PFloat f => float_bool f
  | PStr s => match s with [] => false | _ => true end
  | PList l => match l with [] => false | _ => true end
  | PDict d => match d with [] => false | _ => true end
  end.

Fixpoint py_repr (v : pyval) : pystr :=
  match v with
  | PNone => lit "None"
  | PBool true => lit "True"
  | PBool false => lit "False"
  | PInt z => int_str z
  | PFloat f => float_repr f
  | PStr s => str_repr s
  | PList l => lit "[" ++ join (lit ", ") (map py_repr l) ++ lit "]"
  | PDict d =>
      lit "{" ++
      join (lit ", ")
        (map (fun kv => let '(k, x) := kv in str_repr k ++ lit ": " ++ py_repr x) d)
      ++ lit "}"
  end.

(** [str(v)] *)
Definition py_str (v : pyval) : pystr :=
  match v with
  | PStr s => s
  | _ => py_repr v
  end.

Definition isinstance_str (v : pyval) : bool :=
  match v with PStr _ => true | _ => false end.

Definition no_attribute (v : pyval) (attr : string) : exn :=
  mkExn AttributeError
    (lit "'" ++ type_name v ++ lit "' object has no attribute '" ++ lit attr ++ lit "'").

(** [len(v)] *)
Definition py_len (v : pyval) : res N :=
  match v with
  | PStr s => Ok (N.of_nat (length s))
  | PList l => Ok (N.of_nat (length l))
  | PDict d => Ok (N.of_nat (length d))
  | _ => Raise (mkExn TypeError
                  (lit "object of type '" ++ type_name v ++ lit "' has no len()"))
  end.

(** [v.strip()] *)
Definition py_strip (v : pyval) : res pystr :=
  match v with
  | PStr s => Ok (strip s)
  | _ => Raise (no_attribute v "strip")
  end.

(** [s.lower()] on a [str]: exact on ASCII text, the runtime's on the rest. *)
Definition str_lower (s : pystr) : pystr :=
  if is_ascii s then map ascii_lower_char s else unicode_lower s.

(** [v.lower()] *)
Definition py_lower (v : pyval) : res pystr :=
  match v with
  | PStr s => Ok (str_lower s)
  | _ => Raise (no_attribute v "lower")
  end.

Fixpoint dict_lookup (k : pystr) (d : pydict) : option pyval :=
  match d with
  | [] => None
  | (k', x) :: d' => if str_eqb k k' then Some x else dict_lookup k d'
  end.

(** [v.get(key, default)] *)
Definition py_get (v : pyval) (key : string) (default : pyval) : res pyval :=
  match v with
  | PDict d => Ok (match dict_lookup (lit key) d with Some x => x | None => default end)
  | _ => Raise (no_attribute v "get")
  end.

(** ** class InputValidator *)

Definition default_speakers : list pyval := [PStr (lit "Alice"); PStr (lit "Bob")].

Definition err_text_empty : exn :=
  mkExn ValueError (lit "Text must be a non-empty string").

Definition err_text_too_long : exn :=
  mkExn ValueError (lit "Text too long (max 10,000 characters)").

Definition validate_text (text : pyval) : res pystr :=
  if negb (truthy text) || negb (isinstance_str text) then Raise err_text_empty
  else
    match py_len text with
    | Raise e => Raise e
    | Ok n =>
        if (10000 <? n)%N then Raise err_text_too_long
        else py_strip text
    end.

Definition validate_speaker_names (speaker_names : pyval) : list pystr :=
  let speaker_names :=
    match speaker_names with
    | PList l => l
    | _ => default_speakers
    end in
  let speaker_names := firstn 4 speaker_names in
  let speaker_names :=
    if (length speaker_names <? 2)%nat then default_speakers else speaker_names in
  map (fun name => strip (py_str name))
      (filter (fun name => match strip (py_str name) with [] => false | _ => true end)
              speaker_names).

Definition allowed_formats : list pystr := [lit "wav"; lit "mp3"; lit "flac"].

Definition str_in (s : pystr) (l : list pystr) : bool := existsb (str_eqb s) l.

Definition validate_output_format (format_type : pyval) : res pystr :=
  match (if truthy format_type then py_lower format_type else Ok (lit "wav")) with
  | Raise e => Raise e
  | Ok format_type =>
      if negb (str_in format_type allowed_formats) then Ok (lit "wav")
      else Ok format_type
  end.

(** ** Operating-system and library calls

    What lies outside the program is fixed for the length of a call. *)

Record oracle := mkOracle {
  (* torch.cuda.is_available(), [None] when torch raises *)
  cuda_is_available : option bool;
  (* os.environ.get('MODEL_PATH') *)
  environ_MODEL_PATH : option pystr;
  (* the successive readings of time.time() *)
  clock : nat -> pyfloat;
  (* the name tempfile picks, less the suffix; [None] when it cannot *)
  temp_name : option path;
  (* the locale's encoding; [None] for text it cannot encode *)
  encode_text : pystr -> option (list N);
  (* the files that cannot be opened for reading *)
  unreadable : path -> bool;
  child : list pystr -> filesystem -> child_result
}.

Variable o : oracle.

(** [time.time()] *)
Definition time_time : M pyfloat :=
  t <- gets (fun w => clock o (ticks w)) ;;
  modify tick ;;;
  ret t.

(** [torch.cuda.is_available()] *)
Definition torch_cuda_is_available : M bool :=
  emit EvCudaQuery ;;;
  match cuda_is_available o with
  | Some b => ret b
  | None => raise (mkExn RuntimeError (lit "CUDA driver initialization failed"))
  end.

Definition os_path_exists (p : path) : M bool :=
  b <- gets (fun w => fs_exists p (fs w)) ;;
  emit (EvExists p b) ;;;
  ret b.

Definition path_glob (dir : path) (pat : pattern) : M (list path) :=
  l <- gets (fun w => fs_glob dir pat (fs w)) ;;
  emit (EvGlob dir pat l) ;;;
  ret l.

Definition file_not_found (p : path) : exn :=
  mkExn OSError (lit "[Errno 2] No such file or directory: " ++ str_repr p).

Definition os_path_getmtime (p : path) : M Z :=
  f <- gets (fun w => fs_lookup p (fs w)) ;;
  match f with
  | Some f => ret (f_mtime f)
  | None => raise (file_not_found p)
  end.

(** [with open(p, 'rb') as f: f.read()] *)
Definition read_bytes (p : path) : M (list N) :=
  emit (EvRead p) ;;;
  if unreadable o p
  then raise (mkExn OSError (lit "[Errno 13] Permission denied: " ++ str_repr p))
  else
    f <- gets (fun w => fs_lookup p (fs w)) ;;
    match f with
    | Some f => ret (f_data f)
    | None => raise (file_not_found p)
    end.

Definition os_unlink (p : path) : M unit :=
  emit (EvUnlink p) ;;;
  f <- gets (fun w => fs_lookup p (fs w)) ;;
  match f with
  | Some _ => modify (fun w => set_fs (fs_remove p (fs w)) w)
  | None => raise (file_not_found p)
  end.

(** [os.makedirs(p, exist_ok=True)]: fails when a regular file is in the way. *)
Definition os_makedirs (p : path) : M unit :=
  emit (EvMakedirs p) ;;;
  f <- gets (fun w => fs_lookup p (fs w)) ;;
  match f with
  | Some _ => raise (mkExn OSError (lit "[Errno 17] File exists: " ++ str_repr p))
  | None => ret tt
  end.

(** [with tempfile.NamedTemporaryFile(mode='w', suffix='.txt', delete=False)
    as txt_file: txt_file.write(text); txt_path = txt_file.name].  The file
    is created exclusively under the name the environment picks, followed by
    the suffix; the text is written in the locale's encoding.  Its name ends
    in [.txt], so its modification time plays no role. *)
Definition write_temp_text (text : pystr) : M path :=
  match temp_name o with
  | None => raise (mkExn OSError (lit "[Errno 2] No usable temporary directory found"))
  | Some stem =>
      let p := stem ++ lit ".txt" in
      f <- gets (fun w => fs_lookup p (fs w)) ;;
      match f with
      | Some _ => raise (mkExn OSError (lit "[Errno 17] File exists: " ++ str_repr p))
      | None =>
          emit (EvCreate p) ;;;
          modify (fun w => set_fs (fs w ++ [(p, mkFile [] 0)]) w) ;;;
          match encode_text o text with
          | None => raise (mkExn UnicodeError (lit "codec can't encode characters"))
          | Some data =>
              modify (fun w => set_fs (fs_remove p (fs w) ++ [(p, mkFile data 0)]) w) ;;;
              ret p
          end
      end
  end.

Record completed := mkCompleted {
  returncode : Z;
  stdout : pystr;
  stderr : pystr
}.

(** [subprocess.run(cmd, capture_output=True, text=True,
    cwd='/app/VibeVoice', timeout=timeout)] *)
Definition subprocess_run (cmd : list pystr) (timeout : Z) : M completed :=
  r <- gets (fun w => child o cmd (fs w)) ;;
  match r with
  | ChildSpawnError msg => raise (mkExn OSError msg)
  | ChildTimeout fs' =>
      emit (EvSpawn cmd) ;;;
      modify (set_fs fs') ;;;
      emit EvKill ;;;
      raise (mkExn TimeoutExpired
               (lit "Command timed out after " ++ int_str timeout ++ lit " seconds"))
  | ChildExit rc out err fs' =>
      emit (EvSpawn cmd) ;;;
      modify (set_fs fs') ;;;
      emit (EvExit rc out err) ;;;
      ret (mkCompleted rc out err)
  end.

(** ** initialize_model *)

Definition default_model_path : path := lit "/app/models/VibeVoice-Large".

(** [os.environ.get('MODEL_PATH', '/app/models/VibeVoice-Large')] *)
Definition env_model_path : path :=
  match environ_MODEL_PATH o with
  | Some p => p
  | None => default_model_path
  end.

Definition initialize_model : M bool :=
  ready <- gets model_initialized ;;
  if ready then ret true
  else
    try_except
      (_start_time <- time_time ;;
       cuda <- torch_cuda_is_available ;;
       modify (set_device (if cuda then lit "cuda" else lit "cpu")) ;;;
       let mp := env_model_path in
       modify (set_model_path mp) ;;;
       found <- os_path_exists mp ;;
       if negb found then ret false
       else
         let config_file := os_path_join mp (lit "config.json") in
         has_config <- os_path_exists config_file ;;
         (if negb has_config
          then (_config_files <- path_glob mp PatConfig ;; ret tt)
          else ret tt) ;;;
         modify (set_model_initialized true) ;;;
         _end_time <- time_time ;;
         ret true)
      (fun _ => ret false).

(** ** generate_audio *)

Definition vibevoice_root : path := lit "/app/VibeVoice".
Definition output_dir : path := lit "/tmp/vibevoice_output".
Definition default_script : path := lit "/app/VibeVoice/demo/inference_from_file.py".
Definition possible_scripts : list path :=
  [lit "/app/VibeVoice/inference.py";
   lit "/app/VibeVoice/generate.py";
   lit "/app/VibeVoice/run_inference.py"].

(** [for script in possible_scripts: if os.path.exists(script): ...; break]
    with [None] for the loop's [else]. *)
Fixpoint find_script (scripts : list path) : M (option path) :=
  match scripts with
  | [] => ret None
  | script :: rest =>
      found <- os_path_exists script ;;
      if found then ret (Some script) else find_script rest
  end.

(** [for ext in ['wav', 'mp3', 'flac']: audio_files = ...; if audio_files:
    break], started with the current [audio_files]. *)
Fixpoint try_other_formats (exts : list pystr) (audio_files : list path)
  : M (list path) :=
  match exts with
  | [] => ret audio_files
  | ext :: rest =>
      audio_files <- path_glob vibevoice_root (PatAudio ext) ;;
      match audio_files with
      | [] => try_other_formats rest audio_files
      | _ => ret audio_files
      end
  end.

(** The search of lines 189-200. *)
Definition find_audio_files (output_format : pystr) : M (list path) :=
  audio_files <- path_glob vibevoice_root (PatAudio output_format) ;;
  audio_files <- match audio_files with
                 | [] => try_other_formats [lit "wav"; lit "mp3"; lit "flac"] audio_files
                 | _ => ret audio_files
                 end ;;
  match audio_files with
  | [] => path_glob output_dir (PatAudio output_format)
  | _ => ret audio_files
  end.

(** [max(..., key=os.path.getmtime)] keeps the first item whose key is the
    largest: [best] is replaced only by a strictly larger key. *)
Fixpoint max_mtime_from (best : path) (best_key : Z) (rest : list path) : M path :=
  match rest with
  | [] => ret best
  | p :: rest' =>
      k <- os_path_getmtime p ;;
      if (best_key <? k)%Z then max_mtime_from p k rest'
      else max_mtime_from best best_key rest'
  end.

Definition max_by_mtime (audio_files : list path) : M path :=
  match audio_files with
  | [] => raise (mkExn ValueError (lit "max() arg is an empty sequence"))
  | p :: rest =>
      k <- os_path_getmtime p ;;
      max_mtime_from p k rest
  end.

Definition key (s : string) : pystr := lit s.

Definition error_only (msg : pystr) : pydict := [(key "error", PStr msg)].

Definition pass_on_error (m : M unit) : M unit := try_except m (fun _ => ret tt).

Definition mebibyte : Z := 1024 * 1024.

(** Lines 187-244: what is returned once the child has exited. *)
Definition package_result (start_time generation_time : pyfloat)
    (text : pystr) (speaker_names : list pystr) (output_format : pystr)
    (result : completed) : M pydict :=
  if (returncode result =? 0)%Z then
    audio_files <- find_audio_files output_format ;;
    match audio_files with
    | _ :: _ =>
        latest_audio <- max_by_mtime audio_files ;;
        audio_data <- read_bytes latest_audio ;;
        pass_on_error (os_unlink latest_audio) ;;;
        let audio_base64 := b64encode audio_data in
        let file_size_mb :=
          float_truediv (float_of_int (Z.of_nat (length audio_data)))
                        (float_of_int mebibyte) in
        end_time <- time_time ;;
        let total_time := float_sub end_time start_time in
        ret [(key "success", PBool true);
             (key "audio_base64", PStr audio_base64);
             (key "format", PStr output_format);
             (key "size_mb", PFloat (float_round2 file_size_mb));
             (key "speakers", PList (map PStr speaker_names));
             (key "text_length", PInt (Z.of_nat (length text)));
             (key "generation_time", PFloat (float_round2 generation_time));
             (key "total_time", PFloat (float_round2 total_time))]
    | [] =>
        ret [(key "error", PStr (lit "No audio file generated"));
             (key "stdout", PStr (slice_to 500 (stdout result)));
             (key "stderr", PStr (slice_to 500 (stderr result)))]
    end
  else
    ret [(key "error",
          PStr (lit "Generation failed: " ++ slice_to 500 (stderr result)));
         (key "stdout", PStr (slice_to 500 (stdout result)))].

(** Lines 147-244: the body of the inner [try]. *)
Definition run_generation (start_time : pyfloat) (text : pystr)
    (speaker_names : list pystr) (output_format : pystr) (txt_path : path)
  : M pydict :=
  found <- os_path_exists default_script ;;
  demo_script <- (if found then ret (Some default_script)
                  else find_script possible_scripts) ;;
  match demo_script with
  | None =>
      ret (error_only (lit "No inference script found in VibeVoice directory"))
  | Some demo_script =>
      mp <- gets model_path ;;
      match mp with
      | None =>
          raise (mkExn TypeError
            (lit "expected str, bytes or os.PathLike object, not NoneType"))
      | Some mp =>
          let cmd := [lit "python"; demo_script;
                      lit "--model_path"; mp;
                      lit "--txt_path"; txt_path;
                      lit "--speaker_names"] ++ speaker_names in
          generation_start <- time_time ;;
          result <- subprocess_run cmd 300 ;;
          generation_end <- time_time ;;
          let generation_time := float_sub generation_end generation_start in
          package_result start_time generation_time text speaker_names
                         output_format result
      end
  end.

(** Lines 120-251: the body of the outer [try]. *)
Definition generate_audio_body (job_input : pyval) : M pydict :=
  start_time <- time_time ;;
  raw_text <- lift (py_get job_input "text" (PStr empty_str)) ;;
  text <- lift (validate_text raw_text) ;;
  raw_names <- lift (py_get job_input "speaker_names" (PList default_speakers)) ;;
  let speaker_names := validate_speaker_names raw_names in
  raw_format <- lift (py_get job_input "output_format" (PStr (lit "wav"))) ;;
  output_format <- lift (validate_output_format raw_format) ;;
  ready <- initialize_model ;;
  if negb ready then ret (error_only (lit "Model initialization failed"))
  else
    txt_path <- write_temp_text text ;;
    os_makedirs output_dir ;;;
    try_finally
      (run_generation start_time text speaker_names output_format txt_path)
      (pass_on_error (os_unlink txt_path)).

Definition timeout_message : pystr := lit "Generation timeout (5 minutes exceeded)".

(** Lines 253-260: the three [except] clauses, in order. *)
Definition generate_audio_except (e : exn) : M pydict :=
  if is_ValueError e then ret (error_only (lit "Invalid input: " ++ exn_msg e))
  else if is_TimeoutExpired e then ret (error_only timeout_message)
  else ret (error_only (lit "Generation failed: " ++ exn_msg e)).

Definition generate_audio (job_input : pyval) : M pydict :=
  try_except (generate_audio_body job_input) generate_audio_except.

(** ** handler *)

(** [key in v] *)
Definition py_contains (k : string) (v : pyval) : res bool :=
  match v with
  | PDict d => Ok (match dict_lookup (lit k) d with Some _ => true | None => false end)
  | PStr s => Ok (contains (lit k) s)
  | PList l =>
      Ok (existsb (fun x => match x with PStr s => str_eqb (lit k) s | _ => false end) l)
  | _ => Raise (mkExn TypeError
                  (lit "argument of type '" ++ type_name v ++ lit "' is not iterable"))
  end.

Definition usage_example : pyval :=
  PDict [(key "text", PStr (lit "Speaker 1: Hello there! Speaker 2: Hi, how are you?"));
         (key "speaker_names", PList default_speakers);
         (key "output_format", PStr (lit "wav"))].

Definition handler (job : pyval) : M pydict :=
  try_except
    (_job_id <- lift (py_get job "id" (PStr (lit "unknown"))) ;;
     job_input <- lift (py_get job "input" (PDict [])) ;;
     if negb (truthy job_input) then
       ret [(key "error", PStr (lit "No input provided"));
            (key "example", usage_example)]
     else
       has_text <- lift (py_contains "text" job_input) ;;
       if negb has_text then
         ret [(key "error", PStr (lit "Missing required 'text' parameter"));
              (key "example", usage_example)]
       else generate_audio job_input)
    (fun e => ret (error_only (lit "Handler failed: " ++ exn_msg e))).

(** ** Overlapping calls of initialize_model

    The function takes no lock, so two calls running in one process can
    interleave between any two of its statements.  A call is cut at the
    statements that read or write the module globals; [thread_step] runs one
    such piece.  A pool is the list of the calls' positions and a schedule
    names, step by step, the call that moves next. *)

Inductive position :=
| AtCheck          (* line 76: if model_initialized *)
| AtDevice         (* lines 80-85: device = ... *)
| AtModelPath      (* line 88: model_path = ... *)
| AtPathCheck      (* lines 90-92 *)
| AtConfigCheck    (* lines 95-103 *)
| AtCommit         (* lines 106-110: model_initialized = True *)
| Returned (b : bool).

Definition thread_step (p : position) : M position :=
  match p with
  | AtCheck =>
      ready <- gets model_initialized ;;
      ret (if ready then Returned true else AtDevice)
  | AtDevice =>
      try_except
        (_start_time <- time_time ;;
         cuda <- torch_cuda_is_available ;;
         modify (set_device (if cuda then lit "cuda" else lit "cpu")) ;;;
         ret AtModelPath)
        (fun _ => ret (Returned false))
  | AtModelPath =>
      modify (set_model_path env_model_path) ;;;
      ret AtPathCheck
  | AtPathCheck =>
      mp <- gets model_path ;;
      match mp with
      | None => ret (Returned false)
      | Some mp =>
          found <- os_path_exists mp ;;
          ret (if found then AtConfigCheck else Returned false)
      end
  | AtConfigCheck =>
      mp <- gets model_path ;;
      match mp with
      | None => ret (Returned false)
      | Some mp =>
          has_config <- os_path_exists (os_path_join mp (lit "config.json")) ;;
          (if negb has_config
           then (_config_files <- path_glob mp PatConfig ;; ret tt)
           else ret tt) ;;;
          ret AtCommit
      end
  | AtCommit =>
      modify (set_model_initialized true) ;;;
      _end_time <- time_time ;;
      ret (Returned true)
  | Returned b => ret (Returned b)
  end.

Fixpoint set_nth {A} (i : nat) (x : A) (l : list A) : list A :=
  match l, i with
  | [], _ => []
  | _ :: l', O => x :: l'
  | y :: l', S i' => y :: set_nth i' x l'
  end.

(** One step of call number [i]; a call that is not there does not move. *)
Definition pool_step (i : nat) (pool : list position) : M (list position) :=
  match nth_error pool i with
  | None => ret pool
  | Some p =>
      p' <- thread_step p ;;
      ret (set_nth i p' pool)
  end.

Fixpoint run_schedule (schedule : list nat) (pool : list position)
  : M (list position) :=
  match schedule with
  | [] => ret pool
  | i :: rest =>
      pool' <- pool_step i pool ;;
      run_schedule rest pool'
  end.

(** [n] calls of [initialize_model], one after the other. *)
Fixpoint call_n (n : nat) : M (list bool) :=
  match n with
  | O => ret []
  | S n' =>
      b <- initialize_model ;;
      bs <- call_n n' ;;
      ret (b :: bs)
  end.

(** An initialization attempt begins with the query of the device. *)
Definition is_attempt (e : event) : bool :=
  match e with EvCudaQuery => true | _ => false end.

Definition attempts (evs : list event) : nat :=
  length (filter is_attempt evs).

Definition is_spawn (e : event) : bool :=
  match e with EvSpawn _ => true | _ => false end.

Definition spawns (evs : list event) : nat :=
  length (filter is_spawn evs).

(** A call that has not yet queried the device. *)
Definition is_pending (p : position) : bool :=
  match p with AtCheck | AtDevice => true | _ => false end.

Definition pending_bit (p : position) : nat := if is_pending p then 1 else 0.

Definition pending (pool : list position) : nat :=
  length (filter is_pending pool).

End Handler.

Arguments pyval : clear implicits.
Arguments pydict : clear implicits.
Arguments oracle : clear implicits.

(** ** The vocabulary of the statements

    A statement about a run speaks of what the run returns, of the world it
    leaves and of its events. *)

Definition wp {A} (m : M A) (w : world)
    (Q : res A -> world -> list event -> Prop) : Prop :=
  Q (value (m w)) (final (m w)) (events (m w)).

(** The events a statement about a generation attempt looks at; queries of
    the device and of the existence of a path, the listing of the model
    directory, [makedirs] and [unlink] are left out. *)
Definition is_salient (e : event) : bool :=
  match e with
  | EvCreate _ | EvSpawn _ | EvKill | EvExit _ _ _ | EvRead _ => true
  | EvGlob _ (PatAudio _) _ => true
  | _ => false
  end.

Definition salient (evs : list event) : list event := filter is_salient evs.

Definition is_audio_glob (e : event) : bool :=
  match e with EvGlob _ (PatAudio _) _ => true | _ => false end.

Definition found_nothing (e : event) : bool :=
  match e with EvGlob _ (PatAudio _) [] => true | _ => false end.

Definition audio_found (evs : list event) : list path :=
  flat_map (fun e => match e with EvGlob _ (PatAudio _) l => l | _ => [] end) evs.

Definition nonempty {A} (l : list A) : bool :=
  match l with [] => false | _ => true end.

Definition first_nonempty (candidates : list (list path)) : list path :=
  match find nonempty candidates with
  | Some l => l
  | None => []
  end.

Definition located (fs : filesystem) (output_format : pystr) : list path :=
  first_nonempty
    [fs_glob vibevoice_root (PatAudio output_format) fs;
     fs_glob vibevoice_root (PatAudio (lit "wav")) fs;
     fs_glob vibevoice_root (PatAudio (lit "mp3")) fs;
     fs_glob vibevoice_root (PatAudio (lit "flac")) fs;
     fs_glob output_dir (PatAudio output_format) fs].

(** [os.path.getmtime(p)] as a total function. *)
Definition mtime_of (fs : filesystem) (p : path) : Z :=
  match fs_lookup p fs with Some f => f_mtime f | None => 0%Z end.

(** Readiness is not lost between two worlds. *)
Definition ready_mono (w w' : world) : Prop :=
  model_initialized w = true -> model_initialized w' = true.

Section Vocabulary.
Context {R : PyRuntime}.

Definition failure_nonzero (out err : pystr) : pydict R :=
  [(key "error", PStr (lit "Generation failed: " ++ slice_to 500 err));
   (key "stdout", PStr (slice_to 500 out))].

Definition failure_no_audio (out err : pystr) : pydict R :=
  [(key "error", PStr (lit "No audio file generated"));
   (key "stdout", PStr (slice_to 500 out));
   (key "stderr", PStr (slice_to 500 err))].

Definition requested_format (job_input : pyval R) : res pystr :=
  match py_get job_input "output_format" (PStr (lit "wav")) with
  | Ok raw => validate_output_format raw
  | Raise e => Raise e
  end.

Definition is_success (d : pydict R) (fmt : pystr) : Prop :=
  dict_lookup (key "success") d = Some (PBool true) /\
  dict_lookup (key "format") d = Some (PStr fmt) /\
  dict_lookup (key "error") d = None.

(** What the third [except] clause of [generate_audio] makes of what lines
    187-244 came to. *)
Definition reported (v : res (pydict R)) : pydict R :=
  match v with
  | Ok d => d
  | Raise e => error_only (lit "Generation failed: " ++ exn_msg e)
  end.

(** How lines 187-244 can end once the child has exited. *)
Inductive packaged (fmt : pystr) (out err : pystr) : Z -> res (pydict R) -> list event -> Prop :=
| PackFailed rc :
    rc <> 0%Z -> packaged fmt out err rc (Ok (failure_nonzero out err)) []
| PackNoAudio globs :
    forallb found_nothing globs = true ->
    packaged fmt out err 0 (Ok (failure_no_audio out err)) globs
| PackSuccess globs q d :
    forallb is_audio_glob globs = true ->
    In q (audio_found globs) ->
    is_success d fmt ->
    packaged fmt out err 0 (Ok d) (globs ++ [EvRead q])
| PackUnreadable globs q e :
    forallb is_audio_glob globs = true ->
    In q (audio_found globs) ->
    exn_cls e = OSError ->
    packaged fmt out err 0 (Raise e) (globs ++ [EvRead q]).

(** How the body of the inner [try] can end, lines 147-244. *)
Inductive script_run (fmt : pystr) : res (pydict R) -> list event -> Prop :=
| ScriptRaise e :
    exn_cls e <> TimeoutExpired -> script_run fmt (Raise e) []
| ScriptMissing msg :
    msg <> timeout_message -> script_run fmt (Ok (error_only msg)) []
| ScriptTimeout cmd msg :
    script_run fmt (Raise (mkExn TimeoutExpired msg)) [EvSpawn cmd; EvKill]
| ScriptExited cmd rc out err v sal :
    packaged fmt out err rc v sal ->
    script_run fmt v ([EvSpawn cmd; EvExit rc out err] ++ sal).

(** How a call of [generate_audio] can end: what it returns, the world it
    leaves and the salient events of the run. *)
Inductive generation (job_input : pyval R) : res (pydict R) -> world -> list event -> Prop :=
| GenRejected msg w' sal :
    msg <> timeout_message ->
    sal = [] \/ (exists p, sal = [EvCreate p]) ->
    generation job_input (Ok (error_only msg)) w' sal
| GenTimeout p cmd w' :
    fs_lookup p (fs w') = None ->
    generation job_input (Ok (error_only timeout_message)) w'
               [EvCreate p; EvSpawn cmd; EvKill]
| GenExited p cmd rc out err v sal fmt w' :
    requested_format job_input = Ok fmt ->
    packaged fmt out err rc v sal ->
    fs_lookup p (fs w') = None ->
    generation job_input (Ok (reported v)) w'
               ([EvCreate p; EvSpawn cmd; EvExit rc out err] ++ sal).

(** The same for the body of the outer [try], which can still raise. *)
Inductive body_run (job_input : pyval R) : res (pydict R) -> world -> list event -> Prop :=
| BodyRaise e w' sal :
    exn_cls e <> TimeoutExpired ->
    sal = [] \/ (exists p, sal = [EvCreate p]) ->
    body_run job_input (Raise e) w' sal
| BodyTimeout p cmd msg w' :
    fs_lookup p (fs w') = None ->
    body_run job_input (Raise (mkExn TimeoutExpired msg)) w'
             [EvCreate p; EvSpawn cmd; EvKill]
| BodyEarly msg w' sal :
    msg <> timeout_message ->
    sal = [] \/ (exists p, sal = [EvCreate p]) ->
    body_run job_input (Ok (error_only msg)) w' sal
| BodyExited p cmd rc out err v sal fmt w' :
    requested_format job_input = Ok fmt ->
    packaged fmt out err rc v sal ->
    fs_lookup p (fs w') = None ->
    body_run job_input v w' ([EvCreate p; EvSpawn cmd; EvExit rc out err] ++ sal).

Definition is_failure (d : pydict R) : Prop :=
  exists msg, dict_lookup (key "error") d = Some (PStr msg).

(** *** Machines to run the handler on *)

(** An environment in which nothing fails: a GPU, the default model path, a
    clock that counts the readings. *)
Definition machine (child : list pystr -> filesystem -> child_result) : oracle R :=
  mkOracle (Some true) None (fun n => float_of_int (Z.of_nat n))
           (Some (lit "/tmp/tmpab12cd34")) (fun s => Some s) (fun _ => false) child.

Definition job_of (fields : list (pystr * pyval R)) : pyval R :=
  PDict [(lit "id", PStr (lit "job-1")); (lit "input", PDict fields)].

(** The [input] of a job that gives only the text. *)
Definition text_job (text : pystr) : pyval R := PDict [(lit "text", PStr text)].

End Vocabulary.

(** The model and the demo script are in place. *)
Definition model_files : filesystem :=
  [(lit "/app/models/VibeVoice-Large/config.json", mkFile [123; 125]%N 10%Z);
   (lit "/app/VibeVoice/demo/inference_from_file.py", mkFile [35]%N 10%Z)].

Definition fresh_world : world := mkWorld false None None model_files 0.

(** A child that exits with status 0 and leaves [files] behind, next to
    what was there. *)
Definition child_writes (files : filesystem) (out err : pystr)
  : list pystr -> filesystem -> child_result :=
  fun _ fs => ChildExit 0 out err (fs ++ files).

Definition child_fails (rc : Z) (out err : pystr)
  : list pystr -> filesystem -> child_result :=
  fun _ fs => ChildExit rc out err fs.

Definition child_hangs : list pystr -> filesystem -> child_result :=
  fun _ fs => ChildTimeout fs.

Definition hello : pystr := lit "Speaker 1: Hi. Speaker 2: Hello.".

(** A string of 10,001 characters: a blank followed by 10,000 letters. *)
Definition padded_text : pystr := 32%N :: repeat 97%N 10000.

Definition an_mp3 : filesystem :=
  [(lit "/app/VibeVoice/outputs/out.mp3", mkFile [73; 68; 51; 4]%N 20%Z)].

(** Two takes in the working tree, the older one listed first. *)
Definition two_takes : filesystem :=
  [(lit "/app/VibeVoice/take1.wav", mkFile [1]%N 5%Z);
   (lit "/app/VibeVoice/outputs/take2.wav", mkFile [2]%N 9%Z)].

(** ** A runtime in which the handler can be run

    Hundredths stand for binary floating point, [repr] quotes without
    escaping and non-ASCII text is left as it is by [lower]; base64 is the
    standard encoding. *)

Module Sample.

Local Open Scope N_scope.

Definition b64_char (i : N) : N :=
  if i <? 26 then 65 + i
  else if i <? 52 then 97 + (i - 26)
  else if i <? 62 then 48 + (i - 52)
  else if i =? 62 then 43 else 47.

Fixpoint base64 (l : list N) : pystr :=
  match l with
  | a :: b :: c :: r =>
      b64_char (a / 4) :: b64_char ((a mod 4) * 16 + b / 16)
        :: b64_char ((b mod 16) * 4 + c / 64) :: b64_char (c mod 64) :: base64 r
  | [a; b] =>
      [b64_char (a / 4); b64_char ((a mod 4) * 16 + b / 16);
       b64_char ((b mod 16) * 4); 61]
  | [a] => [b64_char (a / 4); b64_char ((a mod 4) * 16); 61; 61]
  | [] => []
  end.

Definition runtime : PyRuntime := {|
  pyfloat := Z;
  float_of_int := fun z => (100 * z)%Z;
  float_bool := fun f => negb (Z.eqb f 0);
  float_repr := int_str;
  float_sub := Z.sub;
  float_truediv := fun a b => (100 * a / b)%Z;
  float_round2 := fun f => f;
  str_repr := fun s => lit "'" ++ s ++ lit "'";
  unicode_lower := fun s => s;
  b64encode := base64
|}.

End Sample.

(** ** More of the vocabulary

    What the statements about the rest of the handler speak of. *)

Section MoreVocabulary.
Context {R : PyRuntime}.

(** The three inputs of a job, read and validated as lines 123-129 do. *)
Definition validated (job_input : pyval R) (text : pystr) (names : list pystr)
    (fmt : pystr) : Prop :=
  exists raw_text raw_names raw_format,
    py_get job_input "text" (PStr empty_str) = Ok raw_text /\
    validate_text raw_text = Ok text /\
    py_get job_input "speaker_names" (PList default_speakers) = Ok raw_names /\
    names = validate_speaker_names raw_names /\
    py_get job_input "output_format" (PStr (lit "wav")) = Ok raw_format /\
    validate_output_format raw_format = Ok fmt.

(** The script lines 148-163 settle on: the first that exists. *)
Definition script_choice (fs : filesystem) : option path :=
  find (fun s => fs_exists s fs) (default_script :: possible_scripts).

(** The command of lines 166-171. *)
Definition launch_cmd (script mp txt : path) (names : list pystr) : list pystr :=
  [lit "python"; script; lit "--model_path"; mp; lit "--txt_path"; txt;
   lit "--speaker_names"] ++ names.

(** The child was run on [fs0] with [cmd], and [evs] tells how it ended. *)
Definition child_ran (o : oracle R) (cmd : list pystr) (fs0 : filesystem)
    (evs : list event) : Prop :=
  match child o cmd fs0 with
  | ChildExit rc out err _ => In (EvExit rc out err) evs
  | ChildTimeout _ => In EvKill evs
  | ChildSpawnError _ => False
  end.

(** The name [tempfile.NamedTemporaryFile(suffix='.txt')] gives its file. *)
Definition txt_of (stem : pystr) : path := stem ++ lit ".txt".

Definition is_some {A} (x : option A) : bool :=
  match x with Some _ => true | None => false end.

(** What a call of [initialize_model] made in [w] will return: the worker is
    ready already, or the device can be queried and the model path exists. *)
Definition will_be_ready (o : oracle R) (w : world) : bool :=
  model_initialized w
  || (is_some (cuda_is_available o) && fs_exists (env_model_path o) (fs w)).

Definition success_fields (d : pydict R) (text : pystr) (names : list pystr)
    (fmt : pystr) : Prop :=
  dict_lookup (key "success") d = Some (PBool true) ->
  dict_lookup (key "text_length") d = Some (PInt (Z.of_nat (length text))) /\
  dict_lookup (key "speakers") d = Some (PList (map PStr names)) /\
  dict_lookup (key "format") d = Some (PStr fmt).

End MoreVocabulary.

(** The module globals and the files are in [w'] as in [w]. *)
Definition same_globals (w w' : world) : Prop :=
  model_initialized w' = model_initialized w /\ model_path w' = model_path w /\
  device w' = device w /\ fs w' = fs w.

(** ** health_check *)

(** What [torch.cuda] tells about the devices: the results of
    [device_count()], of [get_device_name(0)] and of
    [get_device_properties(0).total_memory / 1e9] formatted with [.1f];
    [None] where the call raises. *)
Record gpu := mkGpu {
  device_count : option Z;
  get_device_name : option pystr;
  total_memory_gb : option pystr
}.

Section HealthCheck.
Context {R : PyRuntime}.
Variable o : oracle R.
Variable g : gpu.

Definition probe {A} (what : string) (x : option A) : M A :=
  match x with
  | Some a => ret a
  | None => raise (mkExn RuntimeError (lit what))
  end.

Definition torch_cuda_device_count : M Z :=
  probe "CUDA driver initialization failed" (device_count g).

(** [x if torch.cuda.device_count() > 0 else None] *)
Definition of_first_device (x : option pystr) : M (pyval R) :=
  n <- torch_cuda_device_count ;;
  if (0 <? n)%Z
  then (s <- probe "CUDA error: invalid device ordinal" x ;; ret (PStr s))
  else ret PNone.

Definition health_check : M (pydict R) :=
  try_except
    (ready <- gets model_initialized ;;
     loaded <- gets model_initialized ;;
     dev <- gets device ;;
     timestamp <- time_time o ;;
     let health_data :=
       [(key "status", PStr (if ready then lit "healthy" else lit "initializing"));
        (key "model_loaded", PBool loaded);
        (key "device", match dev with Some d => PStr d | None => PNone end);
        (key "timestamp", PFloat timestamp)] in
     cuda <- torch_cuda_is_available o ;;
     if cuda then
       gpu_count <- torch_cuda_device_count ;;
       gpu_name <- of_first_device (get_device_name g) ;;
       gpu_memory_gb <- of_first_device (total_memory_gb g) ;;
       ret (health_data ++
            [(key "gpu_info", PDict [(key "gpu_count", PInt gpu_count);
                                     (key "gpu_name", gpu_name);
                                     (key "gpu_memory_gb", gpu_memory_gb)])])
     else ret health_data)
    (fun e =>
       timestamp <- time_time o ;;
       ret [(key "status", PStr (lit "unhealthy"));
            (key "error", PStr (exn_msg e));
            (key "timestamp", PFloat timestamp)]).

(** The probes [health_check] makes all answer. *)
Definition probes_answer : bool :=
  match cuda_is_available o with
  | None => false
  | Some false => true
  | Some true =>
      match device_count g with
      | None => false
      | Some n =>
          if (0 <? n)%Z
          then is_some (get_device_name g) && is_some (total_memory_gb g)
          else true
      end
  end.

(** ** Overlapping calls: what holds of every call at every moment

    A call that is past line 88 finds the model path set to the one of the
    environment, and a call has returned only [True], and only with the
    worker ready. *)
Definition settled (w : world) (p : position) : Prop :=
  match p with
  | AtCheck | AtDevice | AtModelPath => True
  | AtPathCheck | AtConfigCheck | AtCommit => model_path w = Some (env_model_path o)
  | Returned b => b = true /\ model_initialized w = true
  end.

End HealthCheck.

(** ** Overlapping calls: what the calls agree on *)

Section Agreement.
Context {R : PyRuntime}.
Variable o : oracle R.

(** What holds between the world [w0] in which overlapping calls began and
    the world [w] they have reached: the files are the same, the worker is
    ready only where a call made in [w0] succeeds, and a worker that was
    ready is still ready. *)
Definition in_step (w0 w : world) : Prop :=
  fs w = fs w0 /\
  (model_initialized w = true -> will_be_ready o w0 = true) /\
  (model_initialized w0 = true -> model_initialized w = true).

(** What holds of a call at position [p]: a call past line 76 began on a
    worker that was not ready, one past line 84 could query the device, one
    past line 88 finds the model path of the environment, one past line 92
    is about to succeed, and one that has returned has returned what a call
    made in [w0] returns, which is the state of the flag. *)
Definition agreed (w0 w : world) (p : position) : Prop :=
  match p with
  | AtCheck => True
  | AtDevice => model_initialized w0 = false
  | AtModelPath => model_initialized w0 = false /\ cuda_is_available o <> None
  | AtPathCheck =>
      model_initialized w0 = false /\ cuda_is_available o <> None /\
      model_path w = Some (env_model_path o)
  | AtConfigCheck | AtCommit =>
      model_path w = Some (env_model_path o) /\ will_be_ready o w0 = true
  | Returned b => b = will_be_ready o w0 /\ model_initialized w = b
  end.

End Agreement.

(** The model is in place and no script is. *)
Definition model_only : filesystem :=
  [(lit "/app/models/VibeVoice-Large/config.json", mkFile [123; 125]%N 10%Z)].

(** One device. *)
Definition a_gpu : gpu :=
  mkGpu (Some 1%Z) (Some (lit "NVIDIA A100")) (Some (lit "42.5")).

(** * Properties *)

(** ** Rules for reasoning about runs *)

Section Rules.
Context {A B : Type}.

Lemma wp_ret (a : A) w Q : Q (Ok a) w [] -> wp (ret a) w Q.
Proof. exact (fun H => H). Qed.

Lemma wp_raise (e : exn) w (Q : res A -> _) : Q (Raise e) w [] -> wp (raise e) w Q.
Proof. exact (fun H => H). Qed.

Lemma wp_lift (r : res A) w Q : Q r w [] -> wp (lift r) w Q.
Proof. destruct r; exact (fun H => H). Qed.

Lemma wp_gets (f : world -> A) w Q : Q (Ok (f w)) w [] -> wp (gets f) w Q.
Proof. exact (fun H => H). Qed.

Lemma wp_bind (m : M A) (k : A -> M B) w Q :
  wp m w (fun v w1 e1 =>
            match v with
            | Ok a => wp (k a) w1 (fun v2 w2 e2 => Q v2 w2 (e1 ++ e2))
            | Raise e => Q (Raise e) w1 e1
            end) ->
  wp (bind m k) w Q.
Proof.
  unfold wp, bind. destruct (m w) as [[a|e] w1 e1]; cbn; exact (fun H => H).
Qed.

Lemma wp_use (m : M A) w (P Q : res A -> world -> list event -> Prop) :
  wp m w P -> (forall v w1 e1, P v w1 e1 -> Q v w1 e1) -> wp m w Q.
Proof. unfold wp. intros H HPQ. now apply HPQ. Qed.

End Rules.

Lemma wp_try_except {A} (m : M A) (h : exn -> M A) w Q :
  wp m w (fun v w1 e1 =>
            match v with
            | Ok a => Q (Ok a) w1 e1
            | Raise e => wp (h e) w1 (fun v2 w2 e2 => Q v2 w2 (e1 ++ e2))
            end) ->
  wp (try_except m h) w Q.
Proof.
  unfold wp, try_except. destruct (m w) as [[a|e] w1 e1]; cbn; exact (fun H => H).
Qed.

Lemma wp_try_finally {A} (m : M A) (f : M unit) w Q :
  wp m w (fun v w1 e1 =>
            wp f w1 (fun v2 w2 e2 =>
                       match v2 with
                       | Ok _ => Q v w2 (e1 ++ e2)
                       | Raise e => Q (Raise e) w2 (e1 ++ e2)
                       end)) ->
  wp (try_finally m f) w Q.
Proof.
  unfold wp, try_finally. destruct (m w) as [v w1 e1]; cbn.
  destruct (f w1) as [[u|e] w2 e2]; cbn; exact (fun H => H).
Qed.

Lemma wp_modify (f : world -> world) w Q : Q (Ok tt) (f w) [] -> wp (modify f) w Q.
Proof. exact (fun H => H). Qed.

Lemma wp_emit (e : event) w Q : Q (Ok tt) w [e] -> wp (emit e) w Q.
Proof. exact (fun H => H). Qed.

Ltac wp_step :=
  lazymatch goal with
  | |- wp (bind _ _) _ _ => apply wp_bind
  | |- wp (ret _) _ _ => apply wp_ret
  | |- wp (raise _) _ _ => apply wp_raise
  | |- wp (lift _) _ _ => apply wp_lift
  | |- wp (gets _) _ _ => apply wp_gets
  | |- wp (modify _) _ _ => apply wp_modify
  | |- wp (emit _) _ _ => apply wp_emit
  | |- wp (try_except _ _) _ _ => apply wp_try_except
  | |- wp (try_finally _ _) _ _ => apply wp_try_finally
  end.

Ltac wp_steps := repeat (wp_step; cbv beta iota).

(** ** The blocks of the handler, one by one *)

Section Blocks.
Context {R : PyRuntime}.
Variable o : oracle R.

(** *** Strings and files *)

Lemma str_eqb_eq (a b : pystr) : str_eqb a b = true <-> a = b.
Proof.
  revert b; induction a as [|x a IH]; intros [|y b]; cbn; split; intro H;
    try discriminate; try reflexivity.
  - apply andb_true_iff in H as [H1 H2]. apply N.eqb_eq in H1. apply IH in H2. congruence.
  - injection H as -> ->. rewrite N.eqb_refl. cbn. now apply IH.
Qed.

Lemma str_in_In (s : pystr) (l : list pystr) : str_in s l = true <-> In s l.
Proof.
  unfold str_in. rewrite existsb_exists. split.
  - intros (x & Hx & E). apply str_eqb_eq in E. now subst.
  - intro H. exists s. split; [assumption | now apply str_eqb_eq].
Qed.

Lemma str_eqb_refl p : str_eqb p p = true.
Proof. now apply str_eqb_eq. Qed.

(** What [validate_speaker_names] does guarantee: at most four names, none
    of them empty. *)
Lemma validate_speaker_names_bounds (v : pyval R) :
  length (validate_speaker_names v) <= 4 /\
  forall name, In name (validate_speaker_names v) -> name <> [].
Proof.
  unfold validate_speaker_names.
  set (l := match v with PList l => l | _ => default_speakers end).
  set (l' := if (length (firstn 4 l) <? 2)%nat then default_speakers else firstn 4 l).
  assert (Hl : length l' <= 4).
  { subst l'. destruct (length (firstn 4 l) <? 2)%nat; [cbn; lia|].
    rewrite length_firstn. lia. }
  split.
  - rewrite length_map. pose proof (filter_length_le
      (fun name => match strip (py_str name) with [] => false | _ => true end) l'). lia.
  - intros name Hin. apply in_map_iff in Hin as (x & <- & Hx).
    apply filter_In in Hx as [_ Hx]. now destruct (strip (py_str x)).
Qed.

(** A path that is listed can be looked up. *)
Lemma fs_lookup_In p f fs : In (p, f) fs -> exists g, fs_lookup p fs = Some g.
Proof.
  induction fs as [|[q g] fs IH]; cbn; [easy|].
  intros [E | H].
  - injection E as -> ->. exists f. now rewrite str_eqb_refl.
  - destruct (str_eqb p q); eauto.
Qed.

Lemma fs_glob_lookup dir pat fs p :
  In p (fs_glob dir pat fs) -> exists f, fs_lookup p fs = Some f.
Proof.
  unfold fs_glob. rewrite in_map_iff. intros ([q f] & <- & H).
  apply filter_In in H as [H _]. eapply fs_lookup_In; eauto.
Qed.

(** *** The latest of a list of files *)

Lemma wp_getmtime p w Q :
  (exists f, fs_lookup p (fs w) = Some f) ->
  Q (Ok (mtime_of (fs w) p)) w [] -> wp (os_path_getmtime p) w Q.
Proof.
  intros [f Hf] HQ. unfold os_path_getmtime. wp_steps.
  unfold mtime_of in HQ. rewrite Hf in *. wp_steps. exact HQ.
Qed.

(** The loop of [max]: [best] is the latest of the files seen so far. *)
Lemma max_mtime_from_spec w rest : forall best seen,
  (forall q, In q rest -> exists f, fs_lookup q (fs w) = Some f) ->
  In best seen ->
  (forall q, In q seen -> (mtime_of (fs w) q <= mtime_of (fs w) best)%Z) ->
  wp (max_mtime_from best (mtime_of (fs w) best) rest) w
     (fun v w' e => w' = w /\ e = [] /\
        exists p, v = Ok p /\ In p (seen ++ rest) /\
          forall q, In q (seen ++ rest) -> (mtime_of (fs w) q <= mtime_of (fs w) p)%Z).
Proof.
  induction rest as [|p rest IH]; intros best seen Hdom Hin Hmax; cbn [max_mtime_from].
  - wp_steps. rewrite app_nil_r. eauto 10.
  - wp_step. apply wp_getmtime; [apply Hdom; now left|].
    cbn [app].
    assert (Hdom' : forall q, In q rest -> exists f, fs_lookup q (fs w) = Some f)
      by (intros; apply Hdom; now right).
    destruct (Z.ltb_spec (mtime_of (fs w) best) (mtime_of (fs w) p)) as [Hlt | Hge].
    + eapply wp_use.
      * apply (IH p (seen ++ [p]) Hdom').
        -- apply in_or_app. right. now left.
        -- intros q Hq. apply in_app_or in Hq as [Hq | [<- | []]]; [|lia].
           specialize (Hmax q Hq). lia.
      * cbv beta. intros v w1 e1 (-> & -> & r & -> & H1 & H2).
        rewrite <- app_assoc in H1, H2. cbn [app] in H1, H2. eauto 10.
    + eapply wp_use.
      * apply (IH best (seen ++ [p]) Hdom').
        -- apply in_or_app. now left.
        -- intros q Hq. apply in_app_or in Hq as [Hq | [<- | []]]; [now apply Hmax | lia].
      * cbv beta. intros v w1 e1 (-> & -> & r & -> & H1 & H2).
        rewrite <- app_assoc in H1, H2. cbn [app] in H1, H2. eauto 10.
Qed.

Lemma max_by_mtime_spec w l :
  l <> [] ->
  (forall q, In q l -> exists f, fs_lookup q (fs w) = Some f) ->
  wp (max_by_mtime l) w
     (fun v w' e => w' = w /\ e = [] /\
        exists p, v = Ok p /\ In p l /\
          forall q, In q l -> (mtime_of (fs w) q <= mtime_of (fs w) p)%Z).
Proof.
  destruct l as [|p rest]; [easy|]. intros _ Hdom. unfold max_by_mtime.
  wp_step. apply wp_getmtime; [apply Hdom; now left|].
  cbn [app]. eapply wp_use.
  - apply (max_mtime_from_spec w rest p [p]).
    + intros; apply Hdom; now right.
    + now left.
    + intros q [<- | []]. lia.
  - cbv beta. intros v w1 e1 (-> & -> & r & -> & H1 & H2). cbn [app] in *. eauto 10.
Qed.

(** *** Salient events *)

Lemma salient_app a b : salient (a ++ b) = salient a ++ salient b.
Proof. apply filter_app. Qed.

Lemma salient_cons x l :
  salient (x :: l) = if is_salient x then x :: salient l else salient l.
Proof. reflexivity. Qed.

Lemma salient_nil : salient [] = [].
Proof. reflexivity. Qed.

Ltac sal :=
  cbn [app];
  repeat (rewrite salient_app || rewrite salient_cons || rewrite salient_nil);
  cbn [is_salient app].

(** What [os.unlink] has removed is gone. *)
Lemma fs_lookup_remove p fs : fs_lookup p (fs_remove p fs) = None.
Proof.
  induction fs as [|[q f] fs IH]; cbn; [reflexivity|].
  destruct (str_eqb p q) eqn:E; cbn; [assumption|]. now rewrite E.
Qed.

(** *** The search for the artifact and what becomes of it *)

(** The search returns the candidates of the specification, changes nothing
    and only lists audio files. *)
Lemma find_audio_files_spec fmt w :
  wp (find_audio_files fmt) w
     (fun v w' e => w' = w /\ v = Ok (located (fs w) fmt) /\
        forallb is_audio_glob e = true /\
        (located (fs w) fmt = [] -> forallb found_nothing e = true) /\
        (forall q, In q (located (fs w) fmt) -> In q (audio_found e))).
Proof.
  unfold find_audio_files, located, first_nonempty, path_glob. cbn [find try_other_formats].
  unfold path_glob.
  wp_steps.
  destruct (fs_glob vibevoice_root (PatAudio fmt) (fs w)) as [|a1 l1] eqn:E1; cbn [nonempty].
  2:{ wp_steps. cbn. rewrite app_nil_r. repeat split; auto; discriminate. }
  wp_steps.
  destruct (fs_glob vibevoice_root (PatAudio (lit "wav")) (fs w)) as [|a2 l2] eqn:E2; cbn [nonempty].
  2:{ wp_steps. cbn. rewrite app_nil_r. repeat split; auto; discriminate. }
  wp_steps.
  destruct (fs_glob vibevoice_root (PatAudio (lit "mp3")) (fs w)) as [|a3 l3] eqn:E3; cbn [nonempty].
  2:{ wp_steps. cbn. rewrite app_nil_r. repeat split; auto; discriminate. }
  wp_steps.
  destruct (fs_glob vibevoice_root (PatAudio (lit "flac")) (fs w)) as [|a4 l4] eqn:E4; cbn [nonempty].
  2:{ wp_steps. cbn. rewrite app_nil_r. repeat split; auto; discriminate. }
  wp_steps.
  destruct (fs_glob output_dir (PatAudio fmt) (fs w)) as [|a5 l5] eqn:E5; cbn [nonempty].
  - cbn. repeat split; auto.
  - cbn. rewrite app_nil_r. repeat split; auto; discriminate.
Qed.

Lemma audio_globs_salient e : forallb is_audio_glob e = true -> salient e = e.
Proof.
  induction e as [|x e IH]; cbn [forallb]; intro H; [reflexivity|].
  apply andb_true_iff in H as [H1 H2]. unfold salient. cbn [filter].
  destruct x; try discriminate. destruct pat; try discriminate.
  cbn [is_salient]. f_equal. now apply IH.
Qed.

Lemma found_nothing_audio_glob e :
  forallb found_nothing e = true -> forallb is_audio_glob e = true.
Proof.
  rewrite !forallb_forall. intros H x Hx. specialize (H x Hx).
  destruct x; try discriminate. destruct pat; try discriminate. reflexivity.
Qed.

Lemma located_lookup fs fmt q :
  In q (located fs fmt) -> exists f, fs_lookup q fs = Some f.
Proof.
  unfold located, first_nonempty. cbn [find].
  repeat match goal with
         | |- context [nonempty ?l] =>
             let E := fresh "E" in
             destruct l eqn:E; cbn [nonempty];
             [| rewrite <- E; apply fs_glob_lookup]
         end.
  intros [].
Qed.

Lemma wp_time_time w Q :
  Q (Ok (clock o (ticks w))) (tick w) [] -> wp (time_time o) w Q.
Proof. intro H. unfold time_time. wp_steps. exact H. Qed.

Lemma wp_unlink_quietly p w Q :
  (forall w', fs_lookup p (fs w') = None ->
              model_initialized w' = model_initialized w ->
              Q (Ok tt) w' [EvUnlink p]) ->
  wp (pass_on_error (os_unlink p)) w Q.
Proof.
  intro H. unfold pass_on_error, os_unlink. wp_steps.
  destruct (fs_lookup p (fs w)) eqn:E; wp_steps.
  - apply H; [apply fs_lookup_remove | reflexivity].
  - apply H; [assumption | reflexivity].
Qed.

Lemma wp_read_bytes p w Q :
  (exists f, fs_lookup p (fs w) = Some f) ->
  (forall data, Q (Ok data) w [EvRead p]) ->
  (forall e, exn_cls e = OSError -> Q (Raise e) w [EvRead p]) ->
  wp (read_bytes o p) w Q.
Proof.
  intros [f Hf] H Hfail. unfold read_bytes. wp_steps.
  destruct (unreadable o p); wp_steps.
  - now apply Hfail.
  - rewrite Hf. wp_steps. apply H.
Qed.

(** Lines 187-244 end in one of the three ways of [packaged]. *)
Lemma package_result_spec start gt text names fmt result w :
  wp (package_result o start gt text names fmt result) w
     (fun v w' e =>
        model_initialized w' = model_initialized w /\
        packaged fmt (stdout result) (stderr result) (returncode result) v (salient e)).
Proof.
  unfold package_result.
  destruct (Z.eqb_spec (returncode result) 0) as [Hrc | Hrc].
  2:{ wp_steps. split; [reflexivity|]. now constructor. }
  rewrite Hrc. wp_step.
  eapply wp_use; [apply find_audio_files_spec|]. cbv beta.
  intros v w1 e1 (-> & -> & Hg & Hn & Hin).
  destruct (located (fs w) fmt) as [|a l] eqn:L.
  - wp_steps. split; [reflexivity|].
    sal. rewrite app_nil_r, (audio_globs_salient _ Hg). constructor. now apply Hn.
  - wp_step. eapply wp_use.
    { apply max_by_mtime_spec; [discriminate|].
      intros q Hq. rewrite <- L in Hq. exact (located_lookup _ _ _ Hq). }
    cbv beta. intros v w1 e2 (-> & -> & p & -> & Hp & _).
    wp_step. apply wp_read_bytes.
    { rewrite <- L in Hp. exact (located_lookup _ _ _ Hp). }
    + intro data. wp_step. apply wp_unlink_quietly. intros w2 _ Hw2.
      wp_step. apply wp_time_time. wp_steps.
      split; [exact Hw2|].
      sal. rewrite (audio_globs_salient _ Hg).
      apply PackSuccess; [assumption | now apply Hin | ].
      repeat split; reflexivity.
    + intros x Hx. split; [reflexivity|].
      sal. rewrite (audio_globs_salient _ Hg).
      apply PackUnreadable; [assumption | now apply Hin | assumption].
Qed.

(** *** Running the script *)

Lemma subprocess_run_spec cmd timeout w :
  wp (subprocess_run o cmd timeout) w
     (fun v w' e =>
        model_initialized w' = model_initialized w /\
        model_path w' = model_path w /\
        match v with
        | Ok r => e = [EvSpawn cmd; EvExit (returncode r) (stdout r) (stderr r)]
        | Raise x =>
            (exn_cls x <> TimeoutExpired /\ e = []) \/
            (exists msg, x = mkExn TimeoutExpired msg /\ e = [EvSpawn cmd; EvKill])
        end).
Proof.
  unfold subprocess_run. wp_steps.
  destruct (child o cmd (fs w)); wp_steps; cbn; repeat split; auto.
  - right. eauto.
  - left. split; [discriminate | reflexivity].
Qed.

Lemma wp_os_path_exists p w Q :
  (forall b, Q (Ok b) w [EvExists p b]) -> wp (os_path_exists p) w Q.
Proof. intro H. unfold os_path_exists. wp_steps. apply H. Qed.

Lemma find_script_spec scripts w :
  wp (find_script scripts) w
     (fun v w' e => w' = w /\ salient e = [] /\ exists s, v = Ok s).
Proof.
  induction scripts as [|s rest IH]; cbn [find_script].
  - wp_steps. eauto.
  - wp_step. apply wp_os_path_exists. intros [|].
    + wp_steps. cbn. eauto.
    + eapply wp_use; [apply IH|]. cbv beta. intros v w1 e1 (-> & H & x). cbn. eauto.
Qed.

Lemma not_timeout_message_early1 : lit "Model initialization failed" <> timeout_message.
Proof. vm_compute. discriminate. Qed.

Lemma not_timeout_message_early2 :
  lit "No inference script found in VibeVoice directory" <> timeout_message.
Proof. vm_compute. discriminate. Qed.

Lemma run_generation_spec start text names fmt txt w :
  wp (run_generation o start text names fmt txt) w
     (fun v w' e =>
        model_initialized w' = model_initialized w /\
        script_run fmt v (salient e)).
Proof.
  unfold run_generation.
  wp_step. apply wp_os_path_exists. intro found.
  lazymatch goal with
  | |- wp (bind _ ?K) _ _ =>
      assert (HK : forall d w1,
                 wp (K d) w1
                    (fun v w' e => model_initialized w' = model_initialized w1 /\
                                   script_run fmt v (salient e)))
  end.
  { intros [demo|] w1; cbv beta.
    2:{ wp_steps. split; [reflexivity|]. constructor. apply not_timeout_message_early2. }
    wp_steps. destruct (model_path w1) as [mp|].
    2:{ wp_steps. split; [reflexivity|]. constructor. discriminate. }
    wp_step. apply wp_time_time. wp_step.
    eapply wp_use; [apply subprocess_run_spec|]. cbv beta.
    intros v w2 e1 (Hflag & _ & H). destruct v as [r|x].
    - subst e1. wp_step. apply wp_time_time.
      eapply wp_use; [apply package_result_spec|]. cbv beta.
      intros v w3 e2 (Hflag' & Hpack). split.
      + cbn [tick model_initialized] in *. congruence.
      + sal. apply (ScriptExited fmt _ _ _ _ _ _ Hpack).
    - cbn [tick model_initialized] in Hflag.
      destruct H as [[Hx ->] | (msg & -> & ->)].
      + split; [exact Hflag|]. now constructor.
      + split; [exact Hflag|]. constructor. }
  wp_step. destruct found.
  - wp_step. cbv beta iota. refine (wp_use _ _ _ _ (HK (Some default_script) w) _). cbv beta.
    intros v w1 e1 [H1 H2]. split; [exact H1|]. exact H2.
  - eapply wp_use; [apply find_script_spec|]. cbv beta.
    intros v w1 e1 (-> & Hs & d & ->).
    refine (wp_use _ _ _ _ (HK d w) _). cbv beta.
    intros v w1 e2 [H1 H2]. split; [exact H1|].
    sal. rewrite Hs. exact H2.
Qed.

(** *** initialize_model, the temporary file and the output directory *)

(** A call never raises, touches no file and returns the flag it leaves. *)
Lemma initialize_model_spec w :
  wp (initialize_model o) w
     (fun v w' e =>
        exists b, v = Ok b /\ salient e = [] /\ model_initialized w' = b /\
                  fs w' = fs w /\
                  (model_initialized w = true -> b = true)).
Proof.
  unfold initialize_model. wp_steps.
  destruct (model_initialized w) eqn:Hw.
  { wp_steps. exists true. auto. }
  wp_step. wp_step. apply wp_time_time. wp_step.
  unfold torch_cuda_is_available. wp_steps.
  destruct (cuda_is_available o) as [cuda|].
  2:{ wp_steps. exists false. cbn. repeat split; auto; discriminate. }
  wp_steps. apply wp_os_path_exists. intros [|]; cbn [negb].
  2:{ wp_steps. exists false. cbn. repeat split; auto; discriminate. }
  wp_step. apply wp_os_path_exists. intros [|]; cbn [negb].
  - wp_steps. apply wp_time_time. wp_steps. exists true. cbn. repeat split; auto.
  - unfold path_glob. wp_steps. apply wp_time_time. wp_steps.
    exists true. cbn. repeat split; auto.
Qed.

Lemma write_temp_text_spec text w :
  wp (write_temp_text o text) w
     (fun v w' e =>
        model_initialized w' = model_initialized w /\
        match v with
        | Ok p => salient e = [EvCreate p]
        | Raise x => exn_cls x <> TimeoutExpired /\
                     (salient e = [] \/ exists p, salient e = [EvCreate p])
        end).
Proof.
  unfold write_temp_text.
  destruct (temp_name o) as [stem|].
  2:{ wp_steps. split; [reflexivity|]. split; [discriminate|now left]. }
  cbv zeta. wp_steps.
  destruct (fs_lookup (stem ++ lit ".txt") (fs w)).
  { wp_steps. split; [reflexivity|]. split; [discriminate|now left]. }
  wp_steps. destruct (encode_text o text).
  - wp_steps. split; reflexivity.
  - wp_steps. split; [reflexivity|]. split; [discriminate|]. right. eexists. reflexivity.
Qed.

Lemma os_makedirs_spec p w :
  wp (os_makedirs p) w
     (fun v w' e => w' = w /\ salient e = [] /\
        match v with Ok _ => True | Raise x => exn_cls x <> TimeoutExpired end).
Proof.
  unfold os_makedirs. wp_steps. destruct (fs_lookup p (fs w)); wp_steps.
  - repeat split. discriminate.
  - repeat split.
Qed.

(** *** generate_audio

    None of the validators raises [TimeoutExpired]. *)

Lemma py_get_raises (v : pyval R) k d e :
  py_get v k d = Raise e -> exn_cls e <> TimeoutExpired.
Proof. destruct v; cbn; intro H; inversion H; discriminate. Qed.

Lemma validate_text_raises (v : pyval R) e :
  validate_text v = Raise e -> exn_cls e <> TimeoutExpired.
Proof.
  unfold validate_text.
  destruct (negb (truthy v) || negb (isinstance_str v)).
  { intro H. inversion H. discriminate. }
  destruct v; cbn; try (intro H; inversion H; discriminate);
    destruct (_ <? _)%N; intro H; inversion H; discriminate.
Qed.

Lemma validate_output_format_raises (v : pyval R) e :
  validate_output_format v = Raise e -> exn_cls e <> TimeoutExpired.
Proof.
  unfold validate_output_format. destruct (truthy v).
  - destruct v; cbn; try (intro H; inversion H; discriminate).
    destruct (negb _); discriminate.
  - destruct (negb _); discriminate.
Qed.

Lemma generate_audio_body_spec job w :
  wp (generate_audio_body o job) w
     (fun v w' e => ready_mono w w' /\ body_run job v w' (salient e)).
Proof.
  unfold generate_audio_body, ready_mono.
  wp_step. apply wp_time_time.
  wp_step. wp_step. destruct (py_get job "text" _) as [raw_text|x] eqn:E1.
  2:{ split; [auto|]. constructor; [now apply py_get_raises in E1 | now left]. }
  wp_step. wp_step. destruct (validate_text raw_text) as [text|x] eqn:E2.
  2:{ split; [auto|]. constructor; [now apply validate_text_raises in E2 | now left]. }
  wp_step. wp_step. destruct (py_get job "speaker_names" _) as [raw_names|x] eqn:E3.
  2:{ split; [auto|]. constructor; [now apply py_get_raises in E3 | now left]. }
  cbv zeta.
  wp_step. wp_step. destruct (py_get job "output_format" _) as [raw_format|x] eqn:E4.
  2:{ split; [auto|]. constructor; [now apply py_get_raises in E4 | now left]. }
  wp_step. wp_step. destruct (validate_output_format raw_format) as [fmt|x] eqn:E5.
  2:{ split; [auto|]. constructor; [now apply validate_output_format_raises in E5 | now left]. }
  assert (Hfmt : requested_format job = Ok fmt).
  { unfold requested_format. now rewrite E4. }
  wp_step. eapply wp_use; [apply initialize_model_spec|]. cbv beta.
  intros v w1 e1 (b & -> & Hs1 & Hb & _ & Hmono). cbn [tick model_initialized] in Hmono.
  destruct b; cbn [negb].
  2:{ wp_steps. split; [intro H; now apply Hmono in H|].
      sal. rewrite Hs1.
      apply BodyEarly; [apply not_timeout_message_early1 | now left]. }
  wp_step. eapply wp_use; [apply write_temp_text_spec|]. cbv beta.
  intros v w2 e2 (Hf2 & H2). destruct v as [p|x].
  2:{ destruct H2 as [Hx Hs2]. split; [intros _; congruence|].
      sal. rewrite Hs1. now constructor. }
  wp_step. eapply wp_use; [apply os_makedirs_spec|]. cbv beta.
  intros v w3 e3 (-> & Hs3 & H3). destruct v as [[]|x].
  2:{ split; [intros _; congruence|].
      sal. rewrite Hs1, H2, Hs3. cbn [app].
      constructor; [assumption|]. right. eauto. }
  wp_step. eapply wp_use; [apply run_generation_spec|]. cbv beta.
  intros v w4 e4 (Hf4 & H4).
  apply wp_unlink_quietly. intros w5 Hgone Hf5.
  split; [intros _; congruence|].
  sal. rewrite Hs1, H2, Hs3, app_nil_r. cbn [app].
  inversion H4 as [x Hx | msg Hmsg | cmd msg | cmd rc out err v' sal Hpack]; subst.
  - apply BodyRaise; [assumption|]. right. eauto.
  - apply BodyEarly; [assumption|]. right. eauto.
  - now apply BodyTimeout.
  - now apply (BodyExited job p cmd rc out err v sal fmt).
Qed.

Lemma invalid_input_not_timeout m : lit "Invalid input: " ++ m <> timeout_message.
Proof. vm_compute. discriminate. Qed.

Lemma generation_failed_not_timeout m : lit "Generation failed: " ++ m <> timeout_message.
Proof. vm_compute. discriminate. Qed.

(** Every call of [generate_audio] ends in one of the ways of [generation],
    and does not undo readiness. *)
Lemma generate_audio_spec job w :
  wp (generate_audio o job) w
     (fun v w' e => ready_mono w w' /\ generation job v w' (salient e)).
Proof.
  unfold generate_audio. wp_step.
  eapply wp_use; [apply generate_audio_body_spec|]. cbv beta.
  intros v w1 e1 [Hm Hb].
  remember (salient e1) as s1 eqn:Hs1.
  assert (Hleaf : forall d, ready_mono w w1 /\ generation job (Ok d) w1 s1 ->
                            wp (ret d) w1
                               (fun v2 w2 e2 => ready_mono w w2 /\
                                                generation job v2 w2 (salient (e1 ++ e2)))).
  { intros d H. wp_steps. now rewrite app_nil_r, <- Hs1. }
  unfold generate_audio_except.
  destruct Hb as [x w' sal Hx Hsal | p cmd msg w' Hgone | msg w' sal Hmsg Hsal
                 | p cmd rc out err v sal fmt w' Hfmt Hpack Hgone].
  - destruct (is_ValueError x) eqn:EV.
    + apply Hleaf. split; [assumption|].
      constructor; [apply invalid_input_not_timeout | assumption].
    + assert (is_TimeoutExpired x = false) as ->.
      { unfold is_TimeoutExpired. destruct (exn_cls x); congruence. }
      apply Hleaf. split; [assumption|].
      constructor; [apply generation_failed_not_timeout | assumption].
  - cbn [is_ValueError is_TimeoutExpired exn_cls]. apply Hleaf.
    split; [assumption|]. now constructor.
  - split; [assumption|]. now constructor.
  - assert (Hg : generation job (Ok (reported v)) w'
                   ([EvCreate p; EvSpawn cmd; EvExit rc out err] ++ sal))
      by now apply (GenExited job p cmd rc out err v sal fmt).
    destruct v as [d|x]; [split; assumption|].
    inversion Hpack as [| | | globs q x' Hg' Hq Hx]; subst.
    unfold is_ValueError, is_TimeoutExpired. rewrite Hx.
    apply Hleaf. split; assumption.
Qed.

(** *** Reading the run shapes *)

Lemma in_salient x e : In x e -> is_salient x = true -> In x (salient e).
Proof. intros. apply filter_In. auto. Qed.

Lemma salient_in x e : In x (salient e) -> In x e.
Proof. intro H. now apply filter_In in H. Qed.

Lemma spawns_salient e : spawns (salient e) = spawns e.
Proof.
  unfold spawns, salient. f_equal.
  induction e as [|x e IH]; [reflexivity|].
  destruct x as [| |dir pat found| | | | | | |]; try destruct pat;
    cbn; rewrite ?IH; reflexivity.
Qed.

Lemma audio_found_salient e : audio_found (salient e) = audio_found e.
Proof.
  unfold salient, audio_found. induction e as [|x e IH]; [reflexivity|].
  destruct x as [| |dir pat found| | | | | | |]; try destruct pat;
    cbn [filter is_salient flat_map]; rewrite ?IH; reflexivity.
Qed.

Lemma audio_found_app a b : audio_found (a ++ b) = audio_found a ++ audio_found b.
Proof. apply flat_map_app. Qed.

Lemma packaged_events fmt out err rc v sal x :
  packaged (R:=R) fmt out err rc v sal -> In x sal ->
  is_audio_glob x = true \/ exists q, x = EvRead q.
Proof.
  intros [rc' Hrc | globs Hg | globs q d Hg Hq Hd | globs q e Hg Hq He] Hx.
  - destruct Hx.
  - left. apply found_nothing_audio_glob in Hg.
    rewrite forallb_forall in Hg. now apply Hg.
  - apply in_app_or in Hx as [Hx | [<- | []]].
    + left. rewrite forallb_forall in Hg. now apply Hg.
    + right. eauto.
  - apply in_app_or in Hx as [Hx | [<- | []]].
    + left. rewrite forallb_forall in Hg. now apply Hg.
    + right. eauto.
Qed.

Lemma error_only_failure msg : is_failure (error_only msg).
Proof. exists msg. reflexivity. Qed.

(** What is reported after the child's exit is a failure or a success. *)
Lemma packaged_result fmt out err rc v sal :
  packaged fmt out err rc v sal ->
  (is_failure (reported v) /\ dict_lookup (key "success") (reported v) = None)
  \/ is_success (reported v) fmt.
Proof.
  intros [rc' Hrc | globs Hg | globs q d Hg Hq Hd | globs q e Hg Hq He].
  - left. split; [eexists|]; reflexivity.
  - left. split; [eexists|]; reflexivity.
  - now right.
  - left. split; [eexists|]; reflexivity.
Qed.

Lemma slice_to_length n s : length (slice_to n s) <= n.
Proof. unfold slice_to. rewrite length_firstn. lia. Qed.

(** *** handler *)

Lemma handler_spec job w :
  wp (handler o job) w
     (fun v w' e =>
        ready_mono w w' /\
        exists d, v = Ok d /\ (is_failure d \/ exists fmt, is_success d fmt)).
Proof.
  unfold handler. wp_step. wp_step. wp_step.
  destruct (py_get job "id" _) as [job_id|x].
  2:{ wp_steps. split; [easy|]. eexists. split; [reflexivity|]. left. apply error_only_failure. }
  wp_step. wp_step. destruct (py_get job "input" _) as [job_input|x].
  2:{ wp_steps. split; [easy|]. eexists. split; [reflexivity|]. left. apply error_only_failure. }
  destruct (truthy job_input); cbn [negb].
  2:{ wp_steps. split; [easy|]. eexists. split; [reflexivity|]. left. eexists. reflexivity. }
  wp_step. wp_step. destruct (py_contains "text" job_input) as [has_text|x].
  2:{ wp_steps. split; [easy|]. eexists. split; [reflexivity|]. left. apply error_only_failure. }
  destruct has_text; cbn [negb].
  2:{ wp_steps. split; [easy|]. eexists. split; [reflexivity|]. left. eexists. reflexivity. }
  eapply wp_use; [apply generate_audio_spec|]. cbv beta.
  intros v w1 e1 [Hm Hg]. destruct v as [d|x].
  - split; [assumption|]. exists d. split; [reflexivity|].
    inversion Hg as [msg ? ? ? ? | ? ? ? ? | ? ? ? ? ? v' ? fmt ? ? Hpack ?]; subst.
    + left. apply error_only_failure.
    + left. apply error_only_failure.
    + destruct (packaged_result _ _ _ _ _ _ Hpack) as [[Hf _] | Hs]; eauto.
  - inversion Hg.
Qed.

(** *** initialize_model on a worker that is not ready *)

Lemma wp_os_path_exists_at p w Q :
  Q (Ok (fs_exists p (fs w))) w [EvExists p (fs_exists p (fs w))] ->
  wp (os_path_exists p) w Q.
Proof. intro H. unfold os_path_exists. wp_steps. exact H. Qed.

Lemma audio_globs_no_read e p :
  forallb is_audio_glob e = true -> ~ In (EvRead p) e.
Proof.
  intros H Hin. rewrite forallb_forall in H. apply H in Hin. discriminate.
Qed.

(** A ready worker answers at once. *)
Lemma fast_path w :
  model_initialized w = true -> initialize_model o w = mkOutcome (Ok true) w [].
Proof.
  intro H. unfold initialize_model, bind, gets. rewrite H. reflexivity.
Qed.

(** A worker that is not ready attempts, and succeeds when the device
    answers and the model path exists. *)
Lemma initialize_model_attempt w :
  model_initialized w = false ->
  wp (initialize_model o) w
     (fun v w' e =>
        attempts e = 1 /\
        (cuda_is_available o <> None -> fs_exists (env_model_path o) (fs w) = true ->
         v = Ok true /\ model_initialized w' = true)).
Proof.
  intro Hw. unfold initialize_model. wp_steps. rewrite Hw.
  wp_step. wp_step. apply wp_time_time. wp_step.
  unfold torch_cuda_is_available. wp_steps.
  destruct (cuda_is_available o) as [cuda|].
  2:{ wp_steps. split; [reflexivity|]. intros H. now contradiction H. }
  wp_steps. apply wp_os_path_exists_at.
  cbn [fs set_model_path set_device tick].
  destruct (fs_exists (env_model_path o) (fs w)); cbn [negb].
  2:{ wp_steps. split; [reflexivity|]. intros _ H. discriminate. }
  wp_step. apply wp_os_path_exists. intros [|]; cbn [negb].
  - wp_steps. apply wp_time_time. wp_steps. split; [reflexivity|]. intros _ _. split; reflexivity.
  - unfold path_glob. wp_steps. apply wp_time_time. wp_steps.
    split; [reflexivity|]. intros _ _. split; reflexivity.
Qed.

(** *** Overlapping and successive calls *)

Lemma attempts_app a b : attempts (a ++ b) = attempts a + attempts b.
Proof. unfold attempts. now rewrite filter_app, length_app. Qed.

(** A piece of a call queries the device at most once, and only when the
    call had not done so before. *)
Lemma thread_step_spec p w :
  wp (thread_step o p) w
     (fun v _ e =>
        exists p', v = Ok p' /\ attempts e + pending_bit p' <= pending_bit p).
Proof.
  destruct p; cbn [thread_step].
  - wp_steps. destruct (model_initialized w); eexists; split; try reflexivity; cbn; lia.
  - wp_step. wp_step. apply wp_time_time. wp_step.
    unfold torch_cuda_is_available. wp_steps.
    destruct (cuda_is_available o); wp_steps; eexists; split; try reflexivity; cbn; lia.
  - wp_steps. eexists; split; try reflexivity; cbn; lia.
  - wp_steps. destruct (model_path w); wp_steps.
    + apply wp_os_path_exists. intros [|]; wp_steps;
        eexists; split; try reflexivity; cbn; lia.
    + eexists; split; try reflexivity; cbn; lia.
  - wp_steps. destruct (model_path w); wp_steps.
    + apply wp_os_path_exists. intros [|]; cbn [negb]; unfold path_glob; wp_steps;
        eexists; split; try reflexivity; cbn; lia.
    + eexists; split; try reflexivity; cbn; lia.
  - wp_steps. apply wp_time_time. wp_steps. eexists; split; try reflexivity; cbn; lia.
  - wp_steps. eexists; split; try reflexivity; cbn; lia.
Qed.

Lemma pending_cons p pool : pending (p :: pool) = pending_bit p + pending pool.
Proof. unfold pending, pending_bit. cbn. now destruct (is_pending p). Qed.

Lemma pending_set_nth pool : forall i p p',
  nth_error pool i = Some p ->
  pending (set_nth i p' pool) + pending_bit p = pending pool + pending_bit p'.
Proof.
  induction pool as [|q pool IH]; intros [|i] p p' H; try discriminate.
  - injection H as ->. cbn [set_nth]. rewrite !pending_cons. lia.
  - cbn [set_nth]. rewrite !pending_cons. cbn in H. specialize (IH i p p' H). lia.
Qed.

Lemma pool_step_spec i pool w :
  wp (pool_step o i pool) w
     (fun v _ e =>
        exists pool', v = Ok pool' /\ attempts e + pending pool' <= pending pool).
Proof.
  unfold pool_step. destruct (nth_error pool i) as [p|] eqn:E.
  - wp_step. eapply wp_use; [apply thread_step_spec|]. cbv beta.
    intros v w1 e1 (p' & -> & H). wp_steps.
    exists (set_nth i p' pool). split; [reflexivity|].
    rewrite app_nil_r. pose proof (pending_set_nth pool i p p' E). lia.
  - wp_steps. exists pool. split; [reflexivity|]. cbn. lia.
Qed.

(** Along any schedule, the attempts made and the calls still to attempt
    never exceed the calls that were to attempt at the start. *)
Lemma run_schedule_spec schedule : forall pool w,
  wp (run_schedule o schedule pool) w
     (fun v _ e =>
        exists pool', v = Ok pool' /\ attempts e + pending pool' <= pending pool).
Proof.
  induction schedule as [|i rest IH]; intros pool w; cbn [run_schedule].
  - wp_steps. exists pool. split; [reflexivity|]. cbn. lia.
  - wp_step. eapply wp_use; [apply pool_step_spec|]. cbv beta.
    intros v w1 e1 (pool1 & -> & H1).
    eapply wp_use; [apply IH|]. cbv beta.
    intros v w2 e2 (pool2 & -> & H2).
    exists pool2. split; [reflexivity|]. rewrite attempts_app. lia.
Qed.

Lemma pending_fresh n : pending (repeat AtCheck n) = n.
Proof. induction n; [reflexivity|]. cbn [repeat]. rewrite pending_cons, IHn. reflexivity. Qed.

(** On a ready worker, successive calls do nothing. *)
Lemma call_n_ready n : forall w,
  model_initialized w = true ->
  call_n o n w = mkOutcome (Ok (repeat true n)) w [].
Proof.
  induction n as [|n IH]; intros w Hw; [reflexivity|].
  cbn [call_n]. unfold bind at 1. rewrite (fast_path w Hw).
  unfold prepend, bind. rewrite (IH w Hw). reflexivity.
Qed.

(** One call run without interruption does what [initialize_model] does. *)
Lemma uninterrupted_call_is_initialize_model w :
  let r := run_schedule o (repeat 0 6) [AtCheck] w in
  let r' := initialize_model o w in
  final r = final r' /\ events r = events r' /\
  exists b, value r' = Ok b /\ value r = Ok [Returned b].
Proof.
  cbv zeta. destruct w as [ready mp dev files t].
  unfold initialize_model, run_schedule, pool_step, thread_step, repeat, nth_error, set_nth.
  destruct ready; [cbn; eauto|].
  unfold try_except, bind, torch_cuda_is_available, os_path_exists, path_glob,
    time_time, gets, modify, emit, ret, raise, prepend, bind.
  cbn [value final events model_initialized model_path fs ticks
       set_model_path set_device set_model_initialized tick app].
  destruct (cuda_is_available o) as [cuda|]; cbn; [|eauto].
  destruct (fs_exists (env_model_path o) files); cbn; [|eauto].
  match goal with
  | |- context [negb (fs_exists ?p files)] => destruct (fs_exists p files)
  end; cbn; eauto.
Qed.

End Blocks.

(** Case analysis on how a call of [generate_audio] ended. *)
Ltac run_cases o job w :=
  let H := fresh "H" in
  destruct (generate_audio_spec o job w) as [_ H];
  remember (value (generate_audio o job w)) as v eqn:Hv;
  remember (final (generate_audio o job w)) as wf eqn:Hw;
  remember (salient (events (generate_audio o job w))) as sal eqn:Hs;
  destruct H as [msg w' sal Hmsg Hsal
                | p cmd w' Hgone
                | p cmd rc0 out0 err0 v0 sal fmt w' Hfmt Hpack Hgone].

(** ** The claims *)

(** ** Overlapping calls agree *)

Section Agreeing.
Context {R : PyRuntime}.
Variable o : oracle R.

Lemma Forall_set_nth {A} (P : A -> Prop) (x : A) l : forall i,
  Forall P l -> P x -> Forall P (set_nth i x l).
Proof.
  induction l as [|y l IH]; intros [|i] Hl Hx; cbn [set_nth]; try assumption.
  - inversion Hl; subst. now constructor.
  - inversion Hl; subst. constructor; [assumption | now apply IH].
Qed.

Lemma not_ready_flag w0 w :
  in_step o w0 w -> will_be_ready o w0 = false -> model_initialized w = false.
Proof.
  intros (_ & H & _) Hf. destruct (model_initialized w); [|reflexivity].
  rewrite (H eq_refl) in Hf. discriminate Hf.
Qed.

(** A step of a call keeps the worlds in step, keeps what holds of the
    other calls, and leaves the call that moved as [agreed] wants it. *)
Lemma thread_step_agreed w0 p w :
  in_step o w0 w ->
  agreed o w0 w p ->
  wp (thread_step o p) w
     (fun v w' _ =>
        in_step o w0 w' /\
        (forall q, agreed o w0 w q -> agreed o w0 w' q) /\
        exists p', v = Ok p' /\ agreed o w0 w' p').
Proof.
  intros Hstep Hp. pose proof Hstep as (Hfs & Hup & Hkeep).
  destruct p; cbn [thread_step agreed] in *.
  - (* line 76 *)
    wp_steps. split; [exact Hstep|]. split; [auto|].
    destruct (model_initialized w) eqn:E; eexists; (split; [reflexivity|]); cbn [agreed].
    + split; [symmetry; now apply Hup | exact E].
    + destruct (model_initialized w0) eqn:E0; [|reflexivity].
      discriminate (Hkeep eq_refl).
  - (* lines 80-85 *)
    wp_step. wp_step. apply wp_time_time. wp_step.
    unfold torch_cuda_is_available. wp_steps.
    destruct (cuda_is_available o) as [cuda|] eqn:Ec.
    + wp_steps. split; [exact Hstep|]. split.
      * intros [] Hq; exact Hq.
      * eexists. split; [reflexivity|]. cbn [agreed]. split; [exact Hp|].
        rewrite Ec. discriminate.
    + wp_steps.
      assert (Hno : will_be_ready o w0 = false).
      { unfold will_be_ready. now rewrite Hp, Ec. }
      split; [exact Hstep|]. split.
      * intros [] Hq; exact Hq.
      * eexists. split; [reflexivity|]. cbn [agreed tick model_initialized].
        split; [now rewrite Hno | exact (not_ready_flag w0 w Hstep Hno)].
  - (* line 88 *)
    destruct Hp as [Hw0 Hc].
    wp_steps. split; [exact Hstep|]. split.
    + intros [] Hq; cbn [agreed set_model_path model_path model_initialized] in *;
        try exact Hq; try tauto.
    + eexists. split; [reflexivity|]. cbn [agreed set_model_path model_path]. auto.
  - (* lines 90-92 *)
    destruct Hp as (Hw0 & Hc & Hmp).
    wp_steps. rewrite Hmp. cbv beta iota. wp_step. apply wp_os_path_exists_at.
    destruct (fs_exists (env_model_path o) (fs w)) eqn:Ex; wp_steps.
    + split; [exact Hstep|]. split; [auto|].
      eexists. split; [reflexivity|]. cbn [agreed]. split; [exact Hmp|].
      unfold will_be_ready. rewrite Hw0, <- Hfs, Ex.
      destruct (cuda_is_available o); [reflexivity | now contradiction Hc].
    + assert (Hno : will_be_ready o w0 = false).
      { unfold will_be_ready. rewrite Hw0, <- Hfs, Ex. apply andb_false_r. }
      split; [exact Hstep|]. split; [auto|].
      eexists. split; [reflexivity|]. cbn [agreed].
      split; [now rewrite Hno | exact (not_ready_flag w0 w Hstep Hno)].
  - (* lines 95-103 *)
    destruct Hp as (Hmp & Hyes).
    wp_steps. rewrite Hmp. cbv beta iota. wp_step. apply wp_os_path_exists_at.
    destruct (fs_exists (os_path_join _ _) (fs w)); cbv beta iota; cbn [negb];
      unfold path_glob; wp_steps;
      (split; [exact Hstep|]); (split; [auto|]);
      eexists; (split; [reflexivity|]); cbn [agreed]; auto.
  - (* lines 106-110 *)
    destruct Hp as (Hmp & Hyes).
    wp_steps. apply wp_time_time. wp_steps. split; [|split].
    + repeat split; cbn [tick set_model_initialized fs model_initialized]; auto.
    + intros [] Hq; cbn [agreed tick set_model_initialized model_path model_initialized] in *;
        try exact Hq.
      destruct Hq as [-> _]. now rewrite Hyes.
    + eexists. split; [reflexivity|].
      cbn [agreed tick set_model_initialized model_initialized]. now rewrite Hyes.
  - wp_steps. split; [exact Hstep|]. split; [auto|].
    eexists. split; [reflexivity|]. exact Hp.
Qed.

Lemma run_schedule_agreed w0 schedule : forall pool w,
  in_step o w0 w ->
  Forall (agreed o w0 w) pool ->
  wp (run_schedule o schedule pool) w
     (fun v w' _ =>
        in_step o w0 w' /\ exists pool', v = Ok pool' /\ Forall (agreed o w0 w') pool').
Proof.
  induction schedule as [|i rest IH]; intros pool w Hstep Hpool; cbn [run_schedule].
  - wp_steps. eauto.
  - wp_step. unfold pool_step.
    destruct (nth_error pool i) as [p|] eqn:E.
    + wp_step. eapply wp_use.
      { apply (thread_step_agreed w0 p w Hstep).
        rewrite Forall_forall in Hpool. apply Hpool. eapply nth_error_In, E. }
      cbv beta. intros v w1 e1 (Hstep1 & Hkeep & p' & -> & Hp').
      wp_steps. eapply wp_use.
      { apply (IH (set_nth i p' pool) w1 Hstep1).
        apply Forall_set_nth; [|exact Hp'].
        eapply Forall_impl; [|exact Hpool]. exact Hkeep. }
      cbv beta. intros v w2 e2 H. exact H.
    + wp_steps. eapply wp_use; [apply (IH pool w Hstep Hpool)|].
      cbv beta. intros v w2 e2 H. exact H.
Qed.

(** Calls that overlap, whatever the schedule and the environment: every
    call that has returned has returned what one call alone returns, and
    that is the state of the flag. *)
Lemma overlapping_calls_agree schedule n w :
  let r := run_schedule o schedule (repeat AtCheck n) w in
  exists pool,
    value r = Ok pool /\
    forall b, In (Returned b) pool ->
      b = will_be_ready o w /\ model_initialized (final r) = b.
Proof.
  cbv zeta.
  assert (H0 : in_step o w w).
  { split; [reflexivity|]. split; [|auto].
    intro H. unfold will_be_ready. now rewrite H. }
  assert (H1 : Forall (agreed o w w) (repeat AtCheck n)).
  { apply Forall_forall. intros p Hp. apply repeat_spec in Hp. subst p. exact I. }
  destruct (run_schedule_agreed w schedule (repeat AtCheck n) w H0 H1)
    as (_ & pool & Hv & Hall).
  exists pool. split; [exact Hv|].
  intros b Hb. rewrite Forall_forall in Hall. exact (Hall _ Hb).
Qed.

End Agreeing.

Section Claims.
Context {R : PyRuntime}.
Variable o : oracle R.

(** C1 (as amended).  [validate_text] checks the text as it was sent, before
    trimming it: a value that is not a string, and the empty string, are
    rejected as empty; a string of more than 10,000 characters is rejected
    as too long, whatever it trims to; a string of 1 to 10,000 characters
    whose trimmed form is not empty is accepted, and the trimmed string is
    returned. *)
Theorem validate_text_checks_raw_length (v : pyval R) :
  (isinstance_str v = false \/ v = PStr [] -> validate_text v = Raise err_text_empty) /\
  (forall s, v = PStr s -> (10000 < N.of_nat (length s))%N ->
     validate_text v = Raise err_text_too_long) /\
  (forall s, v = PStr s -> (1 <= N.of_nat (length s) <= 10000)%N -> strip s <> [] ->
     validate_text v = Ok (strip s)).
Proof.
  unfold validate_text. repeat split.
  - intros [H | ->]; [|reflexivity].
    rewrite H. cbn. now rewrite orb_true_r.
  - intros s -> H. destruct s as [|c s]; [cbn in H; lia|].
    cbn [truthy isinstance_str negb orb py_len].
    apply N.ltb_lt in H. now rewrite H.
  - intros s -> [H1 H2] _. destruct s as [|c s]; [cbn in H1; lia|].
    cbn [truthy isinstance_str negb orb py_len py_strip].
    apply N.ltb_ge in H2. now rewrite H2.
Qed.

(** C2 (the code at the failing inputs).  The check for fewer than two
    speakers is made before the empty names are dropped: ["Alice", "  "]
    comes back as ["Alice"] alone, and a blank name with an empty one as
    no speaker at all, not as ["Alice", "Bob"]. *)
Theorem speaker_names_can_drop_below_two :
  validate_speaker_names (R:=R) (PList [PStr (lit "Alice"); PStr (lit "  ")]) = [lit "Alice"]
  /\ validate_speaker_names (R:=R) (PList [PStr (lit " "); PStr empty_str]) = [].
Proof. split; reflexivity. Qed.

(** C3 (as amended).  For a value that is false in a condition (absent,
    null, empty, zero) and for every string, [validate_output_format]
    returns one of wav, mp3 and flac without raising: the lower-cased input
    when that is one of the three, that is, for plain ASCII text, when the
    input matches one of them whatever its case, and wav otherwise.  For any
    other value (a number other than zero, a non-empty list, ...) it raises
    [AttributeError]. *)
Theorem output_format_defaults_on_strings_and_falsy (v : pyval R) :
  (truthy v = false \/ isinstance_str v = true ->
   exists f, validate_output_format v = Ok f /\ In f allowed_formats /\
     (truthy v = false -> f = lit "wav") /\
     (forall s, v = PStr s -> In (str_lower s) allowed_formats -> f = str_lower s) /\
     (forall s, v = PStr s -> ~ In (str_lower s) allowed_formats -> f = lit "wav") /\
     (forall s t, v = PStr s -> is_ascii s = true -> In t allowed_formats ->
                  map ascii_lower_char s = t -> f = t)) /\
  (truthy v = true -> isinstance_str v = false ->
   validate_output_format v = Raise (no_attribute v "lower")).
Proof.
  split.
  2:{ intros Ht Hs. unfold validate_output_format. rewrite Ht.
      destruct v; try discriminate; reflexivity. }
  intro H. unfold validate_output_format.
  destruct (truthy v) eqn:Ht.
  - destruct H as [H | H]; [discriminate|].
    destruct v as [| | | |s0| |]; try discriminate. cbn [py_lower].
    destruct (str_in (str_lower s0) allowed_formats) eqn:Hin; cbn [negb].
    + apply str_in_In in Hin. exists (str_lower s0).
      split; [reflexivity|]. split; [assumption|]. split; [discriminate|].
      split; [|split].
      * intros s E _. now injection E as <-.
      * intros s E Hn. injection E as <-. now apply Hn in Hin.
      * intros s t E Ha _ <-. injection E as <-. unfold str_lower. now rewrite Ha.
    + assert (Hn : ~ In (str_lower s0) allowed_formats).
      { intro Hi. apply str_in_In in Hi. congruence. }
      exists (lit "wav").
      split; [reflexivity|]. split; [now left|]. split; [reflexivity|].
      split; [|split].
      * intros s E Hi. injection E as <-. now apply Hn in Hi.
      * reflexivity.
      * intros s t E Ha Hi Hm. injection E as <-. exfalso. apply Hn.
        unfold str_lower. now rewrite Ha, Hm.
  - exists (lit "wav").
    split; [reflexivity|]. split; [now left|]. split; [reflexivity|].
    split; [|split].
    + intros s E Hi. subst v. destruct s; [|discriminate].
      cbn in Hi. destruct Hi as [E | [E | [E | []]]]; discriminate.
    + reflexivity.
    + intros s t E _ Hi Hm. subst v. destruct s; [|discriminate].
      cbn in Hm. subst t. cbn in Hi. destruct Hi as [E | [E | [E | []]]]; discriminate.
Qed.

(** C4.  The child is killed at the deadline exactly in the runs that
    return the timeout failure, which no other run returns; in such a run
    the child was started once, and every temporary file the run created is
    gone from the file system when it ends. *)
Theorem timeout_is_reported_once_and_cleaned_up (job : pyval R) (w : world) :
  let r := generate_audio o job w in
  (In EvKill (events r) <-> value r = Ok (error_only timeout_message)) /\
  (In EvKill (events r) ->
     spawns (events r) = 1 /\
     forall p, In (EvCreate p) (events r) -> fs_lookup p (fs (final r)) = None).
Proof.
  cbv zeta. rewrite <- spawns_salient.
  assert (Hk : In EvKill (events (generate_audio o job w)) <->
               In EvKill (salient (events (generate_audio o job w)))).
  { split; [intro; now apply in_salient | apply salient_in]. }
  assert (Hc : forall p, In (EvCreate p) (events (generate_audio o job w)) ->
                         In (EvCreate p) (salient (events (generate_audio o job w)))).
  { intros; now apply in_salient. }
  rewrite Hk. clear Hk.
  run_cases o job w.
  - assert (Hno : ~ In EvKill sal).
    { destruct Hsal as [-> | [p ->]]; [easy|]. intros [E | []]. discriminate. }
    split; [split|]; [intro Hin; now apply Hno in Hin | | intro Hin; now apply Hno in Hin].
    intro E. injection E as E. now apply Hmsg in E.
  - split; [split; [reflexivity | cbn; auto]|].
    intros _. split; [reflexivity|].
    intros p' Hp'. apply Hc in Hp'.
    destruct Hp' as [E | [E | [E | []]]]; try discriminate. now injection E as <-.
  - assert (Hno : ~ In EvKill ([EvCreate p; EvSpawn cmd; EvExit rc0 out0 err0] ++ sal)).
    { intros [E | [E | [E | Hin]]]; try discriminate.
      destruct (packaged_events _ _ _ _ _ _ _ Hpack Hin) as [Hg | [q Hq]]; discriminate. }
    split; [split|]; [intro Hin; now apply Hno in Hin | | intro Hin; now apply Hno in Hin].
    intro E. injection E as E. exfalso.
    destruct Hpack as [rc' Hrc | globs Hg | globs q d Hg Hq (Hd & _) | globs q e Hg Hq He];
      cbn [reported] in E.
    + unfold failure_nonzero, error_only in E. discriminate E.
    + unfold failure_no_audio, error_only in E. discriminate E.
    + subst d. discriminate Hd.
    + pose proof (generation_failed_not_timeout (exn_msg e)).
      unfold error_only in E. congruence.
Qed.

(** C5.  Once the model is initialized, [initialize_model] returns [True]
    at once: the world is left as it was and nothing is queried.  A call
    never raises and returns the state of the flag it leaves, so a failed
    call leaves the worker not ready.  No job makes a ready worker not
    ready.  After a failed call, a call made when the device can be queried
    and the model path exists makes a new attempt and succeeds. *)
Theorem readiness_is_reached_once_and_failure_is_retried :
  (forall w, model_initialized w = true ->
             initialize_model o w = mkOutcome (Ok true) w []) /\
  (forall w, exists b,
      value (initialize_model o w) = Ok b /\
      model_initialized (final (initialize_model o w)) = b) /\
  (forall job w, model_initialized w = true ->
                 model_initialized (final (handler o job w)) = true) /\
  (forall (o2 : oracle R) w w2,
      value (initialize_model o w) = Ok false ->
      model_initialized w2 = model_initialized (final (initialize_model o w)) ->
      cuda_is_available o2 <> None ->
      fs_exists (env_model_path o2) (fs w2) = true ->
      attempts (events (initialize_model o2 w2)) = 1 /\
      value (initialize_model o2 w2) = Ok true /\
      model_initialized (final (initialize_model o2 w2)) = true).
Proof.
  split; [exact (fast_path o)|]. split; [|split].
  - intro w. destruct (initialize_model_spec o w) as (b & Hv & _ & Hb & _). eauto.
  - intros job w Hw. exact (proj1 (handler_spec o job w) Hw).
  - intros o2 w w2 Hfail Hw2 Hcuda Hpath.
    destruct (initialize_model_spec o w) as (b & Hv & _ & Hb & _).
    assert (Hf : b = false) by congruence.
    rewrite Hf in Hb. rewrite Hb in Hw2.
    destruct (initialize_model_attempt o2 w2 Hw2) as [Ha Hok].
    destruct (Hok Hcuda Hpath). auto.
Qed.

(** C6.  After an exit with status zero the candidates are the first
    non-empty of: the files of the requested format below the working tree,
    those of format wav, of format mp3, of format flac below it, and those
    of the requested format below the output directory.  When there is none,
    nothing is read; otherwise exactly one file is read, it is a candidate,
    and no candidate has a later modification time. *)
Theorem artifact_search_order_and_latest (start gt : pyfloat) (text : pystr)
    (names : list pystr) (fmt : pystr) (result : completed) (w : world) :
  returncode result = 0%Z ->
  let r := package_result o start gt text names fmt result w in
  let candidates := located (fs w) fmt in
  value (find_audio_files fmt w) = Ok candidates /\
  match candidates with
  | [] => forall p, ~ In (EvRead p) (events r)
  | _ :: _ =>
      exists p, In p candidates /\
                (forall q, In q candidates -> (mtime_of (fs w) q <= mtime_of (fs w) p)%Z) /\
                (forall p', In (EvRead p') (events r) <-> p' = p)
  end.
Proof.
  intros Hrc. cbv zeta.
  split; [exact (proj1 (proj2 (find_audio_files_spec fmt w)))|].
  change (wp (package_result o start gt text names fmt result) w
            (fun _ _ e =>
               match located (fs w) fmt with
               | [] => forall p, ~ In (EvRead p) e
               | _ :: _ =>
                   exists p, In p (located (fs w) fmt) /\
                     (forall q, In q (located (fs w) fmt) ->
                                (mtime_of (fs w) q <= mtime_of (fs w) p)%Z) /\
                     (forall p', In (EvRead p') e <-> p' = p)
               end)).
  unfold package_result. rewrite Hrc. cbn [Z.eqb]. wp_step.
  eapply wp_use; [apply find_audio_files_spec|]. cbv beta.
  intros v w1 e1 (-> & -> & Hg & _ & _).
  destruct (located (fs w) fmt) as [|a l] eqn:L.
  - wp_steps. intros p Hp. rewrite app_nil_r in Hp.
    now apply (audio_globs_no_read _ _ Hg) in Hp.
  - wp_step. eapply wp_use.
    { apply max_by_mtime_spec; [discriminate|].
      intros q Hq. rewrite <- L in Hq. exact (located_lookup _ _ _ Hq). }
    cbv beta. intros v w1 e2 (-> & -> & p & -> & Hp & Hmax).
    wp_step. apply wp_read_bytes.
    { rewrite <- L in Hp. exact (located_lookup _ _ _ Hp). }
    + intro data. wp_step. apply wp_unlink_quietly. intros w2 _ _.
      wp_step. apply wp_time_time. wp_steps.
      exists p. split; [assumption|]. split; [assumption|].
      intro p'. cbn [app]. rewrite in_app_iff. cbn [In]. split.
      * intros [Hin | [E | [E | []]]]; try discriminate.
        -- now apply (audio_globs_no_read _ _ Hg) in Hin.
        -- now injection E.
      * intros ->. right. now left.
    + intros x _.
      exists p. split; [assumption|]. split; [assumption|].
      intro p'. cbn [app]. rewrite in_app_iff. cbn [In]. split.
      * intros [Hin | [E | []]]; try discriminate.
        -- now apply (audio_globs_no_read _ _ Hg) in Hin.
        -- now injection E.
      * intros ->. right. now left.
Qed.

(** C7 (as amended).  When the child has exited with a status other than
    zero, the failure is the message "Generation failed: " followed by the
    first 500 characters of its standard error, with the first 500
    characters of its standard output; when it has exited with zero and no
    search found a file, the failure carries the first 500 characters of
    both.  An excerpt is never longer than 500 characters, and the excerpt
    of the standard error is empty exactly when the child wrote nothing
    there. *)
Theorem failures_carry_capped_excerpts (job : pyval R) (w : world)
    (rc : Z) (out err : pystr) :
  let r := generate_audio o job w in
  In (EvExit rc out err) (events r) ->
  (rc <> 0%Z -> value r = Ok (failure_nonzero out err)) /\
  (rc = 0%Z -> audio_found (events r) = [] -> value r = Ok (failure_no_audio out err)) /\
  length (slice_to 500 out) <= 500 /\ length (slice_to 500 err) <= 500 /\
  (slice_to 500 err = [] <-> err = []).
Proof.
  cbv zeta. intro Hin.
  split; [|split; [|split; [apply slice_to_length|split; [apply slice_to_length|]]]].
  3:{ unfold slice_to. destruct err; cbn; split; intro; try reflexivity; discriminate. }
  all: apply in_salient in Hin; [|reflexivity];
    try rewrite <- audio_found_salient;
    run_cases o job w.
  all: try (destruct Hsal as [-> | [p ->]]; [destruct Hin | destruct Hin as [E | []]; discriminate]).
  all: try (destruct Hin as [E | [E | [E | []]]]; discriminate).
  all: destruct Hin as [E | [E | [E | Hin]]]; try discriminate;
    [ injection E as -> -> ->
    | destruct (packaged_events _ _ _ _ _ _ _ Hpack Hin) as [Hg | [q Hq]]; discriminate ].
  - intro Hrc. inversion Hpack; subst; [reflexivity | easy | easy | easy].
  - intros -> Hnone.
    inversion Hpack as [| | globs q d' Hg Hq Hd | globs q e Hg Hq He]; subst;
      [easy | reflexivity | exfalso | exfalso].
    all: cbn [app audio_found flat_map] in Hnone;
      fold (audio_found (globs ++ [EvRead q])) in Hnone;
      rewrite audio_found_app in Hnone; apply app_eq_nil in Hnone as [Hnone _];
      rewrite Hnone in Hq; destruct Hq.
Qed.

(** C8.  For every job, every world and every behaviour of the
    environment, [handler] returns a dictionary and raises nothing: the
    dictionary is a failure with an [error] message or a success. *)
Theorem handler_always_returns_a_result (job : pyval R) (w : world) :
  exists d, value (handler o job w) = Ok d /\
            (is_failure d \/ exists fmt, is_success d fmt).
Proof. exact (proj2 (handler_spec o job w)). Qed.

(** C9 (as amended).  [initialize_model] takes no lock.  Calls made one
    after the other, from a worker that is not ready and in an environment
    in which initialization succeeds, perform one attempt in all, and every
    call returns [True].  Calls that overlap, whatever the interleaving of
    their steps and whatever the environment, perform at most one attempt
    each, and all observe the same state: every call that has returned has
    returned the value one call alone returns, and that is the state in
    which the flag is left. *)
Theorem successive_calls_initialize_once (n : nat) (w : world) :
  model_initialized w = false ->
  (cuda_is_available o <> None ->
   fs_exists (env_model_path o) (fs w) = true ->
   let r := call_n o (S n) w in
   value r = Ok (repeat true (S n)) /\
   attempts (events r) = 1 /\
   model_initialized (final r) = true) /\
  (forall schedule,
     let r := run_schedule o schedule (repeat AtCheck (S n)) w in
     attempts (events r) <= S n /\
     exists pool,
       value r = Ok pool /\
       forall b, In (Returned b) pool ->
         b = will_be_ready o w /\ model_initialized (final r) = b).
Proof.
  intros Hw. split.
  - intros Hcuda Hpath. cbv zeta. cbn [call_n].
    change (wp (b <- initialize_model o ;; bs <- call_n o n ;; ret (b :: bs)) w
              (fun v w' e => v = Ok (repeat true (S n)) /\ attempts e = 1 /\
                             model_initialized w' = true)).
    wp_step. eapply wp_use; [apply (initialize_model_attempt o w Hw)|]. cbv beta.
    intros v w1 e1 [Ha Hok]. destruct (Hok Hcuda Hpath) as [-> Hw1].
    wp_step. unfold wp at 1. rewrite (call_n_ready o n w1 Hw1).
    cbn [value final events]. wp_steps.
    rewrite !app_nil_r. auto.
  - intro schedule. cbv zeta. split.
    + destruct (run_schedule_spec o schedule (repeat AtCheck (S n)) w) as (pool & _ & H).
      rewrite pending_fresh in H. lia.
    + exact (overlapping_calls_agree o schedule (S n) w).
Qed.

(** C10.  In every successful result the [format] field is the requested
    format as [validate_output_format] normalizes it; and there is a run in
    which that field is wav while the file that was read, and whose bytes
    are returned, is an mp3. *)
Theorem success_reports_requested_format :
  (forall (job : pyval R) (w : world) (d : pydict R),
      value (generate_audio o job w) = Ok d ->
      dict_lookup (key "success") d = Some (PBool true) ->
      exists fmt, requested_format job = Ok fmt /\
                  dict_lookup (key "format") d = Some (PStr fmt)) /\
  (exists (o' : oracle R) (job' : pyval R) (w' : world) (q : path) (d : pydict R),
      let r := generate_audio o' job' w' in
      value r = Ok d /\
      dict_lookup (key "success") d = Some (PBool true) /\
      dict_lookup (key "format") d = Some (PStr (lit "wav")) /\
      In (EvRead q) (events r) /\
      ends_with (lit ".mp3") q = true /\
      fs_lookup q (an_mp3) = Some (mkFile [73; 68; 51; 4]%N 20%Z) /\
      dict_lookup (key "audio_base64") d = Some (PStr (b64encode [73; 68; 51; 4]%N))).
Proof.
  split.
  - intros job w d Hd Hsucc. run_cases o job w.
    + injection Hd as <-. discriminate.
    + injection Hd as <-. discriminate.
    + injection Hd as <-.
      destruct (packaged_result _ _ _ _ _ _ Hpack) as [[_ Hn] | (_ & Hf & _)].
      * congruence.
      * eauto.
  - exists (machine (child_writes an_mp3 [] [])),
           (text_job hello), fresh_world,
           (lit "/app/VibeVoice/outputs/out.mp3").
    eexists. cbv zeta. split; [vm_compute; reflexivity|].
    vm_compute. repeat split; auto 20.
Qed.

End Claims.

(** * More of the handler *)

Section Validators.
Context {R : PyRuntime}.

Lemma lstrip_idem s : lstrip (lstrip s) = lstrip s.
Proof.
  induction s as [|c s IH]; [reflexivity|]. cbn [lstrip].
  destruct (is_space c) eqn:E; [assumption|]. cbn [lstrip]. now rewrite E.
Qed.

Lemma lstrip_length s : length (lstrip s) <= length s.
Proof.
  induction s as [|c s IH]; [reflexivity|]. cbn [lstrip].
  destruct (is_space c); cbn [length]; lia.
Qed.

(** A character that is no space stops [lstrip]. *)
Lemma lstrip_app_stop l c r :
  is_space c = false -> lstrip (l ++ c :: r) = lstrip l ++ c :: r.
Proof.
  intro Hc. induction l as [|x l IH]; cbn [app lstrip].
  - now rewrite Hc.
  - destruct (is_space x); [assumption | reflexivity].
Qed.

Lemma rstrip_idem s : rstrip (rstrip s) = rstrip s.
Proof. unfold rstrip. now rewrite rev_involutive, lstrip_idem. Qed.

Lemma rstrip_length s : length (rstrip s) <= length s.
Proof.
  unfold rstrip. rewrite length_rev.
  pose proof (lstrip_length (rev s)). now rewrite length_rev in H.
Qed.

(** [rstrip] leaves alone a string that does not start with a space. *)
Lemma lstrip_rstrip s : lstrip s = s -> lstrip (rstrip s) = rstrip s.
Proof.
  destruct s as [|c s]; [reflexivity|]. cbn [lstrip].
  destruct (is_space c) eqn:Hc.
  - intro H. exfalso. pose proof (lstrip_length s) as L. rewrite H in L. cbn in L. lia.
  - intros _. unfold rstrip. cbn [rev].
    rewrite (lstrip_app_stop (rev s) c [] Hc), rev_app_distr. cbn [rev app lstrip].
    now rewrite Hc.
Qed.

Lemma strip_no_outer_space s : lstrip (strip s) = strip s /\ rstrip (strip s) = strip s.
Proof.
  unfold strip. split.
  - apply lstrip_rstrip, lstrip_idem.
  - apply rstrip_idem.
Qed.

Lemma strip_idem s : strip (strip s) = strip s.
Proof.
  destruct (strip_no_outer_space s) as [H1 H2].
  unfold strip at 1. now rewrite H1.
Qed.

Lemma strip_length s : length (strip s) <= length s.
Proof.
  unfold strip. pose proof (rstrip_length (lstrip s)). pose proof (lstrip_length s). lia.
Qed.

Lemma validate_text_Ok_inv (v : pyval R) (t : pystr) :
  validate_text v = Ok t ->
  (exists s, v = PStr s /\ t = strip s /\ (1 <= N.of_nat (length s) <= 10000)%N) /\
  (N.of_nat (length t) <= 10000)%N /\
  lstrip t = t /\ rstrip t = t.
Proof.
  unfold validate_text. intro H.
  destruct v as [| | | |s| |]; cbn in H; rewrite ?orb_true_r in H; try discriminate.
  destruct s as [|c s]; [discriminate|]. cbn [negb orb] in H.
  destruct (N.ltb_spec 10000 (N.of_nat (length (c :: s)))) as [Hlt | Hle]; [discriminate|].
  injection H as <-.
  split; [exists (c :: s); repeat split; [cbn [length]; lia | assumption]|].
  split; [pose proof (strip_length (c :: s)); lia|].
  apply strip_no_outer_space.
Qed.

Lemma validate_text_Raise_inv (v : pyval R) (e : exn) :
  validate_text v = Raise e ->
  (e = err_text_empty /\ (isinstance_str v = false \/ v = PStr [])) \/
  (e = err_text_too_long /\ exists s, v = PStr s /\ (10000 < N.of_nat (length s))%N).
Proof.
  unfold validate_text. intro H.
  destruct v as [| | | |s| |]; cbn in H; rewrite ?orb_true_r in H;
    try (injection H as <-; left; split; [reflexivity | now left]).
  destruct s as [|c s]; [injection H as <-; left; split; [reflexivity | now right]|].
  cbn [negb orb] in H.
  destruct (N.ltb_spec 10000 (N.of_nat (length (c :: s)))) as [Hlt | Hle]; [|discriminate].
  injection H as <-. right. split; [reflexivity|]. eauto.
Qed.

(** X1.  What [validate_text] accepts is a string of 1 to 10,000
    characters, and what it returns is that string trimmed: no longer than
    10,000 characters, with no white space at either end. *)
Theorem validate_text_accepts_only_bounded_strings (v : pyval R) (t : pystr) :
  validate_text v = Ok t ->
  (exists s, v = PStr s /\ t = strip s /\ (1 <= N.of_nat (length s) <= 10000)%N) /\
  (N.of_nat (length t) <= 10000)%N /\
  lstrip t = t /\ rstrip t = t.
Proof. exact (validate_text_Ok_inv v t). Qed.

(** X2.  [validate_text] raises nothing but its two [ValueError]s: the one
    for an empty text, for a value that is no string or is the empty string,
    and the one for a long text, for a string of more than 10,000
    characters. *)
Theorem validate_text_raises_only_value_errors (v : pyval R) (e : exn) :
  validate_text v = Raise e ->
  (e = err_text_empty /\ (isinstance_str v = false \/ v = PStr [])) \/
  (e = err_text_too_long /\ exists s, v = PStr s /\ (10000 < N.of_nat (length s))%N).
Proof. exact (validate_text_Raise_inv v e). Qed.

(** X3.  A text [validate_text] returned passes it again unchanged, unless
    it is empty (a text of blanks is accepted and trims to the empty string,
    which is then rejected). *)
Theorem validate_text_is_idempotent (v : pyval R) (t : pystr) :
  validate_text v = Ok t -> t <> [] -> validate_text (PStr t) = Ok t.
Proof.
  intros H Hne.
  destruct (validate_text_Ok_inv v t H) as (_ & Hlen & Hl & Hr).
  unfold validate_text. destruct t as [|c t]; [easy|].
  cbn [truthy isinstance_str negb orb py_len py_strip].
  apply N.ltb_ge in Hlen. rewrite Hlen. f_equal. unfold strip. now rewrite Hl.
Qed.

Lemma validate_speaker_names_short (l : list (pyval R)) :
  length l < 2 -> validate_speaker_names (PList l) = [lit "Alice"; lit "Bob"].
Proof.
  intro H. unfold validate_speaker_names.
  destruct l as [|a [|b l]]; [reflexivity | reflexivity | cbn in H; lia].
Qed.


(** X4.  A value that is no list, and a list of fewer than two items, give
    the default speakers Alice and Bob. *)
Theorem speaker_names_default_when_short (v : pyval R) :
  match v with PList l => length l < 2 | _ => True end ->
  validate_speaker_names v = [lit "Alice"; lit "Bob"].
Proof.
  destruct v as [| | | | |l|]; try reflexivity. apply validate_speaker_names_short.
Qed.

Lemma validate_speaker_names_trimmed (v : pyval R) :
  length (validate_speaker_names v) <= 4 /\
  forall name, In name (validate_speaker_names v) ->
               name <> [] /\ lstrip name = name /\ rstrip name = name.
Proof.
  destruct (validate_speaker_names_bounds v) as [H1 H2]. split; [assumption|].
  intros name Hin. split; [now apply H2|].
  unfold validate_speaker_names in Hin.
  apply in_map_iff in Hin as (x & <- & _). apply strip_no_outer_space.
Qed.

(** X5.  [validate_speaker_names] returns at most four names, none of them
    empty and none with white space at either end. *)
Theorem speaker_names_bounded_and_trimmed (v : pyval R) :
  length (validate_speaker_names v) <= 4 /\
  forall name, In name (validate_speaker_names v) ->
               name <> [] /\ lstrip name = name /\ rstrip name = name.
Proof. exact (validate_speaker_names_trimmed v). Qed.

(** X6.  Only the first four items of the list count: the result is that
    of the list cut after its fourth item. *)
Theorem speaker_names_beyond_the_fourth_are_ignored (l : list (pyval R)) :
  validate_speaker_names (PList l) = validate_speaker_names (PList (firstn 4 l)).
Proof.
  unfold validate_speaker_names. now rewrite firstn_firstn.
Qed.

(** X7.  A result of at least two names is a fixed point: given back as a
    list of strings it is returned unchanged. *)
Theorem speaker_names_normalization_is_idempotent (v : pyval R) :
  2 <= length (validate_speaker_names v) ->
  validate_speaker_names (PList (map PStr (validate_speaker_names v)))
  = validate_speaker_names v.
Proof.
  intro H2.
  destruct (validate_speaker_names_trimmed v) as [H4 Hall].
  set (out := validate_speaker_names v) in *.
  unfold validate_speaker_names at 1.
  rewrite firstn_all2 by (rewrite length_map; lia).
  rewrite length_map.
  destruct (Nat.ltb_spec (length out) 2) as [Hlt | _]; [lia|].
  clearbody out. clear H2 H4.
  induction out as [|n out IH]; [reflexivity|].
  destruct (Hall n (or_introl eq_refl)) as (Hne & Hl & Hr).
  assert (Hs : strip n = n) by (unfold strip; now rewrite Hl).
  cbn [map filter py_str]. rewrite Hs.
  destruct n as [|c n]; [easy|]. cbn [map py_str]. rewrite Hs. f_equal.
  apply IH. intros m Hm. apply Hall. now right.
Qed.

Lemma validate_output_format_allowed (v : pyval R) (f : pystr) :
  validate_output_format v = Ok f -> In f allowed_formats.
Proof.
  unfold validate_output_format.
  destruct (if truthy v then py_lower v else Ok (lit "wav")) as [g|e]; [|discriminate].
  destruct (str_in g allowed_formats) eqn:E; cbn [negb]; intro H; injection H as <-.
  - now apply str_in_In.
  - now left.
Qed.

(** X8.  What [validate_output_format] returns is one of wav, mp3 and flac,
    and is returned unchanged when given back. *)
Theorem output_format_normalization_is_idempotent (v : pyval R) (f : pystr) :
  validate_output_format v = Ok f ->
  In f allowed_formats /\ validate_output_format (PStr f) = Ok f.
Proof.
  intro H. pose proof (validate_output_format_allowed v f H) as Hin.
  split; [assumption|].
  destruct Hin as [<- | [<- | [<- | []]]]; reflexivity.
Qed.

End Validators.



Ltac sal' :=
  cbn [app];
  repeat (rewrite salient_app || rewrite salient_cons || rewrite salient_nil);
  cbn [is_salient app].

Section Setup.
Context {R : PyRuntime}.
Variable o : oracle R.

Lemma outcome_eq {A} (x : outcome A) v w e :
  value x = v -> final x = w -> events x = e -> x = mkOutcome v w e.
Proof. destruct x; cbn; now intros -> -> ->. Qed.

(** *** initialize_model in full *)

Lemma initialize_model_outcome w :
  wp (initialize_model o) w
     (fun v w' e =>
        v = Ok (will_be_ready o w) /\
        fs w' = fs w /\
        (model_initialized w = true -> w' = w /\ e = []) /\
        (model_initialized w = false ->
         match cuda_is_available o with
         | Some cuda =>
             device w' = Some (if cuda then lit "cuda" else lit "cpu") /\
             model_path w' = Some (env_model_path o)
         | None => device w' = device w /\ model_path w' = model_path w
         end)).
Proof.
  unfold initialize_model, will_be_ready. wp_steps.
  destruct (model_initialized w) eqn:Hw.
  { wp_steps. repeat split; auto; discriminate. }
  wp_step. wp_step. apply wp_time_time. wp_step.
  unfold torch_cuda_is_available. wp_steps.
  destruct (cuda_is_available o) as [cuda|].
  2:{ wp_steps. repeat split; auto; discriminate. }
  wp_steps. apply wp_os_path_exists_at.
  cbn [fs set_model_path set_device tick].
  destruct (fs_exists (env_model_path o) (fs w)); cbn [negb].
  2:{ wp_steps. repeat split; auto; discriminate. }
  wp_step. apply wp_os_path_exists. intros [|]; cbn [negb].
  - wp_steps. apply wp_time_time. wp_steps. repeat split; auto; discriminate.
  - unfold path_glob. wp_steps. apply wp_time_time. wp_steps.
    repeat split; auto; discriminate.
Qed.

(** *** Files: what is added can be looked up, what is removed is gone *)

Lemma fs_lookup_app_some p l l' f :
  fs_lookup p l = Some f -> fs_lookup p (l ++ l') = Some f.
Proof.
  induction l as [|[q g] l IH]; cbn; [discriminate|].
  destruct (str_eqb p q); [trivial | assumption].
Qed.

Lemma fs_lookup_app_none p l l' :
  fs_lookup p l = None -> fs_lookup p (l ++ l') = fs_lookup p l'.
Proof.
  induction l as [|[q g] l IH]; cbn; [reflexivity|].
  destruct (str_eqb p q); [discriminate | assumption].
Qed.


Lemma fs_remove_absent p l : fs_lookup p l = None -> fs_remove p l = l.
Proof.
  unfold fs_remove. induction l as [|[q g] l IH]; cbn; [reflexivity|].
  destruct (str_eqb p q); [discriminate|]. cbn. intro H. now rewrite (IH H).
Qed.

Lemma fs_lookup_remove_other p q l :
  p <> q -> fs_lookup q (fs_remove p l) = fs_lookup q l.
Proof.
  intro Hne. unfold fs_remove. induction l as [|[x g] l IH]; cbn; [reflexivity|].
  destruct (str_eqb p x) eqn:E1; cbn.
  - apply str_eqb_eq in E1. subst x.
    destruct (str_eqb q p) eqn:E2; [apply str_eqb_eq in E2; congruence | assumption].
  - destruct (str_eqb q x); [reflexivity | assumption].
Qed.

Lemma fs_remove_added p l f :
  fs_lookup p l = None -> fs_remove p (l ++ [(p, f)]) = l.
Proof.
  intro H. unfold fs_remove. rewrite filter_app.
  change (filter (fun e => negb (str_eqb p (fst e))) l) with (fs_remove p l).
  rewrite (fs_remove_absent _ _ H). cbn. rewrite str_eqb_refl. cbn. apply app_nil_r.
Qed.

(** *** The temporary file and the output directory in full *)

Lemma write_temp_text_outcome text w :
  wp (write_temp_text o text) w
     (fun v w' e =>
        model_initialized w' = model_initialized w /\
        model_path w' = model_path w /\
        match temp_name o with
        | None => (exists x, v = Raise x /\ exn_cls x = OSError) /\ fs w' = fs w /\ e = []
        | Some stem =>
            let p := stem ++ lit ".txt" in
            match fs_lookup p (fs w) with
            | Some _ =>
                (exists x, v = Raise x /\ exn_cls x = OSError) /\ fs w' = fs w /\ e = []
            | None =>
                e = [EvCreate p] /\
                match encode_text o text with
                | Some data => v = Ok p /\ fs w' = fs w ++ [(p, mkFile data 0)]
                | None =>
                    v = Raise (mkExn UnicodeError (lit "codec can't encode characters")) /\
                    fs w' = fs w ++ [(p, mkFile [] 0)]
                end
            end
        end).
Proof.
  unfold write_temp_text.
  destruct (temp_name o) as [stem|].
  2:{ wp_steps. repeat split; eauto. }
  cbv zeta. wp_steps.
  destruct (fs_lookup (stem ++ lit ".txt") (fs w)) eqn:E.
  { wp_steps. repeat split; eauto. }
  wp_steps. destruct (encode_text o text).
  - wp_steps. cbn [fs set_fs model_initialized model_path].
    rewrite (fs_remove_added _ _ _ E). repeat split.
  - wp_steps. repeat split.
Qed.

Lemma os_makedirs_outcome p w :
  wp (os_makedirs p) w
     (fun v w' e =>
        w' = w /\ e = [EvMakedirs p] /\
        match fs_lookup p (fs w) with
        | Some _ => v = Raise (mkExn OSError (lit "[Errno 17] File exists: " ++ str_repr p))
        | None => v = Ok tt
        end).
Proof.
  unfold os_makedirs. wp_steps. destruct (fs_lookup p (fs w)); wp_steps; repeat split.
Qed.

(** [os.unlink] in [try ... except: pass]: the file is removed and nothing
    else changes. *)
Lemma unlink_quietly_outcome p w :
  wp (pass_on_error (os_unlink p)) w
     (fun v w' e => v = Ok tt /\ e = [EvUnlink p] /\ w' = set_fs (fs_remove p (fs w)) w).
Proof.
  unfold pass_on_error, os_unlink. wp_steps.
  destruct (fs_lookup p (fs w)) eqn:E; wp_steps; repeat split.
  rewrite (fs_remove_absent _ _ E). now destruct w.
Qed.

(** *** The choice of the script and the start of the child *)

Lemma find_script_outcome scripts w :
  wp (find_script scripts) w
     (fun v w' e =>
        v = Ok (find (fun s => fs_exists s (fs w)) scripts) /\ w' = w /\ salient e = []).
Proof.
  induction scripts as [|s rest IH]; cbn [find_script find].
  - wp_steps. repeat split.
  - wp_step. apply wp_os_path_exists_at. destruct (fs_exists s (fs w)).
    + wp_steps. repeat split.
    + eapply wp_use; [apply IH|]. cbv beta. intros v w1 e1 (-> & -> & H). repeat split.
      sal'. exact H.
Qed.

Lemma no_spawn_in_quiet e cmd : salient e = [] -> ~ In (EvSpawn cmd) e.
Proof. intros H Hin. apply in_salient in Hin; [|reflexivity]. now rewrite H in Hin. Qed.

Lemma package_result_fields start gt text names fmt result w :
  wp (package_result o start gt text names fmt result) w
     (fun v _ e =>
        (forall cmd, ~ In (EvSpawn cmd) e) /\
        (forall d, v = Ok d -> success_fields d text names fmt)).
Proof.
  split.
  - intros cmd Hin.
    destruct (package_result_spec o start gt text names fmt result w) as [_ Hp].
    apply in_salient in Hin; [|reflexivity].
    destruct (packaged_events _ _ _ _ _ _ _ Hp Hin) as [Hg | [q Hq]]; discriminate.
  - revert w.
    assert (G : forall w, wp (package_result o start gt text names fmt result) w
                            (fun v _ _ => forall d, v = Ok d -> success_fields d text names fmt));
      [|exact G].
    intro w. unfold package_result.
    destruct (returncode result =? 0)%Z.
    2:{ wp_steps. intros d E. injection E as <-. intro H. discriminate H. }
    wp_step. eapply wp_use; [apply find_audio_files_spec|]. cbv beta.
    intros v w1 e1 (-> & -> & _).
    destruct (located (fs w) fmt) as [|a l] eqn:L.
    { wp_steps. intros d E. injection E as <-. intro H. discriminate H. }
    wp_step. eapply wp_use.
    { apply max_by_mtime_spec; [discriminate|].
      intros q Hq. rewrite <- L in Hq. exact (located_lookup _ _ _ Hq). }
    cbv beta. intros v w1 e2 (-> & -> & p & -> & Hp & _).
    wp_step. apply (wp_read_bytes o).
    { rewrite <- L in Hp. exact (located_lookup _ _ _ Hp). }
    + intro data. wp_step. apply wp_unlink_quietly. intros w2 _ _.
      wp_step. apply wp_time_time. wp_steps.
      intros d E. injection E as <-. intros _. repeat split.
    + intros x _ d E. discriminate E.
Qed.

Lemma run_generation_launch start text names fmt txt w :
  wp (run_generation o start text names fmt txt) w
     (fun v w' e =>
        (forall cmd, In (EvSpawn cmd) e ->
           exists s mp, cmd = launch_cmd s mp txt names /\
                        script_choice (fs w) = Some s /\
                        model_path w = Some mp /\
                        child_ran o cmd (fs w) e) /\
        (script_choice (fs w) = None ->
           v = Ok (error_only (lit "No inference script found in VibeVoice directory")) /\
           w' = w /\ forall cmd, ~ In (EvSpawn cmd) e) /\
        (forall d, v = Ok d -> success_fields d text names fmt)).
Proof.
  unfold run_generation.
  lazymatch goal with
  | |- wp (bind _ (fun found => bind _ ?K)) _ ?Q =>
      assert (HK : forall d e0, d = script_choice (fs w) -> salient e0 = [] ->
                 wp (K d) w (fun v w' e => Q v w' (e0 ++ e)))
  end.
  { intros d e0 Es He0. symmetry in Es. destruct d as [s|]; cbv beta iota.
    2:{ wp_steps. rewrite app_nil_r. split; [|split].
        - intros cmd Hin. now apply (no_spawn_in_quiet _ _ He0) in Hin.
        - intros _. repeat split. intros cmd. now apply no_spawn_in_quiet.
        - intros d E. injection E as <-. intro H. discriminate H. }
    wp_steps. destruct (model_path w) as [mp|] eqn:Emp.
    2:{ wp_steps. rewrite app_nil_r. split; [|split].
        - intros cmd Hin. now apply (no_spawn_in_quiet _ _ He0) in Hin.
        - intro H; congruence.
        - discriminate. }
    wp_step. apply wp_time_time. wp_step.
    change ([lit "python"; s; lit "--model_path"; mp; lit "--txt_path"; txt;
             lit "--speaker_names"] ++ names) with (launch_cmd s mp txt names).
    unfold subprocess_run. wp_step. wp_step. cbv beta. cbn [tick fs].
    unfold child_ran.
    assert (Hnot : forall cmd e', In (EvSpawn cmd) (e0 ++ e') -> In (EvSpawn cmd) e').
    { intros cmd e' Hin. apply in_app_or in Hin as [Hin|Hin]; [|assumption].
      now apply (no_spawn_in_quiet _ _ He0) in Hin. }
    destruct (child o (launch_cmd s mp txt names) (fs w)) as [rc out err fs'|fs'|msg] eqn:Ec.
    - wp_steps. apply wp_time_time.
      eapply wp_use; [apply package_result_fields|]. cbv beta.
      intros v w3 e3 [Hns Hf]. split; [|split].
      + intros cmd Hin. apply Hnot in Hin. cbn [app] in Hin.
        destruct Hin as [E | [E | Hin]]; [|discriminate|now apply Hns in Hin].
        injection E as <-. exists s, mp.
        split; [reflexivity|]. split; [exact Es|]. split; [reflexivity|].
        unfold launch_cmd in Ec |- *. rewrite Ec.
        apply in_or_app. right. cbn. auto.
      + intro H; congruence.
      + exact Hf.
    - wp_steps. split; [|split].
      + intros cmd Hin. apply Hnot in Hin. cbn [app] in Hin.
        destruct Hin as [E | [E | []]]; [|discriminate].
        injection E as <-. exists s, mp.
        split; [reflexivity|]. split; [exact Es|]. split; [reflexivity|].
        unfold launch_cmd in Ec |- *. rewrite Ec.
        apply in_or_app. right. cbn. auto.
      + intro H; congruence.
      + discriminate.
    - wp_steps. rewrite app_nil_r. split; [|split].
      + intros cmd Hin. now apply (no_spawn_in_quiet _ _ He0) in Hin.
      + intro H; congruence.
      + discriminate. }
  wp_step. apply wp_os_path_exists_at. wp_step.
  destruct (fs_exists default_script (fs w)) eqn:Ex.
  - wp_step. cbv beta iota.
    apply (HK (Some default_script) [EvExists default_script true]); [|reflexivity].
    unfold script_choice. cbn [find]. now rewrite Ex.
  - eapply wp_use; [apply find_script_outcome|]. cbv beta.
    intros v w1 e1 (-> & -> & H).
    refine (wp_use _ _ _ _ (HK _ (EvExists default_script false :: e1) _ _) _).
    + unfold script_choice. cbn [find]. now rewrite Ex.
    + sal'. exact H.
    + cbv beta. intros v w1 e2 H2. exact H2.
Qed.

Lemma wp_conj {A} (m : M A) w (P Q : res A -> world -> list event -> Prop) :
  wp m w P -> wp m w Q -> wp m w (fun v w' e => P v w' e /\ Q v w' e).
Proof. unfold wp. now split. Qed.

Lemma child_ran_more cmd fs0 e e' :
  child_ran o cmd fs0 e -> (forall x, In x e -> In x e') -> child_ran o cmd fs0 e'.
Proof. unfold child_ran. destruct (child o cmd fs0); auto. Qed.

(** The name of the text file is not the output directory. *)
Lemma txt_is_not_output_dir stem : stem ++ lit ".txt" <> output_dir.
Proof.
  intro H. apply (f_equal (@rev N)) in H. rewrite rev_app_distr in H.
  vm_compute in H. discriminate H.
Qed.

Ltac validated_header H :=
  let raw_text := fresh "raw_text" in
  let raw_names := fresh "raw_names" in
  let raw_format := fresh "raw_format" in
  let E1 := fresh "E1" in let E2 := fresh "E2" in let E3 := fresh "E3" in
  let E4 := fresh "E4" in let E5 := fresh "E5" in
  destruct H as (raw_text & raw_names & raw_format & E1 & E2 & E3 & -> & E4 & E5);
  unfold generate_audio_body;
  wp_step; apply wp_time_time;
  wp_step; wp_step; rewrite E1; cbv beta iota;
  wp_step; wp_step; rewrite E2; cbv beta iota;
  wp_step; wp_step; rewrite E3; cbv beta iota zeta;
  wp_step; wp_step; rewrite E4; cbv beta iota;
  wp_step; wp_step; rewrite E5; cbv beta iota.

Lemma generate_audio_body_detail job text names fmt w :
  validated job text names fmt ->
  wp (generate_audio_body o job) w
     (fun v w' e =>
        (forall cmd, In (EvSpawn cmd) e ->
           exists script mp stem data,
             temp_name o = Some stem /\ encode_text o text = Some data /\
             fs_lookup (txt_of stem) (fs w) = None /\
             script_choice (fs w ++ [(txt_of stem, mkFile data 0)]) = Some script /\
             cmd = launch_cmd script mp (txt_of stem) names /\
             (mp = env_model_path o \/
              (model_initialized w = true /\ model_path w = Some mp)) /\
             child_ran o cmd (fs w ++ [(txt_of stem, mkFile data 0)]) e) /\
        (forall d, v = Ok d -> success_fields d text names fmt) /\
        (will_be_ready o w = false ->
           v = Ok (error_only (lit "Model initialization failed")) /\
           fs w' = fs w /\ salient e = []) /\
        (will_be_ready o w = true ->
         forall stem, temp_name o = Some stem -> fs_lookup (txt_of stem) (fs w) = None ->
           (encode_text o text = None ->
              v = Raise (mkExn UnicodeError (lit "codec can't encode characters")) /\
              fs w' = fs w ++ [(txt_of stem, mkFile [] 0)]) /\
           (forall data f, encode_text o text = Some data ->
              fs_lookup output_dir (fs w) = Some f ->
              v = Raise (mkExn OSError (lit "[Errno 17] File exists: " ++ str_repr output_dir)) /\
              fs w' = fs w ++ [(txt_of stem, mkFile data 0)]) /\
           (forall data, encode_text o text = Some data ->
              fs_lookup output_dir (fs w) = None ->
              fs_lookup (txt_of stem) (fs w') = None /\
              (script_choice (fs w ++ [(txt_of stem, mkFile data 0)]) = None ->
                 v = Ok (error_only (lit "No inference script found in VibeVoice directory")) /\
                 fs w' = fs w /\ forall cmd, ~ In (EvSpawn cmd) e)))).
Proof.
  intro Hv. validated_header Hv. cbn [app].
  wp_step.
  eapply wp_use; [exact (wp_conj _ _ _ _ (initialize_model_outcome (tick w))
                                   (initialize_model_spec o (tick w)))|].
  cbv beta. intros v w1 e1 [(-> & Hfs1 & Hready & Hfresh) (b & _ & Hs1 & _)].
  change (will_be_ready o (tick w)) with (will_be_ready o w).
  cbn [tick fs model_initialized model_path device] in Hfs1, Hready, Hfresh.
  assert (Hq1 : forall cmd, ~ In (EvSpawn cmd) e1) by (intro; now apply no_spawn_in_quiet).
  destruct (will_be_ready o w) eqn:Hwr; cbn [negb].
  2:{ wp_steps. rewrite app_nil_r. split; [|split; [|split]].
      - intros cmd Hin. now apply Hq1 in Hin.
      - intros d E. injection E as <-. intro H. discriminate H.
      - intros _. repeat split; assumption.
      - discriminate. }
  assert (Hmp : forall mp, model_path w1 = Some mp ->
                  mp = env_model_path o \/ (model_initialized w = true /\ model_path w = Some mp)).
  { intros mp Hmp. destruct (model_initialized w) eqn:Hw.
    - destruct (Hready eq_refl) as [-> _]. right. now split.
    - specialize (Hfresh eq_refl). unfold will_be_ready in Hwr. rewrite Hw in Hwr.
      destruct (cuda_is_available o); [|discriminate Hwr].
      destruct Hfresh as [_ H]. left. congruence. }
  wp_step. eapply wp_use; [apply write_temp_text_outcome|]. cbv beta.
  intros v w2 e2 (_ & Hmp2 & H2). fold txt_of in H2.
  destruct (temp_name o) as [stem|] eqn:Etmp.
  2:{ destruct H2 as ((x & -> & Hx) & Hfs2 & ->). rewrite app_nil_r.
      split; [|split; [|split]].
      - intros cmd Hin. now apply Hq1 in Hin.
      - intros d E. discriminate E.
      - intro E. discriminate E.
      - intros _ stem' E. discriminate E. }
  cbv zeta in H2. fold (txt_of stem) in H2. rewrite Hfs1 in H2.
  destruct (fs_lookup (txt_of stem) (fs w)) eqn:Efresh.
  { destruct H2 as ((x & -> & Hx) & Hfs2 & ->). rewrite app_nil_r.
    split; [|split; [|split]].
    - intros cmd Hin. now apply Hq1 in Hin.
    - intros d E. discriminate E.
    - intro E. discriminate E.
    - intros _ stem' E. injection E as <-. intro H. congruence. }
  destruct H2 as (-> & H2).
  destruct (encode_text o text) as [data|] eqn:Eenc.
  2:{ destruct H2 as (-> & Hfs2).
      split; [|split; [|split]].
      - intros cmd Hin. apply in_app_or in Hin as [Hin | Hin];
          [now apply Hq1 in Hin|].
        cbn [In] in Hin. destruct Hin as [E | []]. discriminate E.
      - intros d E. discriminate E.
      - intro E. discriminate E.
      - intros _ stem' E _. injection E as <-. split; [|split].
        + intros _. now split.
        + intros data f E. discriminate E.
        + intros data E. discriminate E. }
  destruct H2 as (-> & Hfs2).
  wp_step. eapply wp_use; [apply os_makedirs_outcome|]. cbv beta.
  intros v w3 e3 (-> & -> & H3). rewrite Hfs2 in H3.
  destruct (fs_lookup output_dir (fs w)) as [f|] eqn:Eout.
  { rewrite (fs_lookup_app_some _ _ _ _ Eout) in H3. subst v.
    split; [|split; [|split]].
    - intros cmd Hin. apply in_app_or in Hin as [Hin | Hin];
        [now apply Hq1 in Hin|].
      cbn [app In] in Hin. destruct Hin as [E | [E | []]]; discriminate E.
    - intros d E. discriminate E.
    - intro E. discriminate E.
    - intros _ stem' E _. injection E as <-. split; [|split].
      + intro E. discriminate E.
      + intros data' f' E _. injection E as <-. now split.
      + intros data' _ E. discriminate E. }
  rewrite (fs_lookup_app_none _ _ _ Eout) in H3. cbn [fs_lookup] in H3.
  assert (Hne : str_eqb output_dir (txt_of stem) = false).
  { destruct (str_eqb output_dir (txt_of stem)) eqn:E; [|reflexivity].
    apply str_eqb_eq in E. symmetry in E. now apply txt_is_not_output_dir in E. }
  rewrite Hne in H3. subst v.
  wp_step.
  eapply wp_use; [apply run_generation_launch|]. cbv beta.
  intros v w4 e4 (Hsp & Hnone & Hfields).
  eapply wp_use; [apply unlink_quietly_outcome|]. cbv beta.
  intros v5 w5 e5 (-> & -> & ->). rewrite Hfs2 in Hsp, Hnone.
  split; [|split; [|split]].
  - intros cmd Hin.
    assert (Hin4 : In (EvSpawn cmd) e4).
    { apply in_app_or in Hin as [Hin | Hin]; [now apply Hq1 in Hin|].
      cbn [app In] in Hin. destruct Hin as [E | [E | Hin]]; try discriminate.
      apply in_app_or in Hin as [Hin | [E | []]]; [assumption | discriminate]. }
    destruct (Hsp cmd Hin4) as (s & mp & -> & Hs & Hmp4 & Hran).
    exists s, mp, stem, data. repeat split; try assumption.
    + apply Hmp. rewrite <- Hmp2. exact Hmp4.
    + apply (child_ran_more _ _ _ _ Hran). intros x Hx.
      apply in_or_app. right. cbn [app In]. right. right.
      apply in_or_app. now left.
  - exact Hfields.
  - intro E. discriminate E.
  - intros _ stem' E _. injection E as <-. split; [|split].
    + intro E. discriminate E.
    + intros data' f' _ E. discriminate E.
    + intros data' E _. injection E as <-. cbn [fs set_fs]. split.
      * apply fs_lookup_remove.
      * intro Hn. destruct (Hnone Hn) as (-> & -> & Hns). split; [reflexivity|]. split.
        -- rewrite Hfs2. now apply fs_remove_added.
        -- intros cmd Hin.
           apply in_app_or in Hin as [Hin | Hin]; [now apply Hq1 in Hin|].
           cbn [app In] in Hin. destruct Hin as [E | [E | Hin]]; try discriminate.
           apply in_app_or in Hin as [Hin | [E | []]]; [now apply Hns in Hin | discriminate].
Qed.

End Setup.

Section Generation.
Context {R : PyRuntime}.
Variable o : oracle R.

(** [generate_audio] turns what its body raises into a failure and adds
    nothing else. *)
Lemma wp_generate_audio job w (Q : res (pydict R) -> world -> list event -> Prop) :
  wp (generate_audio_body o job) w
     (fun v w' e =>
        match v with
        | Ok d => Q (Ok d) w' e
        | Raise x =>
            Q (Ok (if is_ValueError x then error_only (lit "Invalid input: " ++ exn_msg x)
                   else if is_TimeoutExpired x then error_only timeout_message
                   else error_only (lit "Generation failed: " ++ exn_msg x))) w' e
        end) ->
  wp (generate_audio o job) w Q.
Proof.
  intro H. unfold generate_audio. wp_step.
  eapply wp_use; [exact H|]. cbv beta. intros [d|x] w1 e1 HQ; [exact HQ|].
  unfold generate_audio_except.
  destruct (is_ValueError x); [|destruct (is_TimeoutExpired x)];
    wp_steps; now rewrite app_nil_r.
Qed.

Lemma generate_audio_detail job text names fmt w :
  validated job text names fmt ->
  wp (generate_audio o job) w
     (fun v w' e =>
        (forall cmd, In (EvSpawn cmd) e ->
           exists script mp stem data,
             temp_name o = Some stem /\ encode_text o text = Some data /\
             fs_lookup (txt_of stem) (fs w) = None /\
             script_choice (fs w ++ [(txt_of stem, mkFile data 0)]) = Some script /\
             cmd = launch_cmd script mp (txt_of stem) names /\
             (mp = env_model_path o \/
              (model_initialized w = true /\ model_path w = Some mp)) /\
             child_ran o cmd (fs w ++ [(txt_of stem, mkFile data 0)]) e) /\
        (forall d, v = Ok d -> success_fields d text names fmt) /\
        (will_be_ready o w = false ->
           v = Ok (error_only (lit "Model initialization failed")) /\
           fs w' = fs w /\ salient e = []) /\
        (will_be_ready o w = true ->
         forall stem, temp_name o = Some stem -> fs_lookup (txt_of stem) (fs w) = None ->
           (encode_text o text = None ->
              v = Ok (error_only (lit "Invalid input: codec can't encode characters")) /\
              fs w' = fs w ++ [(txt_of stem, mkFile [] 0)]) /\
           (forall data f, encode_text o text = Some data ->
              fs_lookup output_dir (fs w) = Some f ->
              v = Ok (error_only (lit "Generation failed: [Errno 17] File exists: "
                                  ++ str_repr output_dir)) /\
              fs w' = fs w ++ [(txt_of stem, mkFile data 0)]) /\
           (forall data, encode_text o text = Some data ->
              fs_lookup output_dir (fs w) = None ->
              fs_lookup (txt_of stem) (fs w') = None /\
              (script_choice (fs w ++ [(txt_of stem, mkFile data 0)]) = None ->
                 v = Ok (error_only (lit "No inference script found in VibeVoice directory")) /\
                 fs w' = fs w /\ forall cmd, ~ In (EvSpawn cmd) e)))).
Proof.
  intro Hv. apply wp_generate_audio.
  eapply wp_use; [apply (generate_audio_body_detail o job text names fmt w Hv)|].
  cbv beta. intros [d|x] w1 e1 (Hsp & Hf & Hinit & Htmp).
  { split; [exact Hsp|]. split; [exact Hf|]. split; [exact Hinit|].
    intros Hw stem Hstem Hfresh.
    destruct (Htmp Hw stem Hstem Hfresh) as (H1 & H2 & H3). split; [|split].
    - intro He. destruct (H1 He) as [E _]. discriminate E.
    - intros data f He Ho. destruct (H2 data f He Ho) as [E _]. discriminate E.
    - exact H3. }
  split; [exact Hsp|]. split; [|split].
  - intros d E. intro Hs. exfalso.
    destruct (is_ValueError x); [|destruct (is_TimeoutExpired x)];
      injection E as <-; discriminate Hs.
  - intro Hw. destruct (Hinit Hw) as (E & _). discriminate E.
  - intros Hw stem Hstem Hfresh.
    destruct (Htmp Hw stem Hstem Hfresh) as (H1 & H2 & H3). split; [|split].
    + intro He. destruct (H1 He) as [E Hfs]. injection E as ->. now split.
    + intros data f He Ho. destruct (H2 data f He Ho) as [E Hfs]. injection E as ->.
      now split.
    + intros data He Ho. destruct (H3 data He Ho) as [Hgone Hnone].
      split; [exact Hgone|]. intro Hn. destruct (Hnone Hn) as (E & _). discriminate E.
Qed.

End Generation.

Section GenerationProperties.
Context {R : PyRuntime}.
Variable o : oracle R.

(** X9.  [initialize_model] returns [True] exactly when the worker is ready
    already, or the device can be queried and the model path exists; the
    flag it leaves is what it returns, and no file is touched.  An attempt
    that got past the device query has recorded the device and the model
    path, also when it then fails. *)
Theorem initialize_model_succeeds_exactly_when_the_model_is_there (w : world) :
  let r := initialize_model o w in
  value r = Ok (will_be_ready o w) /\
  model_initialized (final r) = will_be_ready o w /\
  fs (final r) = fs w /\
  (model_initialized w = false ->
   forall cuda, cuda_is_available o = Some cuda ->
     device (final r) = Some (if cuda then lit "cuda" else lit "cpu") /\
     model_path (final r) = Some (env_model_path o)).
Proof.
  cbv zeta.
  destruct (initialize_model_outcome o w) as (Hv & Hfs & _ & Hfresh).
  destruct (initialize_model_spec o w) as (b & Hb & _ & Hflag & _).
  split; [exact Hv|]. split; [|split; [exact Hfs|]].
  - rewrite Hflag. congruence.
  - intros Hw cuda Hc. specialize (Hfresh Hw). now rewrite Hc in Hfresh.
Qed.

(** X10.  A job whose text [validate_text] rejects fails with "Invalid
    input: " and the validator's message; the clock has been read once and
    nothing else has happened: no query, no file, no child. *)
Theorem invalid_text_is_rejected_before_anything_happens
    (job raw : pyval R) (e : exn) (w : world) :
  py_get job "text" (PStr empty_str) = Ok raw ->
  validate_text raw = Raise e ->
  generate_audio o job w =
  mkOutcome (Ok (error_only (lit "Invalid input: " ++ exn_msg e))) (tick w) [].
Proof.
  intros E1 E2.
  assert (HV : is_ValueError e = true).
  { destruct (validate_text_Raise_inv raw e E2) as [[-> _] | [-> _]];
      reflexivity. }
  assert (H : wp (generate_audio o job) w
                 (fun v w' ev => v = Ok (error_only (lit "Invalid input: " ++ exn_msg e)) /\
                                 w' = tick w /\ ev = [])).
  { apply wp_generate_audio. unfold generate_audio_body.
    wp_step. apply wp_time_time.
    wp_step. wp_step. rewrite E1. cbv beta iota.
    wp_step. wp_step. rewrite E2. cbv beta iota. rewrite HV. repeat split. }
  destruct H as (Hv & Hw & He). now apply outcome_eq.
Qed.

(** X11.  When the inputs are valid and the model cannot be initialized,
    the job fails with "Model initialization failed"; the files are as
    before, no temporary file has been created and no child started. *)
Theorem failed_initialization_creates_nothing
    (job : pyval R) (text : pystr) (names : list pystr) (fmt : pystr) (w : world) :
  validated job text names fmt ->
  will_be_ready o w = false ->
  let r := generate_audio o job w in
  value r = Ok (error_only (lit "Model initialization failed")) /\
  fs (final r) = fs w /\
  (forall p, ~ In (EvCreate p) (events r)) /\
  (forall cmd, ~ In (EvSpawn cmd) (events r)).
Proof.
  intros Hv Hw. cbv zeta.
  destruct (generate_audio_detail o job text names fmt w Hv) as (_ & _ & Hinit & _).
  destruct (Hinit Hw) as (Hval & Hfs & Hs).
  split; [exact Hval|]. split; [exact Hfs|]. split.
  - intros p Hin. apply in_salient in Hin; [|reflexivity]. now rewrite Hs in Hin.
  - intros cmd. now apply no_spawn_in_quiet.
Qed.


(** X13.  Whenever a child is started, its command is python, the first
    script that exists, --model_path with the model path of the environment
    or the one recorded before, --txt_path with the temporary file and
    --speaker_names followed by the validated names; the temporary file then
    holds the encoded validated text, and the run ends with the exit or the
    kill of that child. *)
Theorem the_script_is_started_on_the_validated_input
    (job : pyval R) (text : pystr) (names : list pystr) (fmt : pystr) (w : world)
    (cmd : list pystr) :
  validated job text names fmt ->
  let r := generate_audio o job w in
  In (EvSpawn cmd) (events r) ->
  exists script mp stem data,
    temp_name o = Some stem /\ encode_text o text = Some data /\
    fs_lookup (txt_of stem) (fs w) = None /\
    script_choice (fs w ++ [(txt_of stem, mkFile data 0)]) = Some script /\
    cmd = [lit "python"; script; lit "--model_path"; mp;
           lit "--txt_path"; txt_of stem; lit "--speaker_names"] ++ names /\
    (mp = env_model_path o \/ (model_initialized w = true /\ model_path w = Some mp)) /\
    child_ran o cmd (fs w ++ [(txt_of stem, mkFile data 0)]) (events r).
Proof.
  intros Hv. cbv zeta. intro Hin.
  destruct (generate_audio_detail o job text names fmt w Hv) as (Hsp & _).
  exact (Hsp cmd Hin).
Qed.

(** X14.  A success reports the length of the trimmed text, the validated
    speakers and the validated format. *)
Theorem success_reports_the_validated_text_and_speakers
    (job : pyval R) (text : pystr) (names : list pystr) (fmt : pystr) (w : world)
    (d : pydict R) :
  validated job text names fmt ->
  value (generate_audio o job w) = Ok d ->
  dict_lookup (key "success") d = Some (PBool true) ->
  dict_lookup (key "text_length") d = Some (PInt (Z.of_nat (length text))) /\
  dict_lookup (key "speakers") d = Some (PList (map PStr names)) /\
  dict_lookup (key "format") d = Some (PStr fmt).
Proof.
  intros Hv Hd.
  destruct (generate_audio_detail o job text names fmt w Hv) as (_ & Hf & _).
  exact (Hf d Hd).
Qed.

(** X15.  When none of the four scripts exists, the job fails with "No
    inference script found in VibeVoice directory", no child is started,
    and the files are at the end as they were at the start: the temporary
    file has been removed again. *)
Theorem without_a_script_nothing_is_started_and_nothing_is_left
    (job : pyval R) (text : pystr) (names : list pystr) (fmt : pystr)
    (stem : pystr) (data : list N) (w : world) :
  validated job text names fmt ->
  will_be_ready o w = true ->
  temp_name o = Some stem ->
  fs_lookup (txt_of stem) (fs w) = None ->
  encode_text o text = Some data ->
  fs_lookup output_dir (fs w) = None ->
  script_choice (fs w ++ [(txt_of stem, mkFile data 0)]) = None ->
  let r := generate_audio o job w in
  value r = Ok (error_only (lit "No inference script found in VibeVoice directory")) /\
  fs (final r) = fs w /\
  (forall cmd, ~ In (EvSpawn cmd) (events r)).
Proof.
  intros Hv Hw Hstem Hfresh He Ho Hn. cbv zeta.
  destruct (generate_audio_detail o job text names fmt w Hv) as (_ & _ & _ & Htmp).
  destruct (Htmp Hw stem Hstem Hfresh) as (_ & _ & H3).
  destruct (H3 data He Ho) as [_ H]. exact (H Hn).
Qed.

End GenerationProperties.

Section Delivery.
Context {R : PyRuntime}.
Variable o : oracle R.

Lemma wp_read_bytes_at p f w (Q : res (list N) -> world -> list event -> Prop) :
  fs_lookup p (fs w) = Some f ->
  unreadable o p = false ->
  Q (Ok (f_data f)) w [EvRead p] ->
  wp (read_bytes o p) w Q.
Proof.
  intros Hf Hr H. unfold read_bytes. wp_steps. rewrite Hr. wp_steps.
  rewrite Hf. wp_steps. exact H.
Qed.

Lemma generate_audio_returns job w : exists d, value (generate_audio o job w) = Ok d.
Proof.
  change (wp (generate_audio o job) w (fun v _ _ => exists d, v = Ok d)).
  apply wp_generate_audio. unfold wp.
  destruct (value (generate_audio_body o job w)); eauto.
Qed.

Lemma outcome_eta {A} (x y : outcome A) :
  value x = value y -> final x = final y -> events x = events y -> x = y.
Proof. destruct x, y; cbn; now intros -> -> ->. Qed.

End Delivery.

Section HandlerProperties.
Context {R : PyRuntime}.
Variable o : oracle R.

(** X16.  After an exit with status zero, when some file is found and can
    be read, the result is a success whose [audio_base64] is the encoding of
    that file's bytes and whose [size_mb] is their number in mebibytes; the
    file is removed, and every other file is left as it was. *)
Theorem a_delivered_file_is_encoded_and_removed
    (start gt : pyfloat) (text : pystr) (names : list pystr) (fmt : pystr)
    (result : completed) (w : world) :
  returncode result = 0%Z ->
  located (fs w) fmt <> [] ->
  (forall q, unreadable o q = false) ->
  let r := package_result o start gt text names fmt result w in
  exists p f d,
    In p (located (fs w) fmt) /\ fs_lookup p (fs w) = Some f /\
    value r = Ok d /\
    dict_lookup (key "success") d = Some (PBool true) /\
    dict_lookup (key "audio_base64") d = Some (PStr (b64encode (f_data f))) /\
    dict_lookup (key "size_mb") d =
      Some (PFloat (float_round2
                      (float_truediv (float_of_int (Z.of_nat (length (f_data f))))
                                     (float_of_int mebibyte)))) /\
    fs_lookup p (fs (final r)) = None /\
    (forall q, q <> p -> fs_lookup q (fs (final r)) = fs_lookup q (fs w)).
Proof.
  intros Hrc Hloc Hread. cbv zeta.
  change (wp (package_result o start gt text names fmt result) w
            (fun v w' _ =>
               exists p f d,
                 In p (located (fs w) fmt) /\ fs_lookup p (fs w) = Some f /\
                 v = Ok d /\
                 dict_lookup (key "success") d = Some (PBool true) /\
                 dict_lookup (key "audio_base64") d = Some (PStr (b64encode (f_data f))) /\
                 dict_lookup (key "size_mb") d =
                   Some (PFloat (float_round2
                      (float_truediv (float_of_int (Z.of_nat (length (f_data f))))
                                     (float_of_int mebibyte)))) /\
                 fs_lookup p (fs w') = None /\
                 (forall q, q <> p -> fs_lookup q (fs w') = fs_lookup q (fs w)))).
  unfold package_result. rewrite Hrc. cbn [Z.eqb]. wp_step.
  eapply wp_use; [apply find_audio_files_spec|]. cbv beta.
  intros v w1 e1 (-> & -> & _).
  destruct (located (fs w) fmt) as [|a l] eqn:L; [now contradiction Hloc|].
  wp_step. eapply wp_use.
  { apply max_by_mtime_spec; [discriminate|].
    intros q Hq. rewrite <- L in Hq. exact (located_lookup _ _ _ Hq). }
  cbv beta. intros v w1 e2 (-> & -> & p & -> & Hp & _).
  assert (Hf : exists f, fs_lookup p (fs w) = Some f).
  { rewrite <- L in Hp. exact (located_lookup _ _ _ Hp). }
  destruct Hf as [f Hf].
  wp_step. apply (wp_read_bytes_at o p f); [exact Hf | apply Hread |].
  wp_step. eapply wp_use; [apply unlink_quietly_outcome|]. cbv beta.
  intros v w2 e3 (-> & -> & ->).
  wp_step. apply wp_time_time. wp_steps.
  exists p, f. eexists. split; [exact Hp|]. split; [exact Hf|].
  split; [reflexivity|]. split; [reflexivity|]. split; [reflexivity|].
  split; [reflexivity|]. cbn [tick fs set_fs]. split.
  - apply fs_lookup_remove.
  - intros q Hq. apply fs_lookup_remove_other. congruence.
Qed.

Lemma handler_dispatch (job input : pyval R) (w : world) :
  py_get job "input" (PDict []) = Ok input ->
  truthy input = true ->
  py_contains "text" input = Ok true ->
  handler o job w = generate_audio o input w.
Proof.
  intros Hin Ht Hc.
  assert (H : wp (handler o job) w
                 (fun v w' e => v = value (generate_audio o input w) /\
                                w' = final (generate_audio o input w) /\
                                e = events (generate_audio o input w))).
  { destruct job; try discriminate Hin.
    assert (Hid : exists i, py_get (PDict d) "id" (PStr (lit "unknown")) = Ok i)
      by (eexists; reflexivity).
    destruct Hid as [i Hid].
    unfold handler. wp_step. wp_step. wp_step. rewrite Hid. cbv beta iota.
    wp_step. wp_step. rewrite Hin. cbv beta iota. rewrite Ht. cbn [negb].
    wp_step. wp_step. rewrite Hc. cbv beta iota. cbn [negb].
    destruct (generate_audio_returns o input w) as [res Hres].
    unfold wp. rewrite Hres. cbn [app]. repeat split. }
  destruct H as (Hv & Hw & He). now apply outcome_eta.
Qed.

(** X17.  For a job that is a dictionary whose [input] is not empty and
    contains [text], [handler] is [generate_audio] on that input: the same
    result, the same effects. *)
Theorem handler_passes_a_well_formed_input_on (job input : pyval R) (w : world) :
  py_get job "input" (PDict []) = Ok input ->
  truthy input = true ->
  py_contains "text" input = Ok true ->
  handler o job w = generate_audio o input w.
Proof. exact (handler_dispatch job input w). Qed.

(** X18.  Any other job is turned away with nothing queried and nothing
    changed: "No input provided" with the usage example when the input is
    missing, null or empty, "Missing required 'text' parameter" with the
    example when it does not contain [text], and "Handler failed: " with the
    message of the error when the job is no dictionary or the input cannot
    be searched. *)
Theorem handler_turns_a_malformed_job_away_untouched (job : pyval R) (w : world) :
  (forall input, py_get job "input" (PDict []) = Ok input ->
                 truthy input = true -> py_contains "text" input <> Ok true) ->
  let r := handler o job w in
  final r = w /\ events r = [] /\
  (forall x, py_get job "input" (PDict []) = Raise x ->
     value r = Ok (error_only (lit "Handler failed: " ++ exn_msg x))) /\
  (forall input, py_get job "input" (PDict []) = Ok input -> truthy input = false ->
     value r = Ok [(key "error", PStr (lit "No input provided"));
                   (key "example", usage_example)]) /\
  (forall input, py_get job "input" (PDict []) = Ok input -> truthy input = true ->
     py_contains "text" input = Ok false ->
     value r = Ok [(key "error", PStr (lit "Missing required 'text' parameter"));
                   (key "example", usage_example)]) /\
  (forall input x, py_get job "input" (PDict []) = Ok input -> truthy input = true ->
     py_contains "text" input = Raise x ->
     value r = Ok (error_only (lit "Handler failed: " ++ exn_msg x))).
Proof.
  intro Hbad. cbv zeta.
  change (wp (handler o job) w
            (fun v w' e =>
               w' = w /\ e = [] /\
               (forall x, py_get job "input" (PDict []) = Raise x ->
                  v = Ok (error_only (lit "Handler failed: " ++ exn_msg x))) /\
               (forall input, py_get job "input" (PDict []) = Ok input ->
                  truthy input = false ->
                  v = Ok [(key "error", PStr (lit "No input provided"));
                          (key "example", usage_example)]) /\
               (forall input, py_get job "input" (PDict []) = Ok input ->
                  truthy input = true -> py_contains "text" input = Ok false ->
                  v = Ok [(key "error", PStr (lit "Missing required 'text' parameter"));
                          (key "example", usage_example)]) /\
               (forall input x, py_get job "input" (PDict []) = Ok input ->
                  truthy input = true -> py_contains "text" input = Raise x ->
                  v = Ok (error_only (lit "Handler failed: " ++ exn_msg x))))).
  unfold handler. wp_step. wp_step. wp_step.
  destruct (py_get job "id" (PStr (lit "unknown"))) as [job_id|x] eqn:Eid.
  2:{ assert (Hx : py_get job "input" (PDict []) = Raise x).
      { destruct job; cbn in Eid |- *; try discriminate Eid; exact Eid. }
      rewrite Hx. wp_steps. split; [reflexivity|]. split; [reflexivity|].
      repeat apply conj; intros; try discriminate.
      match goal with E : Raise _ = Raise _ |- _ => now injection E as <- end. }
  wp_step. wp_step.
  destruct (py_get job "input" (PDict [])) as [input|x] eqn:Ein.
  2:{ wp_steps. split; [reflexivity|]. split; [reflexivity|].
      repeat apply conj; intros; try discriminate.
      match goal with E : Raise _ = Raise _ |- _ => now injection E as <- end. }
  cbv beta iota. destruct (truthy input) eqn:Et; cbn [negb].
  2:{ wp_steps. split; [reflexivity|]. split; [reflexivity|].
      repeat apply conj; intros; try discriminate; try reflexivity;
        match goal with E : Ok _ = Ok _ |- _ => injection E as <-; congruence end. }
  wp_step. wp_step.
  destruct (py_contains "text" input) as [[|]|x] eqn:Ec.
  - exfalso. exact (Hbad input eq_refl Et Ec).
  - cbv beta iota. cbn [negb]. wp_steps. split; [reflexivity|]. split; [reflexivity|].
    repeat apply conj; intros; try discriminate; try reflexivity;
      match goal with E : Ok _ = Ok _ |- _ => injection E as <-; congruence end.
  - wp_steps. split; [reflexivity|]. split; [reflexivity|].
    repeat apply conj; intros; try discriminate;
      match goal with E : Ok _ = Ok _ |- _ => injection E as <-; congruence end.
Qed.

(** X19.  An input that contains [text] without being a dictionary, such
    as a string or a list, passes the checks of [handler] and fails in
    [generate_audio], which has read the clock and done nothing else:
    "Generation failed: '...' object has no attribute 'get'". *)
Theorem an_input_that_is_no_dictionary_fails_in_generate_audio
    (job input : pyval R) (w : world) :
  py_get job "input" (PDict []) = Ok input ->
  py_contains "text" input = Ok true ->
  (forall d, input <> PDict d) ->
  handler o job w =
  mkOutcome (Ok (error_only (lit "Generation failed: '" ++ type_name input
                             ++ lit "' object has no attribute 'get'")))
            (tick w) [].
Proof.
  intros Hin Hc Hnd.
  assert (Ht : truthy input = true).
  { destruct input as [| | | |s|l|d]; try discriminate Hc.
    - destruct s; [discriminate Hc | reflexivity].
    - destruct l; [discriminate Hc | reflexivity].
    - now contradiction (Hnd d). }
  rewrite (handler_dispatch job input w Hin Ht Hc).
  assert (Hg : py_get input "text" (PStr empty_str) = Raise (no_attribute input "get")).
  { destruct input; try reflexivity. now contradiction (Hnd d). }
  assert (H : wp (generate_audio o input) w
                 (fun v w' e =>
                    v = Ok (error_only (lit "Generation failed: '" ++ type_name input
                                        ++ lit "' object has no attribute 'get'")) /\
                    w' = tick w /\ e = [])).
  { apply wp_generate_audio. unfold generate_audio_body.
    wp_step. apply wp_time_time. wp_step. wp_step. rewrite Hg. cbv beta iota.
    repeat split. }
  destruct H as (Hv & Hw & He). now apply outcome_eq.
Qed.

End HandlerProperties.

Section Health.
Context {R : PyRuntime}.
Variable o : oracle R.
Variable g : gpu.

Lemma wp_cuda w (Q : res bool -> world -> list event -> Prop) :
  match cuda_is_available o with
  | Some b => Q (Ok b) w [EvCudaQuery]
  | None => forall x, Q (Raise x) w [EvCudaQuery]
  end ->
  wp (torch_cuda_is_available o) w Q.
Proof.
  intro H. unfold torch_cuda_is_available. wp_steps.
  destruct (cuda_is_available o); wp_steps; [exact H | apply H].
Qed.

Lemma wp_device_count w (Q : res Z -> world -> list event -> Prop) :
  match device_count g with
  | Some n => Q (Ok n) w []
  | None => forall x, Q (Raise x) w []
  end ->
  wp (torch_cuda_device_count g) w Q.
Proof.
  intro H. unfold torch_cuda_device_count, probe.
  destruct (device_count g); wp_steps; [exact H | apply H].
Qed.

Lemma wp_of_first_device (x : option pystr) w
    (Q : res (pyval R) -> world -> list event -> Prop) :
  match device_count g with
  | None => forall e, Q (Raise e) w []
  | Some n =>
      if (0 <? n)%Z
      then match x with
           | Some s => Q (Ok (PStr s)) w []
           | None => forall e, Q (Raise e) w []
           end
      else Q (Ok PNone) w []
  end ->
  wp (of_first_device g x) w Q.
Proof.
  intro H. unfold of_first_device. wp_step. apply wp_device_count.
  destruct (device_count g) as [n|]; [|exact H].
  destruct (0 <? n)%Z.
  - unfold probe. destruct x; wp_steps; [exact H | apply H].
  - wp_steps. exact H.
Qed.

Lemma health_check_outcome w :
  wp (health_check o g) w
     (fun v w' e =>
        same_globals w w' /\ e = [EvCudaQuery] /\
        exists d, v = Ok d /\
          if probes_answer o g then
            ticks w' = S (ticks w) /\
            dict_lookup (key "status") d =
              Some (PStr (if model_initialized w then lit "healthy" else lit "initializing")) /\
            dict_lookup (key "model_loaded") d = Some (PBool (model_initialized w)) /\
            dict_lookup (key "device") d =
              Some (match device w with Some x => PStr x | None => PNone end) /\
            dict_lookup (key "timestamp") d = Some (PFloat (clock o (ticks w))) /\
            dict_lookup (key "error") d = None /\
            (dict_lookup (key "gpu_info") d <> None <-> cuda_is_available o = Some true)
          else
            ticks w' = S (S (ticks w)) /\
            dict_lookup (key "status") d = Some (PStr (lit "unhealthy")) /\
            dict_lookup (key "timestamp") d = Some (PFloat (clock o (S (ticks w)))) /\
            dict_lookup (key "error") d <> None /\
            dict_lookup (key "model_loaded") d = None).
Proof.
  assert (Hbad : forall x : exn,
            wp (timestamp <- time_time o ;;
                ret [(key "status", PStr (lit "unhealthy"));
                     (key "error", PStr (exn_msg x));
                     (key "timestamp", PFloat timestamp)]) (tick w)
               (fun v w' e =>
                  same_globals w w' /\ [EvCudaQuery] ++ e = [EvCudaQuery] /\
                  exists d : pydict R, v = Ok d /\
                    ticks w' = S (S (ticks w)) /\
                    dict_lookup (key "status") d = Some (PStr (lit "unhealthy")) /\
                    dict_lookup (key "timestamp") d = Some (PFloat (clock o (S (ticks w)))) /\
                    dict_lookup (key "error") d <> None /\
                    dict_lookup (key "model_loaded") d = None)).
  { intro x. wp_step. apply wp_time_time. wp_steps.
    split; [repeat split|]. split; [reflexivity|].
    eexists. split; [reflexivity|]. cbn. repeat split.
    intro E. discriminate E. }
  unfold health_check, probes_answer.
  wp_step. wp_steps. apply wp_time_time. wp_step. apply wp_cuda. cbn [app].
  destruct (cuda_is_available o) as [[|]|].
  - apply wp_bind, wp_device_count.
    destruct (device_count g) as [n|] eqn:En; [|intro x; exact (Hbad x)].
    apply wp_bind, wp_of_first_device. rewrite En.
    destruct (0 <? n)%Z eqn:Epos.
    + destruct (get_device_name g) as [nm|]; [|intro x; exact (Hbad x)].
      apply wp_bind, wp_of_first_device. rewrite En, Epos.
      destruct (total_memory_gb g) as [mem|]; [|intro x; exact (Hbad x)].
      wp_steps. split; [repeat split|]. split; [reflexivity|].
      eexists. split; [reflexivity|]. cbn.
      repeat split; try (intro E; discriminate E); try (intros _ E; discriminate E).
    + apply wp_bind, wp_of_first_device. rewrite En, Epos.
      wp_steps. split; [repeat split|]. split; [reflexivity|].
      eexists. split; [reflexivity|]. cbn.
      repeat split; try (intro E; discriminate E); try (intros _ E; discriminate E).
  - wp_steps. split; [repeat split|]. split; [reflexivity|].
    eexists. split; [reflexivity|]. cbn. repeat split.
    + intro H. now contradiction H.
    + intro E. discriminate E.
  - intro x. exact (Hbad x).
Qed.

End Health.

Section Overlap.
Context {R : PyRuntime}.
Variable o : oracle R.

Hypothesis Hcuda : cuda_is_available o <> None.

(** A step of a call keeps the files, keeps what holds of the other calls,
    and leaves the call that moved settled. *)
Lemma thread_step_settled p w :
  fs_exists (env_model_path o) (fs w) = true ->
  settled o w p ->
  wp (thread_step o p) w
     (fun v w' _ =>
        fs w' = fs w /\
        (forall q, settled o w q -> settled o w' q) /\
        exists p', v = Ok p' /\ settled o w' p').
Proof.
  intros Hfs Hp. destruct p; cbn [thread_step settled] in *.
  - wp_steps. split; [reflexivity|]. split; [auto|].
    destruct (model_initialized w) eqn:E; eexists; split; try reflexivity; cbn; auto.
  - wp_step. wp_step. apply wp_time_time. wp_step. apply wp_cuda.
    destruct (cuda_is_available o) as [cuda|]; [|now contradiction Hcuda].
    wp_steps. split; [reflexivity|]. split.
    + intros [] Hq; exact Hq.
    + eexists. split; [reflexivity|]. exact I.
  - wp_steps. split; [reflexivity|]. split.
    + intros [] Hq; cbn [settled] in *; try exact I; try reflexivity; exact Hq.
    + eexists. split; [reflexivity|]. reflexivity.
  - wp_steps. rewrite Hp. cbv beta iota. wp_step. apply wp_os_path_exists_at. rewrite Hfs.
    wp_steps. split; [reflexivity|]. split; [auto|].
    eexists. split; [reflexivity|]. exact Hp.
  - wp_steps. rewrite Hp. cbv beta iota. wp_step. apply wp_os_path_exists_at.
    destruct (fs_exists (os_path_join _ _) (fs w)); cbv beta iota; cbn [negb]; unfold path_glob; wp_steps;
      (split; [reflexivity|]); (split; [auto|]);
      eexists; (split; [reflexivity|]); exact Hp.
  - wp_steps. apply wp_time_time. wp_steps. split; [reflexivity|]. split.
    + intros [] Hq; cbn [settled] in *; try exact I; try exact Hq.
      destruct Hq as [-> _]. now split.
    + eexists. split; [reflexivity|]. now split.
  - wp_steps. split; [reflexivity|]. split; [auto|].
    eexists. split; [reflexivity|]. exact Hp.
Qed.

Lemma run_schedule_settled schedule : forall pool w,
  fs_exists (env_model_path o) (fs w) = true ->
  Forall (settled o w) pool ->
  wp (run_schedule o schedule pool) w
     (fun v w' _ =>
        fs w' = fs w /\ exists pool', v = Ok pool' /\ Forall (settled o w') pool').
Proof.
  induction schedule as [|i rest IH]; intros pool w Hfs Hpool; cbn [run_schedule].
  - wp_steps. split; [reflexivity|]. eauto.
  - wp_step. unfold pool_step.
    destruct (nth_error pool i) as [p|] eqn:E.
    + wp_step. eapply wp_use.
      { apply (thread_step_settled p w Hfs).
        rewrite Forall_forall in Hpool. apply Hpool. eapply nth_error_In, E. }
      cbv beta. intros v w1 e1 (Hfs1 & Hkeep & p' & -> & Hp').
      wp_steps. eapply wp_use.
      { apply (IH (set_nth i p' pool) w1); [now rewrite Hfs1|].
        apply Forall_set_nth; [|exact Hp'].
        eapply Forall_impl; [|exact Hpool]. exact Hkeep. }
      cbv beta. intros v w2 e2 (Hfs2 & pool' & -> & H2).
      split; [congruence|]. eauto.
    + wp_steps. eapply wp_use; [apply (IH pool w Hfs Hpool)|].
      cbv beta. intros v w2 e2 H. exact H.
Qed.

End Overlap.

Section WorkerProperties.
Context {R : PyRuntime}.
Variable o : oracle R.
Variable g : gpu.

(** X20.  Where the device can be queried and the model path exists, calls
    of [initialize_model] that overlap, whatever the interleaving of their
    steps, return nothing but [True]; once one has returned the worker is
    ready, and the files are untouched. *)
Theorem overlapping_calls_all_return_true (schedule : list nat) (n : nat) (w : world) :
  cuda_is_available o <> None ->
  fs_exists (env_model_path o) (fs w) = true ->
  let r := run_schedule o schedule (repeat AtCheck n) w in
  exists pool,
    value r = Ok pool /\
    (forall b, In (Returned b) pool ->
       b = true /\ model_initialized (final r) = true) /\
    fs (final r) = fs w.
Proof.
  intros Hcuda Hfs. cbv zeta.
  assert (H0 : Forall (settled o w) (repeat AtCheck n)).
  { apply Forall_forall. intros p Hp. apply repeat_spec in Hp. subst p. exact I. }
  destruct (run_schedule_settled o Hcuda schedule (repeat AtCheck n) w Hfs H0)
    as (Hfs' & pool & Hv & Hall).
  exists pool. split; [exact Hv|]. split; [|exact Hfs'].
  intros b Hb. rewrite Forall_forall in Hall. exact (Hall _ Hb).
Qed.

(** X21.  [health_check] raises nothing and changes neither the module
    globals nor a file; it queries the device once.  It reports "unhealthy"
    exactly when one of its probes of the device raises. *)
Theorem health_check_reads_and_never_raises (w : world) :
  let r := health_check o g w in
  same_globals w (final r) /\
  events r = [EvCudaQuery] /\
  exists d, value r = Ok d /\
    (dict_lookup (key "status") d = Some (PStr (lit "unhealthy")) <->
     probes_answer o g = false).
Proof.
  cbv zeta. destruct (health_check_outcome o g w) as (Hg & He & d & Hd & H).
  split; [exact Hg|]. split; [exact He|]. exists d. split; [exact Hd|].
  destruct (probes_answer o g).
  - destruct H as (_ & Hs & _). rewrite Hs. split; [|discriminate].
    destruct (model_initialized w); intro E; discriminate E.
  - destruct H as (_ & Hs & _). now split.
Qed.

(** X22.  When its probes answer, [health_check] reports "healthy" for a
    ready worker and "initializing" otherwise, the flag as [model_loaded],
    the recorded device (or null), the time of the call and no error; it
    adds [gpu_info] exactly when CUDA is available. *)
Theorem health_check_reports_the_globals (w : world) (d : pydict R) :
  probes_answer o g = true ->
  value (health_check o g w) = Ok d ->
  dict_lookup (key "status") d =
    Some (PStr (if model_initialized w then lit "healthy" else lit "initializing")) /\
  dict_lookup (key "model_loaded") d = Some (PBool (model_initialized w)) /\
  dict_lookup (key "device") d =
    Some (match device w with Some x => PStr x | None => PNone end) /\
  dict_lookup (key "timestamp") d = Some (PFloat (clock o (ticks w))) /\
  dict_lookup (key "error") d = None /\
  (dict_lookup (key "gpu_info") d <> None <-> cuda_is_available o = Some true).
Proof.
  intros Hp Hd. destruct (health_check_outcome o g w) as (_ & _ & d' & Hd' & H).
  rewrite Hp in H. assert (d' = d) by congruence. subst d'.
  destruct H as (_ & H). exact H.
Qed.

(** X23.  After a call of [initialize_model], [health_check] tells how it
    went: "healthy" and loaded after [True], "initializing" and not loaded
    after [False]; after an attempt the device it shows is the one the
    attempt chose. *)
Theorem health_check_tells_whether_initialization_worked (w : world) (b : bool)
    (d : pydict R) :
  probes_answer o g = true ->
  value (initialize_model o w) = Ok b ->
  value (health_check o g (final (initialize_model o w))) = Ok d ->
  dict_lookup (key "status") d =
    Some (PStr (if b then lit "healthy" else lit "initializing")) /\
  dict_lookup (key "model_loaded") d = Some (PBool b) /\
  (model_initialized w = false ->
   forall cuda, cuda_is_available o = Some cuda ->
     dict_lookup (key "device") d = Some (PStr (if cuda then lit "cuda" else lit "cpu"))).
Proof.
  intros Hp Hb Hd.
  destruct (health_check_outcome o g (final (initialize_model o w)))
    as (_ & _ & d' & Hd' & H).
  rewrite Hp in H. assert (d' = d) by congruence. subst d'.
  destruct H as (_ & Hs & Hl & Hdev & _).
  destruct (initialize_model_outcome o w) as (_ & _ & _ & Hrec).
  destruct (initialize_model_spec o w) as (b' & Hb' & _ & Hflag & _).
  assert (Hbb : b' = b) by congruence. rewrite Hbb in Hflag.
  rewrite Hflag in Hs, Hl. split; [exact Hs|]. split; [exact Hl|].
  intros Hw cuda Hc. specialize (Hrec Hw). rewrite Hc in Hrec.
  destruct Hrec as [Hdv _]. now rewrite Hdv in Hdev.
Qed.

End WorkerProperties.

(** ** The claims at concrete inputs *)

Local Abbreviation R := Sample.runtime (only parsing).

Ltac pick := repeat first [left; reflexivity | right].

Lemma rev_of_repeat {A} (x : A) n : rev (repeat x n) = repeat x n.
Proof.
  induction n as [|n IH]; [reflexivity|].
  cbn [repeat rev]. rewrite IH. symmetry. apply repeat_cons.
Qed.

Lemma lstrip_letters n : lstrip (repeat 97%N n) = repeat 97%N n.
Proof. destruct n; reflexivity. Qed.

(** A blank before letters is all that [strip] removes. *)
Lemma strip_blank_then_letters n : strip (32%N :: repeat 97%N n) = repeat 97%N n.
Proof.
  unfold strip, rstrip.
  change (lstrip (32%N :: repeat 97%N n)) with (lstrip (repeat 97%N n)).
  now rewrite lstrip_letters, rev_of_repeat, lstrip_letters, rev_of_repeat.
Qed.

(** A blank followed by 10,000 letters trims to 10,000 characters and is
    rejected as too long; three blanks are accepted and trim to nothing. *)
Lemma validate_text_trims_after_checking :
  validate_text (R:=R) (PStr padded_text) = Raise err_text_too_long
  /\ N.of_nat (length (strip padded_text)) = 10000%N
  /\ validate_text (R:=R) (PStr (lit "   ")) = Ok [].
Proof.
  split; [|split; [|reflexivity]].
  - unfold validate_text, padded_text.
    cbn [truthy isinstance_str negb orb py_len length].
    rewrite repeat_length. reflexivity.
  - unfold padded_text. rewrite strip_blank_then_letters, repeat_length. reflexivity.
Qed.

(** A short text between blanks is accepted and trimmed. *)
Lemma validate_text_checks_raw_length_witness :
  (1 <= N.of_nat (length (lit "  hi  ")) <= 10000)%N /\
  strip (lit "  hi  ") <> [] /\
  validate_text (R:=R) (PStr (lit "  hi  ")) = Ok (lit "hi").
Proof.
  assert (H1 : (1 <= N.of_nat (length (lit "  hi  ")) <= 10000)%N) by (cbn; lia).
  assert (H2 : strip (lit "  hi  ") <> []) by (vm_compute; discriminate).
  split; [exact H1|]. split; [exact H2|].
  exact (proj2 (proj2 (validate_text_checks_raw_length (R:=R) (PStr (lit "  hi  "))))
               (lit "  hi  ") eq_refl H1 H2).
Defined.

(** The number 5 as output format raises, and the job fails. *)
Lemma output_format_raises_on_a_number :
  validate_output_format (R:=R) (PInt 5) = Raise (no_attribute (R:=R) (PInt 5) "lower")
  /\ value (handler (machine (R:=R) child_hangs)
                    (job_of [(lit "text", PStr hello); (lit "output_format", PInt 5)])
                    fresh_world)
     = Ok (error_only (lit "Generation failed: 'int' object has no attribute 'lower'")).
Proof. split; reflexivity. Qed.

(** Upper-case FLAC is flac. *)
Lemma output_format_defaults_witness :
  (truthy (R:=R) (PStr (lit "FLAC")) = false \/
   isinstance_str (R:=R) (PStr (lit "FLAC")) = true) /\
  validate_output_format (R:=R) (PStr (lit "FLAC")) = Ok (lit "flac").
Proof.
  assert (H : truthy (R:=R) (PStr (lit "FLAC")) = false \/
              isinstance_str (R:=R) (PStr (lit "FLAC")) = true) by (right; reflexivity).
  split; [exact H|].
  destruct (proj1 (output_format_defaults_on_strings_and_falsy (R:=R) (PStr (lit "FLAC"))) H)
    as (f & Hf & _ & _ & _ & _ & Hcase).
  rewrite Hf. f_equal.
  apply (Hcase (lit "FLAC") (lit "flac") eq_refl); [reflexivity | pick | reflexivity].
Defined.

(** A child that hangs: the timeout failure, one start, no temporary file
    left. *)
Lemma timeout_witness :
  let r := generate_audio (machine (R:=R) child_hangs) (text_job hello) fresh_world in
  In EvKill (events r) /\
  value r = Ok (error_only timeout_message) /\
  spawns (events r) = 1 /\
  forall p, In (EvCreate p) (events r) -> fs_lookup p (fs (final r)) = None.
Proof.
  cbv zeta.
  assert (H : In EvKill (events (generate_audio (machine (R:=R) child_hangs)
                                                (text_job hello) fresh_world)))
    by (vm_compute; pick).
  pose proof (timeout_is_reported_once_and_cleaned_up
                (machine (R:=R) child_hangs) (text_job hello) fresh_world) as T.
  cbv zeta in T. destruct T as [T1 T2].
  split; [exact H|]. split; [exact (proj1 T1 H) | exact (T2 H)].
Defined.

(** A call fails on a machine without the model, the next one succeeds
    where the model is in place. *)
Lemma readiness_witness :
  let o := machine (R:=R) child_hangs in
  let missing := mkWorld false None None [] 0 in
  value (initialize_model o missing) = Ok false /\
  attempts (events (initialize_model o fresh_world)) = 1 /\
  value (initialize_model o fresh_world) = Ok true /\
  model_initialized (final (initialize_model o fresh_world)) = true.
Proof.
  cbv zeta.
  assert (H : value (initialize_model (machine (R:=R) child_hangs)
                                      (mkWorld false None None [] 0)) = Ok false)
    by reflexivity.
  split; [exact H|].
  refine (proj2 (proj2 (proj2 (readiness_is_reached_once_and_failure_is_retried
                                 (machine (R:=R) child_hangs))))
          (machine (R:=R) child_hangs) (mkWorld false None None [] 0) fresh_world
          H eq_refl _ eq_refl).
  discriminate.
Defined.

(** Of two takes the later one is read, though it is listed last. *)
Lemma latest_take_witness :
  let w := set_fs (model_files ++ two_takes) fresh_world in
  let result := mkCompleted 0 [] [] in
  let r := package_result (R:=R) (machine child_hangs) 0%Z 0%Z hello
                          [lit "Alice"; lit "Bob"] (lit "wav") result w in
  returncode result = 0%Z /\
  located (fs w) (lit "wav")
    = [lit "/app/VibeVoice/take1.wav"; lit "/app/VibeVoice/outputs/take2.wav"] /\
  In (EvRead (lit "/app/VibeVoice/outputs/take2.wav")) (events r).
Proof.
  cbv zeta. split; [reflexivity|]. split; [reflexivity|].
  pose proof (artifact_search_order_and_latest (R:=R) (machine child_hangs) 0%Z 0%Z hello
                [lit "Alice"; lit "Bob"] (lit "wav") (mkCompleted 0 [] [])
                (set_fs (model_files ++ two_takes) fresh_world) eq_refl) as T.
  cbv zeta in T. destruct T as [_ T].
  change (located (fs (set_fs (model_files ++ two_takes) fresh_world)) (lit "wav"))
    with [lit "/app/VibeVoice/take1.wav"; lit "/app/VibeVoice/outputs/take2.wav"] in T.
  destruct T as (p & Hp & Hmax & Hread).
  destruct Hp as [<- | [<- | []]].
  - exfalso.
    specialize (Hmax (lit "/app/VibeVoice/outputs/take2.wav") (or_intror (or_introl eq_refl))).
    vm_compute in Hmax. now apply Hmax.
  - now apply Hread.
Defined.

(** A child that exits with status 1 and writes nothing to its standard
    error leaves an empty excerpt in the failure. *)
Lemma stderr_excerpt_can_be_empty :
  let r := generate_audio (machine (R:=R) (child_fails 1 (lit "o") []))
                          (text_job hello) fresh_world in
  In (EvExit 1 (lit "o") []) (events r) /\
  value r = Ok [(key "error", PStr (lit "Generation failed: "));
                (key "stdout", PStr (lit "o"))].
Proof. cbv zeta. split; [vm_compute; pick | reflexivity]. Qed.

(** A child that exits with status 1 after writing to both streams. *)
Lemma failure_excerpts_witness :
  let r := generate_audio (machine (R:=R) (child_fails 1 (lit "o") (lit "boom")))
                          (text_job hello) fresh_world in
  In (EvExit 1 (lit "o") (lit "boom")) (events r) /\
  value r = Ok [(key "error", PStr (lit "Generation failed: boom"));
                (key "stdout", PStr (lit "o"))].
Proof.
  cbv zeta.
  assert (H : In (EvExit 1 (lit "o") (lit "boom"))
                 (events (generate_audio (machine (R:=R) (child_fails 1 (lit "o") (lit "boom")))
                                         (text_job hello) fresh_world)))
    by (vm_compute; pick).
  split; [exact H|].
  refine (proj1 (failures_carry_capped_excerpts
                   (machine (R:=R) (child_fails 1 (lit "o") (lit "boom")))
                   (text_job hello) fresh_world 1%Z (lit "o") (lit "boom") H) _).
  discriminate.
Defined.

(** Two calls that overlap each perform their own attempt. *)
Lemma overlapping_calls_attempt_twice :
  let r := run_schedule (machine (R:=R) child_hangs)
                        [0; 1; 0; 1; 0; 1; 0; 1; 0; 1; 0; 1]
                        [AtCheck; AtCheck] fresh_world in
  value r = Ok [Returned true; Returned true] /\
  attempts (events r) = 2.
Proof. vm_compute. split; reflexivity. Qed.

(** Three calls in a row: one attempt. *)
Lemma successive_calls_witness :
  let o := machine (R:=R) child_hangs in
  model_initialized fresh_world = false /\
  cuda_is_available o <> None /\
  fs_exists (env_model_path o) (fs fresh_world) = true /\
  value (call_n o 3 fresh_world) = Ok [true; true; true] /\
  attempts (events (call_n o 3 fresh_world)) = 1.
Proof.
  cbv zeta.
  assert (H1 : model_initialized fresh_world = false) by reflexivity.
  assert (H2 : cuda_is_available (machine (R:=R) child_hangs) <> None) by discriminate.
  assert (H3 : fs_exists (env_model_path (machine (R:=R) child_hangs)) (fs fresh_world) = true)
    by reflexivity.
  split; [exact H1|]. split; [exact H2|]. split; [exact H3|].
  destruct (successive_calls_initialize_once (machine (R:=R) child_hangs) 2 fresh_world H1)
    as [T _].
  destruct (T H2 H3) as (T1 & T2 & _).
  split; [exact T1 | exact T2].
Defined.

(** The child leaves an mp3 and wav was asked for: the result says wav. *)
Lemma fallback_format_witness :
  let r := generate_audio (machine (R:=R) (child_writes an_mp3 [] []))
                          (text_job hello) fresh_world in
  (exists d, value r = Ok d /\ dict_lookup (key "success") d = Some (PBool true) /\
             dict_lookup (key "format") d = Some (PStr (lit "wav"))) /\
  In (EvRead (lit "/app/VibeVoice/outputs/out.mp3")) (events r).
Proof.
  cbv zeta. split; [|vm_compute; pick].
  assert (E : value (generate_audio (machine (R:=R) (child_writes an_mp3 [] []))
                                    (text_job hello) fresh_world)
              = Ok [(key "success", PBool true);
                    (key "audio_base64", PStr (lit "SUQzBA=="));
                    (key "format", PStr (lit "wav"));
                    (key "size_mb", PFloat (0%Z : @pyfloat R));
                    (key "speakers", PList [PStr (lit "Alice"); PStr (lit "Bob")]);
                    (key "text_length", PInt 32);
                    (key "generation_time", PFloat (100%Z : @pyfloat R));
                    (key "total_time", PFloat (500%Z : @pyfloat R))])
    by reflexivity.
  eexists. split; [exact E|]. split; [reflexivity|].
  destruct (proj1 (success_reports_requested_format
                     (machine (R:=R) (child_writes an_mp3 [] [])))
                  (text_job hello) fresh_world _ E eq_refl) as (fmt & Hfmt & Hd).
  vm_compute in Hfmt. injection Hfmt as <-. exact Hd.
Defined.

(** ** More of the handler at concrete inputs *)

Lemma hello_is_validated :
  validated (R:=R) (text_job hello) hello [lit "Alice"; lit "Bob"] (lit "wav").
Proof.
  exists (PStr hello), (PList default_speakers), (PStr (lit "wav")).
  repeat split; reflexivity.
Qed.

(** A short text between blanks comes back trimmed. *)
Lemma validate_text_accepts_witness :
  validate_text (R:=R) (PStr (lit "  hi  ")) = Ok (lit "hi") /\
  (N.of_nat (length (lit "hi")) <= 10000)%N /\
  lstrip (lit "hi") = lit "hi" /\ rstrip (lit "hi") = lit "hi".
Proof.
  assert (H : validate_text (R:=R) (PStr (lit "  hi  ")) = Ok (lit "hi")) by reflexivity.
  split; [exact H|].
  exact (proj2 (validate_text_accepts_only_bounded_strings (R:=R) _ _ H)).
Defined.

(** A number is rejected as an empty text. *)
Lemma validate_text_raises_witness :
  validate_text (R:=R) (PInt 3) = Raise err_text_empty /\
  (isinstance_str (R:=R) (PInt 3) = false \/ PInt (R:=R) 3 = PStr []).
Proof.
  assert (H : validate_text (R:=R) (PInt 3) = Raise err_text_empty) by reflexivity.
  split; [exact H|].
  destruct (validate_text_raises_only_value_errors (R:=R) _ _ H) as [[_ T] | [E _]];
    [exact T | discriminate E].
Defined.

(** The trimmed text passes again. *)
Lemma validate_text_idempotent_witness :
  validate_text (R:=R) (PStr (lit "  hi  ")) = Ok (lit "hi") /\
  validate_text (R:=R) (PStr (lit "hi")) = Ok (lit "hi").
Proof.
  assert (H : validate_text (R:=R) (PStr (lit "  hi  ")) = Ok (lit "hi")) by reflexivity.
  split; [exact H|].
  apply (validate_text_is_idempotent (R:=R) _ _ H). discriminate.
Defined.

(** One speaker alone is replaced by the default pair. *)
Lemma speaker_names_default_witness :
  length [PStr (R:=R) (lit "Solo")] < 2 /\
  validate_speaker_names (R:=R) (PList [PStr (lit "Solo")]) = [lit "Alice"; lit "Bob"].
Proof.
  assert (H : length [PStr (R:=R) (lit "Solo")] < 2) by (cbn; lia).
  split; [exact H|].
  exact (speaker_names_default_when_short (R:=R) (PList [PStr (lit "Solo")]) H).
Defined.

(** A name, a number and a blank give two names, which come back as they
    are. *)
Lemma speaker_names_idempotent_witness :
  validate_speaker_names (R:=R) (PList [PStr (lit " Ann "); PInt 7; PStr (lit " ")])
    = [lit "Ann"; lit "7"] /\
  validate_speaker_names (R:=R) (PList [PStr (lit "Ann"); PStr (lit "7")])
    = [lit "Ann"; lit "7"].
Proof.
  assert (H : 2 <= length (validate_speaker_names (R:=R)
                             (PList [PStr (lit " Ann "); PInt 7; PStr (lit " ")])))
    by (vm_compute; lia).
  split; [reflexivity|].
  exact (speaker_names_normalization_is_idempotent (R:=R) _ H).
Defined.

(** MP3 in capitals is mp3, and mp3 stays mp3. *)
Lemma output_format_idempotent_witness :
  validate_output_format (R:=R) (PStr (lit "MP3")) = Ok (lit "mp3") /\
  validate_output_format (R:=R) (PStr (lit "mp3")) = Ok (lit "mp3").
Proof.
  assert (H : validate_output_format (R:=R) (PStr (lit "MP3")) = Ok (lit "mp3"))
    by reflexivity.
  split; [exact H|].
  exact (proj2 (output_format_normalization_is_idempotent (R:=R) _ _ H)).
Defined.

(** An input without a text. *)
Lemma invalid_text_witness :
  generate_audio (machine (R:=R) child_hangs) (PDict []) fresh_world
  = mkOutcome (Ok (error_only (lit "Invalid input: Text must be a non-empty string")))
              (tick fresh_world) [].
Proof.
  exact (invalid_text_is_rejected_before_anything_happens
           (machine (R:=R) child_hangs) (PDict []) (PStr []) err_text_empty fresh_world
           eq_refl eq_refl).
Defined.

(** A machine on which nothing is installed. *)
Lemma failed_initialization_witness :
  let bare := mkWorld false None None [] 0 in
  let r := generate_audio (machine (R:=R) child_hangs) (text_job hello) bare in
  will_be_ready (machine (R:=R) child_hangs) bare = false /\
  value r = Ok (error_only (lit "Model initialization failed")) /\
  fs (final r) = [].
Proof.
  cbv zeta. split; [reflexivity|].
  destruct (failed_initialization_creates_nothing
              (machine (R:=R) child_hangs) (text_job hello) hello
              [lit "Alice"; lit "Bob"] (lit "wav") (mkWorld false None None [] 0)
              hello_is_validated eq_refl) as (T1 & T2 & _).
  split; [exact T1 | exact T2].
Defined.


(** The command of a job that gives only its text, on a fresh worker. *)
Lemma script_start_witness :
  let o := machine (R:=R) (child_writes an_mp3 [] []) in
  let r := generate_audio o (text_job hello) fresh_world in
  let cmd := [lit "python"; default_script; lit "--model_path"; default_model_path;
              lit "--txt_path"; lit "/tmp/tmpab12cd34.txt"; lit "--speaker_names";
              lit "Alice"; lit "Bob"] in
  In (EvSpawn cmd) (events r) /\
  child_ran o cmd (fs fresh_world ++ [(lit "/tmp/tmpab12cd34.txt", mkFile hello 0)])
            (events r).
Proof.
  cbv zeta.
  assert (H : In (EvSpawn [lit "python"; default_script; lit "--model_path";
                           default_model_path; lit "--txt_path";
                           lit "/tmp/tmpab12cd34.txt"; lit "--speaker_names";
                           lit "Alice"; lit "Bob"])
                 (events (generate_audio (machine (R:=R) (child_writes an_mp3 [] []))
                                         (text_job hello) fresh_world)))
    by (vm_compute; pick).
  split; [exact H|].
  destruct (the_script_is_started_on_the_validated_input
              (machine (R:=R) (child_writes an_mp3 [] [])) (text_job hello) hello
              [lit "Alice"; lit "Bob"] (lit "wav") fresh_world _ hello_is_validated H)
    as (script & mp & stem & data & Hs & He & _ & _ & _ & _ & Hran).
  cbn in Hs. injection Hs as <-. cbn in He. injection He as <-. exact Hran.
Defined.

(** The success of that job tells the length of the text and the two
    default speakers. *)
Lemma success_fields_witness :
  let r := generate_audio (machine (R:=R) (child_writes an_mp3 [] []))
                          (text_job hello) fresh_world in
  exists d, value r = Ok d /\
            dict_lookup (key "success") d = Some (PBool true) /\
            dict_lookup (key "text_length") d = Some (PInt (Z.of_nat (length hello))) /\
            dict_lookup (key "speakers") d
              = Some (PList [PStr (lit "Alice"); PStr (lit "Bob")]).
Proof.
  cbv zeta.
  assert (E : value (generate_audio (machine (R:=R) (child_writes an_mp3 [] []))
                                    (text_job hello) fresh_world)
              = Ok [(key "success", PBool true);
                    (key "audio_base64", PStr (lit "SUQzBA=="));
                    (key "format", PStr (lit "wav"));
                    (key "size_mb", PFloat (0%Z : @pyfloat R));
                    (key "speakers", PList [PStr (lit "Alice"); PStr (lit "Bob")]);
                    (key "text_length", PInt 32);
                    (key "generation_time", PFloat (100%Z : @pyfloat R));
                    (key "total_time", PFloat (500%Z : @pyfloat R))])
    by reflexivity.
  eexists. split; [exact E|]. split; [reflexivity|].
  destruct (success_reports_the_validated_text_and_speakers
              (machine (R:=R) (child_writes an_mp3 [] [])) (text_job hello) hello
              [lit "Alice"; lit "Bob"] (lit "wav") fresh_world _
              hello_is_validated E eq_refl) as (T1 & T2 & _).
  split; [exact T1 | exact T2].
Defined.

(** The model is there and no script is. *)
Lemma no_script_witness :
  let w := set_fs model_only fresh_world in
  let r := generate_audio (machine (R:=R) child_hangs) (text_job hello) w in
  script_choice (fs w ++ [(lit "/tmp/tmpab12cd34.txt", mkFile hello 0)]) = None /\
  value r = Ok (error_only (lit "No inference script found in VibeVoice directory")) /\
  fs (final r) = model_only.
Proof.
  cbv zeta. split; [reflexivity|].
  destruct (without_a_script_nothing_is_started_and_nothing_is_left
              (machine (R:=R) child_hangs) (text_job hello) hello
              [lit "Alice"; lit "Bob"] (lit "wav") (lit "/tmp/tmpab12cd34") hello
              (set_fs model_only fresh_world)
              hello_is_validated eq_refl eq_refl eq_refl eq_refl eq_refl eq_refl)
    as (T1 & T2 & _).
  split; [exact T1 | exact T2].
Defined.

(** The mp3 the child left is encoded and removed. *)
Lemma delivered_file_witness :
  let w := set_fs (model_files ++ an_mp3) fresh_world in
  let r := package_result (R:=R) (machine child_hangs) 0%Z 0%Z hello
                          [lit "Alice"; lit "Bob"] (lit "wav") (mkCompleted 0 [] []) w in
  located (fs w) (lit "wav") <> [] /\
  exists d, value r = Ok d /\
            dict_lookup (key "audio_base64") d
              = Some (PStr (@b64encode R [73; 68; 51; 4]%N)) /\
            fs_lookup (lit "/app/VibeVoice/outputs/out.mp3") (fs (final r)) = None.
Proof.
  cbv zeta.
  assert (H : located (fs (set_fs (model_files ++ an_mp3) fresh_world)) (lit "wav") <> [])
    by (vm_compute; discriminate).
  split; [exact H|].
  destruct (a_delivered_file_is_encoded_and_removed
              (R:=R) (machine child_hangs) 0%Z 0%Z hello [lit "Alice"; lit "Bob"]
              (lit "wav") (mkCompleted 0 [] []) (set_fs (model_files ++ an_mp3) fresh_world)
              eq_refl H (fun _ => eq_refl))
    as (p & f & d & Hp & Hf & Hv & _ & Ha & _ & Hgone & _).
  vm_compute in Hp. destruct Hp as [<- | []].
  vm_compute in Hf. injection Hf as <-.
  exists d. split; [exact Hv|]. split; [exact Ha | exact Hgone].
Defined.

(** A job with an id and a text. *)
Lemma handler_dispatch_witness :
  handler (machine (R:=R) child_hangs) (job_of [(lit "text", PStr hello)]) fresh_world
  = generate_audio (machine (R:=R) child_hangs) (text_job hello) fresh_world.
Proof.
  exact (handler_passes_a_well_formed_input_on
           (machine (R:=R) child_hangs) (job_of [(lit "text", PStr hello)])
           (text_job hello) fresh_world eq_refl eq_refl eq_refl).
Defined.

(** A job without an input. *)
Lemma malformed_job_witness :
  let r := handler (machine (R:=R) child_hangs) (PDict []) fresh_world in
  final r = fresh_world /\ events r = [] /\
  value r = Ok [(key "error", PStr (lit "No input provided"));
                (key "example", usage_example)].
Proof.
  cbv zeta.
  assert (H : forall input : pyval R,
             py_get (PDict []) "input" (PDict []) = Ok input ->
             truthy input = true -> py_contains "text" input <> Ok true).
  { intros input E Ht. cbn in E. injection E as <-. discriminate Ht. }
  destruct (handler_turns_a_malformed_job_away_untouched
              (machine (R:=R) child_hangs) (PDict []) fresh_world H)
    as (T1 & T2 & _ & T4 & _).
  split; [exact T1|]. split; [exact T2|].
  exact (T4 (PDict []) eq_refl eq_refl).
Defined.

(** The input is a string that mentions the text. *)
Lemma string_input_witness :
  handler (machine (R:=R) child_hangs)
          (PDict [(lit "input", PStr (lit "the text"))]) fresh_world
  = mkOutcome
      (Ok (error_only (lit "Generation failed: 'str' object has no attribute 'get'")))
      (tick fresh_world) [].
Proof.
  refine (an_input_that_is_no_dictionary_fails_in_generate_audio
            (machine (R:=R) child_hangs)
            (PDict [(lit "input", PStr (lit "the text"))]) (PStr (lit "the text"))
            fresh_world eq_refl eq_refl _).
  intros d E. discriminate E.
Defined.

(** Two calls that overlap step by step both return [True]. *)
Lemma overlapping_calls_witness :
  let o := machine (R:=R) child_hangs in
  let r := run_schedule o [0; 1; 0; 1; 0; 1; 0; 1; 0; 1; 0; 1] (repeat AtCheck 2)
                        fresh_world in
  cuda_is_available o <> None /\
  fs_exists (env_model_path o) (fs fresh_world) = true /\
  exists pool,
    value r = Ok pool /\
    (forall b, In (Returned b) pool -> b = true /\ model_initialized (final r) = true) /\
    fs (final r) = fs fresh_world.
Proof.
  cbv zeta.
  assert (H1 : cuda_is_available (machine (R:=R) child_hangs) <> None) by discriminate.
  assert (H2 : fs_exists (env_model_path (machine (R:=R) child_hangs)) (fs fresh_world)
               = true) by reflexivity.
  split; [exact H1|]. split; [exact H2|].
  exact (overlapping_calls_all_return_true
           (machine (R:=R) child_hangs) [0; 1; 0; 1; 0; 1; 0; 1; 0; 1; 0; 1] 2
           fresh_world H1 H2).
Defined.

(** A fresh worker with one device is initializing, and shows its device. *)
Lemma health_check_witness :
  let r := health_check (machine (R:=R) child_hangs) a_gpu fresh_world in
  probes_answer (machine (R:=R) child_hangs) a_gpu = true /\
  exists d, value r = Ok d /\
            dict_lookup (key "status") d = Some (PStr (lit "initializing")) /\
            dict_lookup (key "model_loaded") d = Some (PBool false).
Proof.
  cbv zeta. split; [reflexivity|].
  eassert (E : value (health_check (machine (R:=R) child_hangs) a_gpu fresh_world) = Ok _)
    by reflexivity.
  lazymatch type of E with
  | _ = Ok ?d =>
      exists d; split; [exact E|];
      destruct (health_check_reports_the_globals
                  (machine (R:=R) child_hangs) a_gpu fresh_world d eq_refl E)
        as (T1 & T2 & _);
      split; [exact T1 | exact T2]
  end.
Defined.

(** After a successful initialization the worker is healthy, on cuda. *)
Lemma health_after_initialization_witness :
  let o := machine (R:=R) child_hangs in
  let r := health_check o a_gpu (final (initialize_model o fresh_world)) in
  value (initialize_model o fresh_world) = Ok true /\
  exists d, value r = Ok d /\
            dict_lookup (key "status") d = Some (PStr (lit "healthy")) /\
            dict_lookup (key "device") d = Some (PStr (lit "cuda")).
Proof.
  cbv zeta. split; [reflexivity|].
  eassert (E : value (health_check (machine (R:=R) child_hangs) a_gpu
                        (final (initialize_model (machine (R:=R) child_hangs) fresh_world)))
               = Ok _)
    by reflexivity.
  lazymatch type of E with
  | _ = Ok ?d =>
      exists d; split; [exact E|];
      destruct (health_check_tells_whether_initialization_worked
                  (machine (R:=R) child_hangs) a_gpu fresh_world true d eq_refl eq_refl E)
        as (T1 & _ & T3);
      split; [exact T1|]; exact (T3 eq_refl true eq_refl)
  end.
Defined.
